(** * IOSBuilder: the iOS credential workflow of the exp command line

    A shallow embedding of [src/commands/build/IOSBuilder.js].  The builder
    talks to collaborators that live outside the file (the xdl library, the
    Node file system, the inquirer prompt library, the operator at the
    terminal and the methods inherited from BaseBuilder).  Every such call
    is recorded, together with its answer, in a trace of events; what a
    collaborator answers may depend on everything that happened before. *)

From Stdlib Require Import String Ascii List Bool Arith Lia.
Import ListNotations.
Local Open Scope list_scope.

(* ================================================================== *)
(** ** Data model *)

(** Error codes of xdl's [ErrorCode] that the builder names, and any other. *)
Inductive ErrorCode : Type :=
| INVALID_OPTIONS
| CREDENTIAL_ERROR
| OtherCode (name : string).

(** Values that are thrown.  [XDLError] is xdl's tagged error (its
    [isXDLError] is true), [CommandError] the command line's own error
    class, [Unclassified] anything else (a network fault, a TypeError). *)
Inductive exn : Type :=
| XDLError (code : ErrorCode) (message : string)
| CommandError (code : ErrorCode) (message : string)
| Unclassified (what : string).

(** What an awaited call gives back. *)
Inductive result (A : Type) : Type :=
| Returned (a : A)
| Threw (e : exn).
Arguments Returned {A} a.
Arguments Threw {A} e.

(** Flow type [IOSCredentials]: every field is optional. *)
Record IOSCredentials : Type := mkIOSCredentials {
  appleId : option string;
  password : option string;
  teamId : option string;
  certP12 : option string;
  certPassword : option string;
  pushP12 : option string;
  pushPassword : option string
}.

(** Flow type [CredentialMetadata]. *)
Record CredentialMetadata : Type := mkCredentialMetadata {
  username : string;
  experienceName : string;
  bundleIdentifier : string;
  platform : string
}.

(** The [args] of [Exp.getPublishInfoAsync]. *)
Record PublishArgs : Type := mkPublishArgs {
  args_username : string;
  args_remoteFullPackageName : string;
  args_bundleIdentifierIOS : option string
}.

Record Stats : Type := mkStats { isFile : bool }.

Definition Buffer : Type := list Byte.byte.
Definition ExpIds : Type := list string.

(** [this.options] and [this.projectDir] of the builder object. *)
Record Options : Type := mkOptions { clearCredentials : bool }.
Record Builder : Type := mkBuilder { projectDir : string; options : Options }.

(** JavaScript truthiness of an optional string: [undefined] and the empty
    string are falsy. *)
Definition truthy (x : option string) : bool :=
  match x with
  | Some s => negb (String.eqb s EmptyString)
  | None => false
  end.

(** Answers of the prompt library: a choice value or a typed string. *)
Inductive value : Type :=
| VBool (b : bool)
| VStr (s : string).

Definition truthyValue (v : option value) : bool :=
  match v with
  | Some (VBool b) => b
  | Some (VStr s) => negb (String.eqb s EmptyString)
  | None => false
  end.

Definition Answers : Type := list (string * value).

Fixpoint answer (name : string) (a : Answers) : option value :=
  match a with
  | [] => None
  | (n, v) :: rest => if String.eqb n name then Some v else answer name rest
  end.

Definition answerString (name : string) (a : Answers) : option string :=
  match answer name a with
  | Some (VStr s) => Some s
  | _ => None
  end.

(* ================================================================== *)
(** ** Events and the world *)

Inductive event : Type :=
| EvLog (line : string)
| EvPrompt (questions : list string)
| EvInput (question : string) (line : string)
| EvStat (path : string) (r : result Stats)
| EvReadFile (path : string) (r : result Buffer)
| EvGetPublishInfo (dir : string) (r : result PublishArgs)
| EvCredentialsExist (m : CredentialMetadata) (r : result (option IOSCredentials))
| EvValidate (plat kind : string) (c : option IOSCredentials)
             (m : CredentialMetadata) (r : result bool)
| EvUpdate (plat : string) (c : IOSCredentials) (m : CredentialMetadata)
           (r : result unit)
| EvFetchAppleCertificates (m : CredentialMetadata) (r : result unit)
| EvFetchPushCertificates (m : CredentialMetadata) (r : result bool)
| EvEnsureAppId (m : CredentialMetadata) (r : result unit)
| EvCheckPackagerStatus (r : result unit)
| EvCheckStatus (r : result unit)
| EvPublish (r : result ExpIds)
| EvBuild (ids : ExpIds) (plat : string) (r : result unit).

Definition history : Type := list event.

(** The collaborators.  Each answer may depend on the history so far.  A
    [bool] answer is the truthiness of the value the call resolves to.  The
    last four are methods of BaseBuilder, which [IOSBuilder] extends. *)
Record World : Type := mkWorld {
  Exp_getPublishInfoAsync : history -> string -> result PublishArgs;
  Credentials_credentialsExistForPlatformAsync :
    history -> CredentialMetadata -> result (option IOSCredentials);
  Credentials_validateCredentialsForPlatform :
    history -> string -> string -> option IOSCredentials ->
    CredentialMetadata -> result bool;
  Credentials_updateCredentialsForPlatform :
    history -> string -> IOSCredentials -> CredentialMetadata -> result unit;
  Credentials_fetchAppleCertificates :
    history -> CredentialMetadata -> result unit;
  Credentials_fetchPushCertificates :
    history -> CredentialMetadata -> result bool;
  Credentials_ensureAppId : history -> CredentialMetadata -> result unit;
  fs_stat : history -> string -> result Stats;
  fs_readFile : history -> string -> result Buffer;
  BaseBuilder_checkPackagerStatus : history -> result unit;
  BaseBuilder_checkStatus : history -> result unit;
  BaseBuilder_publish : history -> result ExpIds;
  BaseBuilder_build : history -> ExpIds -> string -> result unit
}.

(** Pure helpers of the host: the untildify package, Node's [path] module,
    [Buffer.toString('base64')], and whether a [CommandError] (declared in
    ../../CommandError) carries the [isXDLError] tag. *)
Record Host : Type := mkHost {
  untildify : string -> string;
  path_isAbsolute : string -> bool;
  path_resolve : string -> string;
  toBase64 : Buffer -> string;
  commandErrorIsXDL : bool
}.

(* ================================================================== *)
(** ** The effect monad *)

(** How a computation ends: with a value, with a thrown error, or suspended
    at a prompt the operator never answers. *)
Inductive outcome (A : Type) : Type :=
| Ok (a : A)
| Throw (e : exn)
| Waiting.
Arguments Ok {A} a.
Arguments Throw {A} e.
Arguments Waiting {A}.

(** A computation reads the history, may consume the state [S] (the lines
    the operator is still going to type) and emits the events it causes. *)
Definition Eff (S A : Type) : Type :=
  history -> S -> outcome A * list event * S.

Definition script : Type := list string.
Definition M (A : Type) : Type := Eff script A.

Definition ret {S A} (a : A) : Eff S A := fun _ s => (Ok a, [], s).

Definition bind {S A B} (m : Eff S A) (k : A -> Eff S B) : Eff S B :=
  fun h s =>
    match m h s with
    | (Ok a, d1, s1) =>
        match k a (h ++ d1) s1 with
        | (o, d2, s2) => (o, d1 ++ d2, s2)
        end
    | (Throw e, d1, s1) => (Throw e, d1, s1)
    | (Waiting, d1, s1) => (Waiting, d1, s1)
    end.

Definition throw {S A} (e : exn) : Eff S A := fun _ s => (Throw e, [], s).

Definition tryCatch {S A} (m : Eff S A) (handler : exn -> Eff S A) : Eff S A :=
  fun h s =>
    match m h s with
    | (Throw e, d1, s1) =>
        match handler e (h ++ d1) s1 with
        | (o, d2, s2) => (o, d1 ++ d2, s2)
        end
    | r => r
    end.

(** How an awaited call ends for the caller. *)
Definition outcomeOf {A} (r : result A) : outcome A :=
  match r with
  | Returned a => Ok a
  | Threw e => Throw e
  end.

(** An awaited call of a collaborator: ask the world, record the event. *)
Definition call {S A} (f : history -> result A) (ev : result A -> event)
  : Eff S A :=
  fun h s => let r := f h in (outcomeOf r, [ev r], s).

Definition emit {S} (e : event) : Eff S unit := fun _ s => (Ok tt, [e], s).

Definition console_log {S} (line : string) : Eff S unit := emit (EvLog line).

Notation "x <- m ;; k" := (bind m (fun x => k))
  (at level 61, m at next level, right associativity).
Notation "m ;;; k" := (bind m (fun _ => k))
  (at level 61, right associativity).

(* ================================================================== *)
(** ** The prompt library

    [inquirer.prompt(questions)] asks the questions in order.  A question
    whose [when] is false for the answers so far is skipped.  A typed line
    goes through the question's [filter], then through its [validate]; a
    line that does not validate is asked again.  A [rawlist] question
    takes the number of a choice (an empty line takes the first). *)

Inductive qtype : Type := QInput | QPassword | QRawlist.

Record question : Type := mkQuestion {
  qtype_of : qtype;
  name : string;
  message : string;
  choices : list (string * bool);
  validate : string -> Eff unit bool;
  filter : string -> string;
  when : Answers -> bool
}.

Definition noValidate : string -> Eff unit bool := fun _ => ret true.
Definition noFilter : string -> string := fun s => s.
Definition always : Answers -> bool := fun _ => true.

(** The numeral of a choice; the lists of choices here have two. *)
Definition digit (n : nat) : string :=
  String (ascii_of_nat (48 + n)) EmptyString.

(** The choice a typed line selects, among the numbered choices. *)
Fixpoint chooseFrom (i : nat) (cs : list (string * bool)) (line : string)
  : option bool :=
  match cs with
  | [] => None
  | (_, v) :: rest =>
      if String.eqb line (digit i) then Some v else chooseFrom (S i) rest line
  end.

Definition choose (cs : list (string * bool)) (line : string) : option bool :=
  if String.eqb line EmptyString
  then match cs with (_, v) :: _ => Some v | [] => None end
  else chooseFrom 1 cs line.

(** One question, asked until a line is accepted or the operator stops
    typing. *)
Fixpoint ask (q : question) (h : history) (s : script) {struct s}
  : outcome value * list event * script :=
  match s with
  | [] => (Waiting, [], [])
  | line :: s' =>
      let typed := EvInput (name q) line in
      match qtype_of q with
      | QRawlist =>
          match choose (choices q) line with
          | Some v => (Ok (VBool v), [typed], s')
          | None =>
              match ask q (h ++ [typed]) s' with
              | (o, d, s'') => (o, typed :: d, s'')
              end
          end
      | _ =>
          let v := filter q line in
          match validate q v (h ++ [typed]) tt with
          | (Ok true, dv, _) => (Ok (VStr v), typed :: dv, s')
          | (Ok false, dv, _) =>
              match ask q (h ++ typed :: dv) s' with
              | (o, d, s'') => (o, typed :: dv ++ d, s'')
              end
          | (Throw e, dv, _) => (Throw e, typed :: dv, s')
          | (Waiting, dv, _) => (Waiting, typed :: dv, s')
          end
      end
  end.

Fixpoint promptFrom (qs : list question) (answers : Answers) : M Answers :=
  match qs with
  | [] => ret answers
  | q :: rest =>
      if when q answers
      then v <- ask q ;; promptFrom rest (answers ++ [(name q, v)])
      else promptFrom rest answers
  end.

Definition inquirer_prompt (qs : list question) : M Answers :=
  emit (EvPrompt (map name qs)) ;;; promptFrom qs [].

(* ================================================================== *)
(** ** Message texts *)

Local Open Scope string_scope.

Definition dquote : string := String "034"%char EmptyString.
Definition newline : string := String "010"%char EmptyString.

Definition msgNoBundleIdentifier : string :=
  "Your project must have a bundleIdentifier set in exp.json. See https://docs.getexponent.com/versions/latest/guides/building-standalone-apps.html".

Definition msgStoredCredentialsInvalid : string :=
  "Stored credentials are invalid! Rerun this command with " ++ dquote ++
  "-c" ++ dquote ++ " in order to reinput your credentials.".

Definition msgStoredCertificateInvalid : string :=
  "Stored certificate is invalid! Rerun this command with " ++ dquote ++
  "-c" ++ dquote ++
  " in order to reinput your credentials and reupload/regenerate certificates.".

Definition msgStoredPushCertificateInvalid : string :=
  "Stored push certificate is invalid! Rerun this command with " ++ dquote ++
  "-c" ++ dquote ++
  " in order to reinput your credentials and reupload/regenerate certificates.".

Definition msgAppId (bundleIdentifier : string) : string :=
  "It seems like we can't create an app on the Apple developer center with this app id: "
  ++ bundleIdentifier ++
  ". Please change your bundle identifier to something else.".

Definition msgNeedAppleId : string :=
  "We need your Apple ID/password to manage certificates and provisioning profiles from your Apple Developer account.".

Definition msgTeamId : string :=
  "What is your Apple Team ID (you can find that on this page: https://developer.apple.com/account/#/membership)?".

Definition msgFileDoesNotExist : string := newline ++ "File does not exist.".

Definition msgCertNotInPortal : string :=
  "Oops! This certificate doesn't seem to be present in your developer portal. Please upload a different certificate that exists in your developer portal.".

Definition msgPushCertNotInPortal : string :=
  "Oops! This push certificate doesn't seem to be present in your developer portal. Please upload a different certificate that exists in your developer portal.".

Definition msgFailedCertificates : string :=
  "Failed fetching/uploading certificates.".

Definition msgManageCertificates : string :=
  "Do you already have a distribution certificate you'd like us to use," ++
  newline ++ "or do you want us to manage your certificates for you?".

Definition msgManagePushCertificates : string :=
  "Do you already have a push notification certificate you'd like us to use,"
  ++ newline ++
  "or do you want us to manage your push certificates for you?".

Definition manageChoices : list (string * bool) :=
  [ ("Let Exponent handle the process!", true);
    ("I want to upload my own certificate!", false) ].

Local Open Scope list_scope.

(* ================================================================== *)
(** ** IOSBuilder *)

Section IOSBuilder.

Variable w : World.
Variable host : Host.

(** [e.isXDLError], [e.code] and [e.message] of a caught value. *)
Definition isXDLError (e : exn) : bool :=
  match e with
  | XDLError _ _ => true
  | CommandError _ _ => commandErrorIsXDL host
  | Unclassified _ => false
  end.

Definition code_of (e : exn) : ErrorCode :=
  match e with
  | XDLError c _ => c
  | CommandError c _ => c
  | Unclassified _ => OtherCode "undefined"
  end.

Definition message_of (e : exn) : string :=
  match e with
  | XDLError _ m => m
  | CommandError _ m => m
  | Unclassified what => what
  end.

(** *** Awaited calls *)

Definition getPublishInfoAsync {S} (dir : string) : Eff S PublishArgs :=
  call (fun h => Exp_getPublishInfoAsync w h dir) (EvGetPublishInfo dir).

Definition credentialsExistForPlatformAsync {S} (m : CredentialMetadata)
  : Eff S (option IOSCredentials) :=
  call (fun h => Credentials_credentialsExistForPlatformAsync w h m)
       (EvCredentialsExist m).

Definition validateCredentialsForPlatform {S} (plat kind : string)
  (c : option IOSCredentials) (m : CredentialMetadata) : Eff S bool :=
  call (fun h => Credentials_validateCredentialsForPlatform w h plat kind c m)
       (EvValidate plat kind c m).

Definition updateCredentialsForPlatform {S} (plat : string)
  (c : IOSCredentials) (m : CredentialMetadata) : Eff S unit :=
  call (fun h => Credentials_updateCredentialsForPlatform w h plat c m)
       (EvUpdate plat c m).

Definition fetchAppleCertificates {S} (m : CredentialMetadata) : Eff S unit :=
  call (fun h => Credentials_fetchAppleCertificates w h m)
       (EvFetchAppleCertificates m).

Definition fetchPushCertificates {S} (m : CredentialMetadata) : Eff S bool :=
  call (fun h => Credentials_fetchPushCertificates w h m)
       (EvFetchPushCertificates m).

Definition ensureAppId {S} (m : CredentialMetadata) : Eff S unit :=
  call (fun h => Credentials_ensureAppId w h m) (EvEnsureAppId m).

Definition stat {S} (p : string) : Eff S Stats :=
  call (fun h => fs_stat w h p) (EvStat p).

(** [fs.readFile.promise(answers.pathToP12)]; an answer that is not there
    is [undefined], which the file system rejects. *)
Definition readFile {S} (p : option string) : Eff S Buffer :=
  match p with
  | Some p => call (fun h => fs_readFile w h p) (EvReadFile p)
  | None => throw (Unclassified "TypeError: path must be a string")
  end.

Definition checkPackagerStatus {S} : Eff S unit :=
  call (BaseBuilder_checkPackagerStatus w) EvCheckPackagerStatus.

Definition checkStatus {S} : Eff S unit :=
  call (BaseBuilder_checkStatus w) EvCheckStatus.

Definition publish {S} : Eff S ExpIds :=
  call (BaseBuilder_publish w) EvPublish.

Definition build {S} (ids : ExpIds) (plat : string) : Eff S unit :=
  call (fun h => BaseBuilder_build w h ids plat) (EvBuild ids plat).

(** *** askForAppleId *)

Definition nonEmpty : string -> Eff unit bool :=
  fun val => ret (negb (String.eqb val EmptyString)).

Definition appleIdQuestions : list question :=
  [ mkQuestion QInput "appleId" "What's your Apple ID?" [] nonEmpty noFilter always;
    mkQuestion QPassword "password" "Password?" [] nonEmpty noFilter always;
    mkQuestion QInput "teamId" msgTeamId [] nonEmpty noFilter always ].

Definition askForAppleId (credentialMetadata : CredentialMetadata) : M unit :=
  console_log EmptyString ;;;
  console_log msgNeedAppleId ;;;
  answers <- inquirer_prompt appleIdQuestions ;;
  let credentials :=
    {| appleId := answerString "appleId" answers;
       password := answerString "password" answers;
       teamId := answerString "teamId" answers;
       certP12 := None; certPassword := None;
       pushP12 := None; pushPassword := None |} in
  tryCatch
    (validateCredentialsForPlatform "ios" "appleId" (Some credentials)
       credentialMetadata ;;; ret tt)
    (fun e =>
       if isXDLError e
       then throw (CommandError (code_of e) (message_of e))
       else throw e) ;;;
  updateCredentialsForPlatform "ios" credentials credentialMetadata.

(** *** The path question shared by the two certificate prompts *)

Definition p12PathValidate (p12Path : string) : Eff unit bool :=
  tryCatch
    (stats <- stat p12Path ;; ret (isFile stats))
    (fun _ => console_log msgFileDoesNotExist ;;; ret false).

Definition p12PathFilter (p12Path : string) : string :=
  let p12Path := untildify host p12Path in
  if negb (path_isAbsolute host p12Path)
  then path_resolve host p12Path
  else p12Path.

(** *** askForCerts *)

Definition certQuestions : list question :=
  [ mkQuestion QRawlist "manageCertificates" msgManageCertificates
      manageChoices
      noValidate noFilter always;
    mkQuestion QInput "pathToP12" "Path to P12 file:" [] p12PathValidate p12PathFilter
      (fun answers => negb (truthyValue (answer "manageCertificates" answers)));
    mkQuestion QPassword "certPassword"
      "Certificate P12 password (empty is OK):" [] noValidate noFilter
      (fun answers => negb (truthyValue (answer "manageCertificates" answers))) ].

Definition askForCerts (credentialMetadata : CredentialMetadata) : M unit :=
  console_log EmptyString ;;;
  answers <- inquirer_prompt certQuestions ;;
  tryCatch
    (if truthyValue (answer "manageCertificates" answers)
     then
       fetchAppleCertificates credentialMetadata
     else
       p12Data <- readFile (answerString "pathToP12" answers) ;;
       let credentials :=
         {| appleId := None; password := None; teamId := None;
            certP12 := Some (toBase64 host p12Data);
            certPassword := answerString "certPassword" answers;
            pushP12 := None; pushPassword := None |} in
       tryCatch
         (validateCredentialsForPlatform "ios" "cert" (Some credentials)
            credentialMetadata ;;; ret tt)
         (fun e =>
            if isXDLError e
            then throw (CommandError (code_of e) msgCertNotInPortal)
            else throw e) ;;;
       updateCredentialsForPlatform "ios" credentials credentialMetadata)
    (fun e =>
       if isXDLError e
       then throw (CommandError (code_of e) msgFailedCertificates)
       else throw e).

(** *** askForPushCerts *)

Definition pushCertQuestions : list question :=
  [ mkQuestion QRawlist "managePushCertificates" msgManagePushCertificates
      manageChoices
      noValidate noFilter always;
    mkQuestion QInput "pathToP12" "Path to P12 file:" [] p12PathValidate p12PathFilter
      (fun answers =>
         negb (truthyValue (answer "managePushCertificates" answers)));
    mkQuestion QPassword "pushPassword"
      "Push certificate P12 password (empty is OK):" [] noValidate noFilter
      (fun answers =>
         negb (truthyValue (answer "managePushCertificates" answers))) ].

(** The [try] block yields the value [isValid] holds when the block ends;
    the [catch] sets it to false for an error without the xdl tag. *)
Definition askForPushCerts (credentialMetadata : CredentialMetadata) : M unit :=
  console_log EmptyString ;;;
  answers <- inquirer_prompt pushCertQuestions ;;
  isValid <-
    tryCatch
      (if truthyValue (answer "managePushCertificates" answers)
       then
         fetchPushCertificates credentialMetadata
       else
         p12Data <- readFile (answerString "pathToP12" answers) ;;
         let credentials :=
           {| appleId := None; password := None; teamId := None;
              certP12 := None; certPassword := None;
              pushP12 := Some (toBase64 host p12Data);
              pushPassword := answerString "pushPassword" answers |} in
         isValid <-
           tryCatch
             (validateCredentialsForPlatform "ios" "push" (Some credentials)
                credentialMetadata)
             (fun _ =>
                throw (XDLError CREDENTIAL_ERROR msgPushCertNotInPortal)) ;;
         updateCredentialsForPlatform "ios" credentials credentialMetadata ;;;
         ret isValid)
      (fun e => if negb (isXDLError e) then ret false else throw e) ;;
  if negb isValid
  then throw (XDLError CREDENTIAL_ERROR msgFailedCertificates)
  else ret tt.

(** *** collectAndValidateCredentials *)

Record Has : Type := mkHas {
  hasAppleId : bool;
  hasCert : bool;
  hasPushCert : bool
}.

(** Lines 76-85.  An object is truthy; [undefined] and [null] are not.  A
    variable left unassigned is [undefined], which the tests that follow
    read as false. *)
Definition isSome {A} (x : option A) : bool :=
  match x with Some _ => true | None => false end.

Definition decideHas (clear : bool) (existingCredentials : option IOSCredentials)
  : Has :=
  if clear || negb (isSome existingCredentials)
  then mkHas false false false
  else
    match existingCredentials with
    | Some existing =>
        mkHas (truthy (appleId existing))
              (truthy (certP12 existing))
              (truthy (pushP12 existing))
    | None => mkHas false false false
    end.

Definition stringOf (x : option string) : string :=
  match x with Some s => s | None => EmptyString end.

Definition collectAndValidateCredentials (this : Builder) : M unit :=
  args <- getPublishInfoAsync (projectDir this) ;;
  if negb (truthy (args_bundleIdentifierIOS args))
  then throw (XDLError INVALID_OPTIONS msgNoBundleIdentifier)
  else
    let credentialMetadata :=
      {| username := args_username args;
         experienceName := args_remoteFullPackageName args;
         bundleIdentifier := stringOf (args_bundleIdentifierIOS args);
         platform := "ios" |} in
    existingCredentials <- credentialsExistForPlatformAsync credentialMetadata ;;
    let has := decideHas (clearCredentials (options this)) existingCredentials in
    (if negb (hasAppleId has)
     then askForAppleId credentialMetadata
     else
       tryCatch
         (validateCredentialsForPlatform "ios" "appleId" None
            credentialMetadata ;;; ret tt)
         (fun _ =>
            throw (XDLError CREDENTIAL_ERROR msgStoredCredentialsInvalid))) ;;;
    (if negb (hasCert has)
     then askForCerts credentialMetadata
     else
       tryCatch
         (validateCredentialsForPlatform "ios" "cert" None
            credentialMetadata ;;; ret tt)
         (fun _ =>
            throw (XDLError CREDENTIAL_ERROR msgStoredCertificateInvalid))) ;;;
    tryCatch
      (ensureAppId credentialMetadata)
      (fun _ =>
         throw (XDLError CREDENTIAL_ERROR
                  (msgAppId (bundleIdentifier credentialMetadata)))) ;;;
    (if negb (hasPushCert has)
     then askForPushCerts credentialMetadata
     else
       tryCatch
         (validateCredentialsForPlatform "ios" "push" None
            credentialMetadata ;;; ret tt)
         (fun _ =>
            throw (XDLError CREDENTIAL_ERROR msgStoredPushCertificateInvalid))).

(** *** run *)

Definition run (this : Builder) : M unit :=
  checkPackagerStatus ;;;
  checkStatus ;;;
  collectAndValidateCredentials this ;;;
  publishedExpIds <- publish ;;
  build publishedExpIds "ios".

End IOSBuilder.

(* ================================================================== *)
(** ** Shapes of traces

    What a function can emit and how it can end, whatever the world
    answers.  The answers are in the events, so a shape does not mention
    the world. *)

Definition isInput (e : event) : bool :=
  match e with EvInput _ _ => true | _ => false end.

(** Events from inside a running prompt. *)
Definition quiet (e : event) : bool :=
  match e with
  | EvInput _ _ | EvStat _ _ | EvLog _ => true
  | _ => false
  end.

Section Shapes.

Variable host : Host.

(** Path lines that were turned down: the file was not a regular file, or
    [stat] failed and the callback logged it. *)
Inductive rejectedPaths : list event -> Prop :=
| rp_nil : rejectedPaths []
| rp_notFile raw st rest :
    isFile st = false ->
    rejectedPaths rest ->
    rejectedPaths (EvInput "pathToP12" raw
                   :: EvStat (p12PathFilter host raw) (Returned st) :: rest)
| rp_missing raw e rest :
    rejectedPaths rest ->
    rejectedPaths (EvInput "pathToP12" raw
                   :: EvStat (p12PathFilter host raw) (Threw e)
                   :: EvLog msgFileDoesNotExist :: rest).

Definition appleIdAnswers (a p t : string) : Answers :=
  [("appleId", VStr a); ("password", VStr p); ("teamId", VStr t)].

Inductive appleIdPromptShape : outcome Answers -> list event -> Prop :=
| ap_waiting seg :
    forallb isInput seg = true ->
    appleIdPromptShape Waiting
      (EvPrompt ["appleId"; "password"; "teamId"] :: seg)
| ap_answered seg a p t :
    forallb isInput seg = true ->
    a <> EmptyString -> p <> EmptyString -> t <> EmptyString ->
    appleIdPromptShape (Ok (appleIdAnswers a p t))
      (EvPrompt ["appleId"; "password"; "teamId"] :: seg).

Definition uploadAnswers (mq pwq p pw : string) : Answers :=
  [(mq, VBool false); ("pathToP12", VStr p); (pwq, VStr pw)].

(** The two certificate prompts; [mq] and [pwq] name the first and the
    last question. *)
Inductive p12PromptShape (mq pwq : string)
  : outcome Answers -> list event -> Prop :=
| pp_waitChoice seg :
    forallb isInput seg = true ->
    p12PromptShape mq pwq Waiting (EvPrompt [mq; "pathToP12"; pwq] :: seg)
| pp_manage seg l :
    forallb isInput seg = true ->
    p12PromptShape mq pwq (Ok [(mq, VBool true)])
      (EvPrompt [mq; "pathToP12"; pwq] :: seg ++ [EvInput mq l])
| pp_waitPath seg l rej :
    forallb isInput seg = true ->
    rejectedPaths rej ->
    p12PromptShape mq pwq Waiting
      (EvPrompt [mq; "pathToP12"; pwq] :: seg ++ EvInput mq l :: rej)
| pp_waitPassword seg l rej raw st :
    forallb isInput seg = true ->
    rejectedPaths rej ->
    isFile st = true ->
    p12PromptShape mq pwq Waiting
      (EvPrompt [mq; "pathToP12"; pwq]
       :: seg ++ EvInput mq l
       :: rej ++ [EvInput "pathToP12" raw;
                  EvStat (p12PathFilter host raw) (Returned st)])
| pp_upload seg l rej raw st pw :
    forallb isInput seg = true ->
    rejectedPaths rej ->
    isFile st = true ->
    p12PromptShape mq pwq
      (Ok (uploadAnswers mq pwq (p12PathFilter host raw) pw))
      (EvPrompt [mq; "pathToP12"; pwq]
       :: seg ++ EvInput mq l
       :: rej ++ [EvInput "pathToP12" raw;
                  EvStat (p12PathFilter host raw) (Returned st);
                  EvInput pwq pw]).

(** How a [catch] that rewrites tagged errors ends. *)
Definition rewrap (message : string) {A} (o : outcome A) : outcome A :=
  match o with
  | Throw e =>
      Throw (if isXDLError host e then CommandError (code_of e) message else e)
  | _ => o
  end.

Definition appleIdCredentials (a p t : string) : IOSCredentials :=
  {| appleId := Some a; password := Some p; teamId := Some t;
     certP12 := None; certPassword := None;
     pushP12 := None; pushPassword := None |}.

Definition certCredentials (data : Buffer) (pw : string) : IOSCredentials :=
  {| appleId := None; password := None; teamId := None;
     certP12 := Some (toBase64 host data); certPassword := Some pw;
     pushP12 := None; pushPassword := None |}.

Definition pushCredentials (data : Buffer) (pw : string) : IOSCredentials :=
  {| appleId := None; password := None; teamId := None;
     certP12 := None; certPassword := None;
     pushP12 := Some (toBase64 host data); pushPassword := Some pw |}.

Inductive askForAppleIdShape (m : CredentialMetadata)
  : outcome unit -> list event -> Prop :=
| aa_waiting dp :
    appleIdPromptShape Waiting dp ->
    askForAppleIdShape m Waiting
      (EvLog EmptyString :: EvLog msgNeedAppleId :: dp)
| aa_invalid dp a p t e :
    appleIdPromptShape (Ok (appleIdAnswers a p t)) dp ->
    askForAppleIdShape m
      (Throw (if isXDLError host e
              then CommandError (code_of e) (message_of e) else e))
      (EvLog EmptyString :: EvLog msgNeedAppleId
       :: dp ++ [EvValidate "ios" "appleId"
                   (Some (appleIdCredentials a p t)) m (Threw e)])
| aa_update dp a p t v r :
    appleIdPromptShape (Ok (appleIdAnswers a p t)) dp ->
    askForAppleIdShape m (outcomeOf r)
      (EvLog EmptyString :: EvLog msgNeedAppleId
       :: dp ++ [EvValidate "ios" "appleId"
                   (Some (appleIdCredentials a p t)) m (Returned v);
                 EvUpdate "ios" (appleIdCredentials a p t) m r]).

Definition certPrompt := p12PromptShape "manageCertificates" "certPassword".
Definition certUpload := uploadAnswers "manageCertificates" "certPassword".

Inductive askForCertsShape (m : CredentialMetadata)
  : outcome unit -> list event -> Prop :=
| ac_waiting dp :
    certPrompt Waiting dp ->
    askForCertsShape m Waiting (EvLog EmptyString :: dp)
| ac_fetch dp r :
    certPrompt (Ok [("manageCertificates", VBool true)]) dp ->
    askForCertsShape m (rewrap msgFailedCertificates (outcomeOf r))
      (EvLog EmptyString :: dp ++ [EvFetchAppleCertificates m r])
| ac_unreadable dp p pw e :
    certPrompt (Ok (certUpload p pw)) dp ->
    askForCertsShape m (rewrap msgFailedCertificates (Throw e))
      (EvLog EmptyString :: dp ++ [EvReadFile p (Threw e)])
| ac_invalid dp p pw data e :
    certPrompt (Ok (certUpload p pw)) dp ->
    askForCertsShape m
      (rewrap msgFailedCertificates
         (rewrap msgCertNotInPortal (Throw e)))
      (EvLog EmptyString
       :: dp ++ [EvReadFile p (Returned data);
                 EvValidate "ios" "cert" (Some (certCredentials data pw)) m
                   (Threw e)])
| ac_update dp p pw data v r :
    certPrompt (Ok (certUpload p pw)) dp ->
    askForCertsShape m (rewrap msgFailedCertificates (outcomeOf r))
      (EvLog EmptyString
       :: dp ++ [EvReadFile p (Returned data);
                 EvValidate "ios" "cert" (Some (certCredentials data pw)) m
                   (Returned v);
                 EvUpdate "ios" (certCredentials data pw) m r]).

Definition pushPrompt := p12PromptShape "managePushCertificates" "pushPassword".
Definition pushUpload := uploadAnswers "managePushCertificates" "pushPassword".

(** How askForPushCerts ends, from how its [try] block ended. *)
Definition pushEnd (o : outcome bool) : outcome unit :=
  match o with
  | Ok true => Ok tt
  | Ok false => Throw (XDLError CREDENTIAL_ERROR msgFailedCertificates)
  | Throw e =>
      if isXDLError host e
      then Throw e
      else Throw (XDLError CREDENTIAL_ERROR msgFailedCertificates)
  | Waiting => Waiting
  end.

Inductive askForPushCertsShape (m : CredentialMetadata)
  : outcome unit -> list event -> Prop :=
| ah_waiting dp :
    pushPrompt Waiting dp ->
    askForPushCertsShape m Waiting (EvLog EmptyString :: dp)
| ah_fetch dp r :
    pushPrompt (Ok [("managePushCertificates", VBool true)]) dp ->
    askForPushCertsShape m (pushEnd (outcomeOf r))
      (EvLog EmptyString :: dp ++ [EvFetchPushCertificates m r])
| ah_unreadable dp p pw e :
    pushPrompt (Ok (pushUpload p pw)) dp ->
    askForPushCertsShape m (pushEnd (Throw e))
      (EvLog EmptyString :: dp ++ [EvReadFile p (Threw e)])
| ah_invalid dp p pw data e :
    pushPrompt (Ok (pushUpload p pw)) dp ->
    askForPushCertsShape m
      (Throw (XDLError CREDENTIAL_ERROR msgPushCertNotInPortal))
      (EvLog EmptyString
       :: dp ++ [EvReadFile p (Returned data);
                 EvValidate "ios" "push" (Some (pushCredentials data pw)) m
                   (Threw e)])
| ah_update dp p pw data v r :
    pushPrompt (Ok (pushUpload p pw)) dp ->
    askForPushCertsShape m
      (pushEnd (match r with Returned _ => Ok v | Threw e => Throw e end))
      (EvLog EmptyString
       :: dp ++ [EvReadFile p (Returned data);
                 EvValidate "ios" "push" (Some (pushCredentials data pw)) m
                   (Returned v);
                 EvUpdate "ios" (pushCredentials data pw) m r]).

(** Re-validation of stored material (lines 90-94, 100-104, 120-124). *)
Inductive revalidateShape (kind message : string) (m : CredentialMetadata)
  : outcome unit -> list event -> Prop :=
| rv_valid v :
    revalidateShape kind message m (Ok tt)
      [EvValidate "ios" kind None m (Returned v)]
| rv_invalid e :
    revalidateShape kind message m
      (Throw (XDLError CREDENTIAL_ERROR message))
      [EvValidate "ios" kind None m (Threw e)].

(** Lines 108-115. *)
Inductive ensureAppIdShape (m : CredentialMetadata)
  : outcome unit -> list event -> Prop :=
| ea_done :
    ensureAppIdShape m (Ok tt) [EvEnsureAppId m (Returned tt)]
| ea_failed e :
    ensureAppIdShape m
      (Throw (XDLError CREDENTIAL_ERROR (msgAppId (bundleIdentifier m))))
      [EvEnsureAppId m (Threw e)].

(** One step after another: the second runs only when the first is done. *)
Inductive andThen (P Q : outcome unit -> list event -> Prop)
  : outcome unit -> list event -> Prop :=
| at_both d1 o d2 : P (Ok tt) d1 -> Q o d2 -> andThen P Q o (d1 ++ d2)
| at_threw e d : P (Throw e) d -> andThen P Q (Throw e) d
| at_waiting d : P Waiting d -> andThen P Q Waiting d.

Definition appleIdStep (has : Has) (m : CredentialMetadata) :=
  if hasAppleId has
  then revalidateShape "appleId" msgStoredCredentialsInvalid m
  else askForAppleIdShape m.

Definition certStep (has : Has) (m : CredentialMetadata) :=
  if hasCert has
  then revalidateShape "cert" msgStoredCertificateInvalid m
  else askForCertsShape m.

Definition pushStep (has : Has) (m : CredentialMetadata) :=
  if hasPushCert has
  then revalidateShape "push" msgStoredPushCertificateInvalid m
  else askForPushCertsShape m.

Definition metadataOf (args : PublishArgs) : CredentialMetadata :=
  {| username := args_username args;
     experienceName := args_remoteFullPackageName args;
     bundleIdentifier := stringOf (args_bundleIdentifierIOS args);
     platform := "ios" |}.

Inductive workflowShape (this : Builder) : outcome unit -> list event -> Prop :=
| ws_noInfo e :
    workflowShape this (Throw e)
      [EvGetPublishInfo (projectDir this) (Threw e)]
| ws_noBundleIdentifier args :
    truthy (args_bundleIdentifierIOS args) = false ->
    workflowShape this (Throw (XDLError INVALID_OPTIONS msgNoBundleIdentifier))
      [EvGetPublishInfo (projectDir this) (Returned args)]
| ws_noStore args e :
    truthy (args_bundleIdentifierIOS args) = true ->
    workflowShape this (Throw e)
      [EvGetPublishInfo (projectDir this) (Returned args);
       EvCredentialsExist (metadataOf args) (Threw e)]
| ws_steps args existing o d :
    truthy (args_bundleIdentifierIOS args) = true ->
    (let has := decideHas (clearCredentials (options this)) existing in
     let m := metadataOf args in
     andThen (appleIdStep has m)
       (andThen (certStep has m)
          (andThen (ensureAppIdShape m) (pushStep has m))) o d) ->
    workflowShape this o
      (EvGetPublishInfo (projectDir this) (Returned args)
       :: EvCredentialsExist (metadataOf args) (Returned existing) :: d).

(** [run]: the two checks, the credential workflow, publish, build. *)
Inductive runShape (this : Builder) : outcome unit -> list event -> Prop :=
| rs_noPackager e :
    runShape this (Throw e) [EvCheckPackagerStatus (Threw e)]
| rs_noStatus e :
    runShape this (Throw e)
      [EvCheckPackagerStatus (Returned tt); EvCheckStatus (Threw e)]
| rs_noCredentials o d :
    workflowShape this o d ->
    o <> Ok tt ->
    runShape this o
      (EvCheckPackagerStatus (Returned tt) :: EvCheckStatus (Returned tt) :: d)
| rs_noPublish d e :
    workflowShape this (Ok tt) d ->
    runShape this (Throw e)
      (EvCheckPackagerStatus (Returned tt) :: EvCheckStatus (Returned tt)
       :: d ++ [EvPublish (Threw e)])
| rs_build d ids r :
    workflowShape this (Ok tt) d ->
    runShape this (outcomeOf r)
      (EvCheckPackagerStatus (Returned tt) :: EvCheckStatus (Returned tt)
       :: d ++ [EvPublish (Returned ids); EvBuild ids "ios" r]).

End Shapes.

(* ================================================================== *)
(** ** Vocabulary of the properties *)

Inductive Kind : Type := AppleId | Cert | PushCert.

(** The [validationType] the builder passes for a kind. *)
Definition kindName (k : Kind) : string :=
  match k with
  | AppleId => "appleId"
  | Cert => "cert"
  | PushCert => "push"
  end.

(** The names of the questions of a kind's prompt. *)
Definition kindQuestions (k : Kind) : list string :=
  match k with
  | AppleId => ["appleId"; "password"; "teamId"]
  | Cert => ["manageCertificates"; "pathToP12"; "certPassword"]
  | PushCert => ["managePushCertificates"; "pathToP12"; "pushPassword"]
  end.

(** The field of the stored bundle that stands for a kind. *)
Definition kindField (k : Kind) (c : IOSCredentials) : option string :=
  match k with
  | AppleId => appleId c
  | Cert => certP12 c
  | PushCert => pushP12 c
  end.

(** The collection flow of a kind ran: its prompt was opened. *)
Definition collected (k : Kind) (d : list event) : Prop :=
  In (EvPrompt (kindQuestions k)) d.

(** The re-validate flow of a kind ran: validation was called with no new
    data. *)
Definition revalidated (k : Kind) (d : list event) : Prop :=
  exists m r, In (EvValidate "ios" (kindName k) None m r) d.

(** The event that completes the Apple ID step: the re-validation
    returned, or the update that stores the typed Apple ID returned. *)
Definition appleIdStepDone (e : event) : bool :=
  match e with
  | EvValidate _ kind None _ (Returned _) => String.eqb kind "appleId"
  | EvUpdate _ c _ (Returned _) => isSome (appleId c)
  | _ => false
  end.

(** The event that completes the certificate step. *)
Definition certStepDone (e : event) : bool :=
  match e with
  | EvValidate _ kind None _ (Returned _) => String.eqb kind "cert"
  | EvFetchAppleCertificates _ (Returned _) => true
  | EvUpdate _ c _ (Returned _) => isSome (certP12 c)
  | _ => false
  end.

(** The workflow got as far as the step of a kind. *)
Definition reached (k : Kind) (d : list event) : Prop :=
  match k with
  | AppleId => exists m b, In (EvCredentialsExist m (Returned b)) d
  | Cert => existsb appleIdStepDone d = true
  | PushCert => exists m, In (EvEnsureAppId m (Returned tt)) d
  end.

Definition isEnsureAppId (e : event) : bool :=
  match e with EvEnsureAppId _ _ => true | _ => false end.

(** Calls that belong to the Apple ID step. *)
Definition appleIdStepEvent (e : event) : bool :=
  match e with
  | EvPrompt (q :: _) => String.eqb q "appleId"
  | EvValidate _ kind _ _ _ => String.eqb kind "appleId"
  | EvUpdate _ c _ _ => isSome (appleId c)
  | _ => false
  end.

(** Calls that belong to the certificate step. *)
Definition certStepEvent (e : event) : bool :=
  match e with
  | EvPrompt (q :: _) => String.eqb q "manageCertificates"
  | EvValidate _ kind _ _ _ => String.eqb kind "cert"
  | EvFetchAppleCertificates _ _ => true
  | EvUpdate _ c _ _ => isSome (certP12 c)
  | _ => false
  end.

(** Calls that belong to the push-certificate step. *)
Definition pushStepEvent (e : event) : bool :=
  match e with
  | EvPrompt (q :: _) => String.eqb q "managePushCertificates"
  | EvValidate _ kind _ _ _ => String.eqb kind "push"
  | EvFetchPushCertificates _ _ => true
  | EvUpdate _ c _ _ => isSome (pushP12 c)
  | _ => false
  end.

Definition isReadFile (e : event) : bool :=
  match e with EvReadFile _ _ => true | _ => false end.

(** Everything a step can emit. *)
Definition mayAppleId (e : event) : bool := quiet e || appleIdStepEvent e.
Definition mayCert (e : event) : bool :=
  quiet e || certStepEvent e || isReadFile e.
Definition mayPush (e : event) : bool :=
  quiet e || pushStepEvent e || isReadFile e.

Definition isPublish (e : event) : bool :=
  match e with EvPublish _ => true | _ => false end.

Definition isBuild (e : event) : bool :=
  match e with EvBuild _ _ _ => true | _ => false end.

(** Events of everything that comes before publishing. *)
Definition beforePublish (e : event) : bool :=
  negb (isPublish e || isBuild e).

(** The error a call of the certificate flow raised, if it raised one.
    [stat] is left out: the path validator catches what it raises. *)
Definition raised (e : event) : option exn :=
  match e with
  | EvReadFile _ (Threw x) => Some x
  | EvValidate _ _ _ _ (Threw x) => Some x
  | EvUpdate _ _ _ (Threw x) => Some x
  | EvFetchAppleCertificates _ (Threw x) => Some x
  | EvFetchPushCertificates _ (Threw x) => Some x
  | _ => None
  end.

Definition isValidate (e : event) : bool :=
  match e with EvValidate _ _ _ _ _ => true | _ => false end.

(** An outcome that carries the generic certificate message. *)
Definition genericFailure (o : outcome unit) : Prop :=
  exists code,
    o = Throw (CommandError code msgFailedCertificates) \/
    o = Throw (XDLError code msgFailedCertificates).

Definition statFailed (r : result Stats) : bool :=
  match r with
  | Returned st => negb (isFile st)
  | Threw _ => true
  end.

(** What follows a failed check of a path: the log line when [stat] threw,
    then the question again, unless the operator has stopped typing. *)
Definition reprompted (r : result Stats) (o : outcome unit)
  (after : list event) : Prop :=
  exists rest,
    after = match r with
            | Threw _ => EvLog msgFileDoesNotExist :: rest
            | Returned _ => rest
            end /\
    ((rest = [] /\ o = Waiting) \/
     exists raw more, rest = EvInput "pathToP12" raw :: more).

Definition notStat (e : event) : bool :=
  match e with EvStat _ _ => false | _ => true end.

(** Every [stat] in a stretch of trace checks the path made from the line
    typed just before it, and a check that fails is followed by the
    question again. *)
Definition pathChecks (host : Host) (o : outcome unit) (X : list event)
  : Prop :=
  forall t1 p r t2,
    X = t1 ++ EvStat p r :: t2 ->
    (exists t0 raw,
        t1 = t0 ++ [EvInput "pathToP12" raw] /\ p = p12PathFilter host raw) /\
    (statFailed r = true -> reprompted r o t2).

(** A stretch of trace starts with the path question, or is where the
    operator stopped typing. *)
Definition pathAsked (o : outcome unit) (X : list event) : Prop :=
  (X = [] /\ o = Waiting) \/
  exists raw more, X = EvInput "pathToP12" raw :: more.

(* ================================================================== *)
(** ** Sample hosts, worlds and operators *)

Definition sampleHost : Host :=
  {| untildify := fun p =>
       match p with
       | String "~" (String "/" rest) => ("/home/dev/" ++ rest)%string
       | _ => p
       end;
     path_isAbsolute := fun p =>
       match p with String "/" _ => true | _ => false end;
     path_resolve := fun p => ("/work/" ++ p)%string;
     toBase64 := fun _ => "UDEyIGRhdGE=";
     commandErrorIsXDL := false |}.

Definition sampleBuilder (clear : bool) : Builder :=
  {| projectDir := "."; options := {| clearCredentials := clear |} |}.

Definition sampleMetadata : CredentialMetadata :=
  {| username := "dev"; experienceName := "@dev/app";
     bundleIdentifier := "com.example.app"; platform := "ios" |}.

(** A world in which everything succeeds, except what the arguments say:
    the bundle identifier of the project, the stored bundle, the answer of
    validation per kind and new data, and the answers of the two
    certificate fetches.  Only /work/dist.p12 is a file; /work is a
    directory; nothing else exists. *)
Definition sampleWorld (bundleId : option string)
  (stored : option IOSCredentials)
  (validation : string -> option IOSCredentials -> result bool)
  (certs : result unit) (pushCerts : result bool) : World :=
  {| Exp_getPublishInfoAsync := fun _ _ =>
       Returned {| args_username := "dev";
                   args_remoteFullPackageName := "@dev/app";
                   args_bundleIdentifierIOS := bundleId |};
     Credentials_credentialsExistForPlatformAsync := fun _ _ => Returned stored;
     Credentials_validateCredentialsForPlatform := fun _ _ kind c _ =>
       validation kind c;
     Credentials_updateCredentialsForPlatform := fun _ _ _ _ => Returned tt;
     Credentials_fetchAppleCertificates := fun _ _ => certs;
     Credentials_fetchPushCertificates := fun _ _ => pushCerts;
     Credentials_ensureAppId := fun _ _ => Returned tt;
     fs_stat := fun _ p =>
       if String.eqb p "/work/dist.p12" then Returned {| isFile := true |}
       else if String.eqb p "/work" then Returned {| isFile := false |}
       else Threw (Unclassified "ENOENT");
     fs_readFile := fun _ _ => Returned [];
     BaseBuilder_checkPackagerStatus := fun _ => Returned tt;
     BaseBuilder_checkStatus := fun _ => Returned tt;
     BaseBuilder_publish := fun _ => Returned ["exp-1"%string];
     BaseBuilder_build := fun _ _ _ => Returned tt |}.

Definition allValid : string -> option IOSCredentials -> result bool :=
  fun _ _ => Returned true.

(** Validation that turns down an Apple ID, typed or stored. *)
Definition appleIdRefused : string -> option IOSCredentials -> result bool :=
  fun kind _ =>
    if String.eqb kind "appleId"
    then Threw (XDLError CREDENTIAL_ERROR "Invalid Apple ID")
    else Returned true.

Definition storedBundle : IOSCredentials :=
  {| appleId := Some "dev@example.com"; password := Some "hunter2";
     teamId := Some "TEAM123456";
     certP12 := Some "Y2VydA=="; certPassword := Some "c";
     pushP12 := Some "cHVzaA=="; pushPassword := Some "p" |}.

(** A bundle that knows the Apple ID only. *)
Definition appleIdOnlyBundle : IOSCredentials :=
  {| appleId := Some "dev@example.com"; password := Some "hunter2";
     teamId := Some "TEAM123456";
     certP12 := None; certPassword := Some "left over";
     pushP12 := None; pushPassword := None |}.

(** The operator types an Apple ID, uploads a certificate after two bad
    paths, and lets the service make the push certificate. *)
Definition sampleOperator : script :=
  ["dev@example.com"; "hunter2"; "TEAM123456";
   "2"; "missing.p12"; "/work"; "dist.p12"; "secret";
   "1"]%string.

Definition sampleArgs : PublishArgs :=
  {| args_username := "dev"; args_remoteFullPackageName := "@dev/app";
     args_bundleIdentifierIOS := Some "com.example.app" |}.

(** Nothing is stored and everything the operator supplies is accepted. *)
Definition freshWorld : World :=
  sampleWorld (Some "com.example.app") None allValid
    (Returned tt) (Returned true).

Definition freshRun : outcome unit * list event * script :=
  collectAndValidateCredentials freshWorld sampleHost (sampleBuilder false)
    [] sampleOperator.

(** Nothing is stored and the service turns the typed Apple ID down. *)
Definition refusedWorld : World :=
  sampleWorld (Some "com.example.app") None appleIdRefused
    (Returned tt) (Returned true).

Definition refusedRun : outcome unit * list event * script :=
  collectAndValidateCredentials refusedWorld sampleHost (sampleBuilder false)
    [] sampleOperator.

(** The stored bundle knows the Apple ID only; the operator lets the
    service make both certificates. *)
Definition appleIdOnlyWorld : World :=
  sampleWorld (Some "com.example.app") (Some appleIdOnlyBundle) allValid
    (Returned tt) (Returned true).

Definition appleIdOnlyRun : outcome unit * list event * script :=
  collectAndValidateCredentials appleIdOnlyWorld sampleHost
    (sampleBuilder false) [] ["1"; "1"]%string.

(** Everything is stored and the service turns the stored Apple ID
    down. *)
Definition staleWorld : World :=
  sampleWorld (Some "com.example.app") (Some storedBundle) appleIdRefused
    (Returned tt) (Returned true).

(** The service makes a push certificate and reports it as not valid. *)
Definition invalidPushWorld : World :=
  sampleWorld (Some "com.example.app") None allValid
    (Returned tt) (Returned false).

(** The network is down when the service is asked for a certificate. *)
Definition offlineWorld : World :=
  sampleWorld (Some "com.example.app") None allValid
    (Threw (Unclassified "ECONNRESET")) (Returned true).

(** The project has no bundle identifier. *)
Definition unconfiguredWorld : World :=
  sampleWorld None (Some storedBundle) allValid (Returned tt) (Returned true).

(** The certificate flow alone, with three bad paths before the good
    one. *)
Definition uploadRun : outcome unit * list event * script :=
  askForCerts freshWorld sampleHost sampleMetadata []
    ["2"; "missing.p12"; "/work"; "~/dist.p12"; "dist.p12"; "secret"]%string.

Definition freshFullRun : outcome unit * list event * script :=
  run freshWorld sampleHost (sampleBuilder false) [] sampleOperator.

(* ================================================================== *)
(** ** Further vocabulary *)

(** The lines the operator typed, in the order of the trace. *)
Definition typed (d : list event) : list string :=
  flat_map (fun e => match e with EvInput _ line => [line] | _ => [] end) d.

(** A computation reads the operator's lines in order, each once, and is
    suspended only when none is left. *)
Definition orderly {A} (m : M A) : Prop :=
  forall h s o d s',
    m h s = (o, d, s') ->
    typed d ++ s' = s /\ (o = Waiting -> s' = []).

(** A callback of a question reads no line and does not suspend. *)
Definition inputFree {A} (v : Eff unit A) : Prop :=
  forall h u o d u',
    v h u = (o, d, u') -> typed d = [] /\ o <> Waiting.

(** An event that shows nothing to the operator, reads nothing from the
    operator and touches no file. *)
Definition silent (e : event) : bool :=
  match e with
  | EvLog _ | EvPrompt _ | EvInput _ _ | EvStat _ _ | EvReadFile _ _ => false
  | _ => true
  end.

(** The metadata a call of the credential store is made for. *)
Definition metadataIn (e : event) : option CredentialMetadata :=
  match e with
  | EvCredentialsExist m _ => Some m
  | EvValidate _ _ _ m _ => Some m
  | EvUpdate _ _ m _ => Some m
  | EvFetchAppleCertificates m _ => Some m
  | EvFetchPushCertificates m _ => Some m
  | EvEnsureAppId m _ => Some m
  | _ => None
  end.

(** The platform argument of a call that has one. *)
Definition platformIn (e : event) : option string :=
  match e with
  | EvValidate plat _ _ _ _ => Some plat
  | EvUpdate plat _ _ _ => Some plat
  | _ => None
  end.

(** The credentials a call sends to the service. *)
Definition credentialsIn (e : event) : option IOSCredentials :=
  match e with
  | EvValidate _ _ (Some c) _ _ => Some c
  | EvUpdate _ c _ _ => Some c
  | _ => None
  end.

(** A call is made for the metadata [m] and the platform ios. *)
Definition addressedTo (m : CredentialMetadata) (e : event) : Prop :=
  (forall m', metadataIn e = Some m' -> m' = m) /\
  (forall plat, platformIn e = Some plat -> plat = "ios"%string).

(** Credentials that hold the fields of one kind and no field of another. *)
Definition onlyKind (k : Kind) (c : IOSCredentials) : bool :=
  match k with
  | AppleId =>
      isSome (appleId c) && isSome (password c) && isSome (teamId c) &&
      negb (isSome (certP12 c)) && negb (isSome (certPassword c)) &&
      negb (isSome (pushP12 c)) && negb (isSome (pushPassword c))
  | Cert =>
      isSome (certP12 c) && isSome (certPassword c) &&
      negb (isSome (appleId c)) && negb (isSome (password c)) &&
      negb (isSome (teamId c)) &&
      negb (isSome (pushP12 c)) && negb (isSome (pushPassword c))
  | PushCert =>
      isSome (pushP12 c) && isSome (pushPassword c) &&
      negb (isSome (appleId c)) && negb (isSome (password c)) &&
      negb (isSome (teamId c)) &&
      negb (isSome (certP12 c)) && negb (isSome (certPassword c))
  end.

(** The credentials of a call are of one kind only. *)
Definition sendsOneKind (e : event) : Prop :=
  forall c, credentialsIn e = Some c -> exists k, onlyKind k c = true.

Definition isValidateOf (k : Kind) (e : event) : bool :=
  match e with
  | EvValidate _ kind _ _ _ => String.eqb kind (kindName k)
  | _ => false
  end.

Definition isUpdateOf (k : Kind) (e : event) : bool :=
  match e with
  | EvUpdate _ c _ _ => isSome (kindField k c)
  | _ => false
  end.

Definition isPromptOf (k : Kind) (e : event) : bool :=
  match e with
  | EvPrompt (q :: _) =>
      String.eqb q (match kindQuestions k with q' :: _ => q' | [] => q end)
  | _ => false
  end.

(** How many calls of a kind the step of another kind may make. *)
Definition share (k k' : Kind) : nat :=
  match k, k' with
  | AppleId, AppleId | Cert, Cert | PushCert, PushCert => 1
  | _, _ => 0
  end.

Definition isUpdate (e : event) : bool :=
  match e with EvUpdate _ _ _ _ => true | _ => false end.

Definition isCheck (e : event) : bool :=
  match e with
  | EvCheckPackagerStatus _ | EvCheckStatus _ => true
  | _ => false
  end.

(** The event that completes the push-certificate step. *)
Definition pushStepDone (e : event) : bool :=
  match e with
  | EvValidate _ kind None _ (Returned _) => String.eqb kind "push"
  | EvFetchPushCertificates _ (Returned v) => v
  | EvUpdate _ c _ (Returned _) => isSome (pushP12 c)
  | _ => false
  end.

(** An event of the file system. *)
Definition touchesFile (e : event) : bool :=
  match e with EvStat _ _ | EvReadFile _ _ => true | _ => false end.

(* ================================================================== *)
(** ** The status command

    [src/commands/status.js].  Its collaborators are Node's module
    resolution and [child_process.spawn], the project's [config] and [log]
    modules; [path.resolve] is a function of the host. *)

Module Status.

Inductive event : Type :=
| EvRequireResolve (request : string) (r : result string)
| EvSpawn (command : string) (args : list string) (stdio : string)
          (r : result unit)
| EvProjectStatus (projectDir : string) (r : result (option string))
| EvLog (line : string) (r : result unit).

Record World : Type := mkWorld {
  require_resolve : list event -> string -> result string;
  child_process_spawn :
    list event -> string -> list string -> string -> result unit;
  config_projectStatusAsync : list event -> string -> result (option string);
  log : list event -> string -> result unit
}.

Record Options : Type := mkOptions { all : bool }.

Definition M (A : Type) : Type := list event -> outcome A * list event.

Definition ret {A} (a : A) : M A := fun _ => (Ok a, []).

Definition bind {A B} (m : M A) (k : A -> M B) : M B :=
  fun h =>
    match m h with
    | (Ok a, d1) =>
        match k a (h ++ d1) with
        | (o, d2) => (o, d1 ++ d2)
        end
    | (Throw e, d1) => (Throw e, d1)
    | (Waiting, d1) => (Waiting, d1)
    end.

Definition call {A} (f : list event -> result A) (ev : result A -> event)
  : M A :=
  fun h => let r := f h in (outcomeOf r, [ev r]).

Definition action (w : World) (path_resolve : list string -> string)
  (projectDir : string) (options : Options) : M unit :=
  if all options
  then
    bind (call (fun h => require_resolve w h "pm2") (EvRequireResolve "pm2"))
      (fun resolved =>
         let pm2 := path_resolve [resolved; ".."; "bin"; "pm2"]%string in
         call (fun h => child_process_spawn w h pm2 ["list"%string] "inherit")
              (EvSpawn pm2 ["list"%string] "inherit"))
  else
    bind (call (fun h => config_projectStatusAsync w h projectDir)
            (EvProjectStatus projectDir))
      (fun status =>
         if truthy status
         then call (fun h => log w h (stringOf status))
                   (EvLog (stringOf status))
         else ret tt).

Definition isSpawn (e : event) : bool :=
  match e with EvSpawn _ _ _ _ => true | _ => false end.

Definition readsProject (e : event) : bool :=
  match e with EvProjectStatus _ _ | EvLog _ _ => true | _ => false end.

(** A world with pm2 installed and a project whose status is [status]. *)
Definition sampleWorld (status : option string) : World :=
  {| require_resolve := fun _ _ =>
       Returned "/usr/lib/node_modules/pm2/index.js"%string;
     child_process_spawn := fun _ _ _ _ => Returned tt;
     config_projectStatusAsync := fun _ _ => Returned status;
     log := fun _ _ => Returned tt |}.

Definition joinPath (parts : list string) : string :=
  String.concat "/" parts.

(** The command without --all on a project that is running. *)
Definition sampleRun : outcome unit * list event :=
  action (sampleWorld (Some "running"%string)) joinPath "." (mkOptions false)
    [].

End Status.


(* ================================================================== *)
(** ** Further sample worlds and runs *)

(** Validation that turns down a certificate, typed or stored. *)
Definition certRefused : string -> option IOSCredentials -> result bool :=
  fun kind _ =>
    if String.eqb kind "cert"
    then Threw (XDLError CREDENTIAL_ERROR "Certificate not found")
    else Returned true.

(** Validation that turns down a push certificate, typed or stored. *)
Definition pushRefused : string -> option IOSCredentials -> result bool :=
  fun kind _ =>
    if String.eqb kind "push"
    then Threw (Unclassified "ETIMEDOUT")
    else Returned true.

(** Nothing is stored and the service does not know the certificate the
    operator uploads. *)
Definition certRefusedWorld : World :=
  sampleWorld (Some "com.example.app") None certRefused
    (Returned tt) (Returned true).

(** Nothing is stored and the validation of the uploaded push certificate
    times out. *)
Definition pushRefusedWorld : World :=
  sampleWorld (Some "com.example.app") None pushRefused
    (Returned tt) (Returned true).

(** Everything is stored and the service turns the stored push
    certificate down. *)
Definition stalePushWorld : World :=
  sampleWorld (Some "com.example.app") (Some storedBundle) pushRefused
    (Returned tt) (Returned true).

(** The network is down when the service is asked for a push
    certificate. *)
Definition pushOfflineWorld : World :=
  sampleWorld (Some "com.example.app") None allValid
    (Returned tt) (Threw (Unclassified "ECONNRESET")).

(** Everything is stored and valid. *)
Definition storedWorld : World :=
  sampleWorld (Some "com.example.app") (Some storedBundle) allValid
    (Returned tt) (Returned true).

Definition typedAppleId : script :=
  ["dev@example.com"; "hunter2"; "TEAM123456"]%string.

(** The operator uploads a file after one bad path. *)
Definition uploadLines : script :=
  ["2"; "missing.p12"; "dist.p12"; "secret"]%string.

Definition refusedAppleIdRun : outcome unit * list event * script :=
  askForAppleId refusedWorld sampleHost sampleMetadata [] typedAppleId.

Definition freshAppleIdRun : outcome unit * list event * script :=
  askForAppleId freshWorld sampleHost sampleMetadata [] typedAppleId.

Definition certRefusedRun : outcome unit * list event * script :=
  askForCerts certRefusedWorld sampleHost sampleMetadata [] uploadLines.

Definition generatedCertRun : outcome unit * list event * script :=
  askForCerts freshWorld sampleHost sampleMetadata [] ["1"%string].

Definition pushRefusedRun : outcome unit * list event * script :=
  askForPushCerts pushRefusedWorld sampleHost sampleMetadata [] uploadLines.

Definition pushOfflineRun : outcome unit * list event * script :=
  askForPushCerts pushOfflineWorld sampleHost sampleMetadata [] ["1"%string].

Definition generatedPushRun : outcome unit * list event * script :=
  askForPushCerts freshWorld sampleHost sampleMetadata [] ["1"%string].

Definition pushUploadRun : outcome unit * list event * script :=
  askForPushCerts freshWorld sampleHost sampleMetadata [] uploadLines.

Definition stalePushRun : outcome unit * list event * script :=
  collectAndValidateCredentials stalePushWorld sampleHost
    (sampleBuilder false) [] sampleOperator.

Definition storedRun : outcome unit * list event * script :=
  collectAndValidateCredentials storedWorld sampleHost
    (sampleBuilder false) [] sampleOperator.





(** A bundle that knows the Apple ID and nothing that goes with it. *)
Definition bareAppleIdBundle : IOSCredentials :=
  {| appleId := Some "someone@example.com"; password := None;
     teamId := None;
     certP12 := None; certPassword := None;
     pushP12 := None; pushPassword := Some "stale" |}.

Definition bareAppleIdWorld : World :=
  sampleWorld (Some "com.example.app") (Some bareAppleIdBundle) allValid
    (Returned tt) (Returned true).

(** The operator uploads the certificate and lets the service make the
    push certificate. *)
Definition bareAppleIdRun : outcome unit * list event * script :=
  collectAndValidateCredentials bareAppleIdWorld sampleHost
    (sampleBuilder false) [] ["2"; "dist.p12"; "secret"; "1"]%string.

(* ================================================================== *)
(** ** The prompt library's loops *)

Section PromptLemmas.

Variable w : World.
Variable host : Host.

Lemma ask_rawlist q h s o d s' :
  qtype_of q = QRawlist ->
  ask q h s = (o, d, s') ->
  (o = Waiting /\ forallb isInput d = true) \/
  (exists b seg l,
      o = Ok (VBool b) /\ d = seg ++ [EvInput (name q) l] /\
      forallb isInput seg = true).
Proof.
  intros Hq. revert h o d s'.
  induction s as [|line s IH]; intros h o d s' H; simpl in H.
  - inversion H; subst. left; auto.
  - rewrite Hq in H.
    destruct (choose (choices q) line) as [b|].
    + inversion H; subst. right. exists b, [], line. auto.
    + destruct (ask q (h ++ [EvInput (name q) line]) s) as [[o1 d1] s1] eqn:E.
      inversion H; subst.
      destruct (IH _ _ _ _ E) as [[-> Hd]|(b & seg & l & -> & -> & Hs)].
      * left. simpl. auto.
      * right. exists b, (EvInput (name q) line :: seg), l. simpl. auto.
Qed.

Lemma ask_nonEmpty q h s o d s' :
  qtype_of q <> QRawlist ->
  validate q = nonEmpty ->
  filter q = noFilter ->
  ask q h s = (o, d, s') ->
  (o = Waiting /\ forallb isInput d = true) \/
  (exists v, o = Ok (VStr v) /\ v <> EmptyString /\ forallb isInput d = true).
Proof.
  intros Hq Hv Hf. revert h o d s'.
  induction s as [|line s IH]; intros h o d s' H; simpl in H.
  - inversion H; subst. left; auto.
  - rewrite Hv, Hf in H. unfold nonEmpty, noFilter, ret in H.
    destruct (String.eqb line EmptyString) eqn:El; simpl in H.
    + destruct (ask q (h ++ [EvInput (name q) line]) s) as [[o1 d1] s1] eqn:E.
      assert (H' : (o1, EvInput (name q) line :: d1, s1) = (o, d, s'))
        by (destruct (qtype_of q); [exact H | exact H | congruence]).
      inversion H'; subst.
      destruct (IH _ _ _ _ E) as [[-> Hd]|(v & -> & Hne & Hd)].
      * left; auto.
      * right. exists v. auto.
    + assert (H' : (Ok (VStr line), [EvInput (name q) line], s) = (o, d, s'))
        by (destruct (qtype_of q); [exact H | exact H | congruence]).
      inversion H'; subst. right. exists line. repeat split; auto.
      intros ->. discriminate.
Qed.

Lemma ask_free q h s :
  qtype_of q <> QRawlist ->
  validate q = noValidate ->
  filter q = noFilter ->
  ask q h s =
  match s with
  | [] => (Waiting, [], [])
  | line :: s' => (Ok (VStr line), [EvInput (name q) line], s')
  end.
Proof.
  intros Hq Hv Hf. destruct s as [|line s]; simpl; auto.
  rewrite Hv, Hf. unfold noValidate, noFilter, ret.
  destruct (qtype_of q); congruence.
Qed.

Lemma ask_path q h s o d s' :
  qtype_of q = QInput ->
  name q = "pathToP12"%string ->
  validate q = p12PathValidate w ->
  filter q = p12PathFilter host ->
  ask q h s = (o, d, s') ->
  (o = Waiting /\ rejectedPaths host d) \/
  (exists raw st rej,
      o = Ok (VStr (p12PathFilter host raw)) /\ isFile st = true /\
      d = rej ++ [EvInput "pathToP12" raw;
                  EvStat (p12PathFilter host raw) (Returned st)] /\
      rejectedPaths host rej).
Proof.
  intros Hq Hn Hv Hf. revert h o d s'.
  induction s as [|line s IH]; intros h o d s' H; simpl in H.
  - inversion H; subst. left; split; auto. constructor.
  - rewrite Hq, Hv, Hf, Hn in H.
    unfold p12PathValidate, tryCatch, bind, stat, call, console_log, emit, ret
      in H.
    destruct (fs_stat w (h ++ [EvInput "pathToP12" line])
                (p12PathFilter host line)) as [st|e] eqn:Es; simpl in H.
    + destruct (isFile st) eqn:Ef.
      * inversion H; subst. right. exists line, st, []. simpl.
        repeat split; auto. constructor.
      * match type of H with
        | context [ask q ?hh s] =>
            destruct (ask q hh s) as [[o1 d1] s1] eqn:E
        end.
        inversion H; subst.
        destruct (IH _ _ _ _ E) as [[-> Hd]|(raw & st' & rej & -> & Hst & -> & Hr)].
        -- left; split; auto. simpl. constructor; auto.
        -- right. exists raw, st',
             (EvInput "pathToP12" line
              :: EvStat (p12PathFilter host line) (Returned st) :: rej).
           simpl. repeat split; auto. constructor; auto.
    + match type of H with
      | context [ask q ?hh s] =>
          destruct (ask q hh s) as [[o1 d1] s1] eqn:E
      end.
      inversion H; subst.
      destruct (IH _ _ _ _ E) as [[-> Hd]|(raw & st' & rej & -> & Hst & -> & Hr)].
      * left; split; auto. simpl. constructor; auto.
      * right. exists raw, st',
          (EvInput "pathToP12" line
           :: EvStat (p12PathFilter host line) (Threw e)
           :: EvLog msgFileDoesNotExist :: rej).
        simpl. repeat split; auto. constructor; auto.
Qed.

End PromptLemmas.

Section PromptShapes.

Variable w : World.
Variable host : Host.

Lemma appleId_prompt_shape h s o d s' :
  inquirer_prompt (appleIdQuestions) h s = (o, d, s') ->
  appleIdPromptShape o d.
Proof.
  unfold inquirer_prompt, appleIdQuestions, bind, emit. simpl.
  unfold bind, always, ret. simpl.
  intros H.
  repeat match type of H with
  | context [ask ?q ?hh ?ss] =>
      let E := fresh "E" in
      destruct (ask q hh ss) as [[? ?] ?] eqn:E;
      apply ask_nonEmpty in E; [| discriminate | reflexivity | reflexivity];
      destruct E as [[-> ?]|(? & -> & ? & ?)];
      [ inversion H; subst; constructor;
        rewrite ?forallb_app; simpl; rewrite ?andb_true_iff; auto | ]
  end.
  inversion H; subst. rewrite app_nil_r.
  apply ap_answered; auto.
  rewrite ?forallb_app, ?andb_true_iff; auto.
Qed.

Lemma p12_prompt_shape (q1 q2 q3 : question) h s o d s' :
  qtype_of q1 = QRawlist -> when q1 = always ->
  qtype_of q2 = QInput -> name q2 = "pathToP12"%string ->
  validate q2 = p12PathValidate w -> filter q2 = p12PathFilter host ->
  when q2 = (fun a => negb (truthyValue (answer (name q1) a))) ->
  qtype_of q3 = QPassword ->
  validate q3 = noValidate -> filter q3 = noFilter ->
  when q3 = (fun a => negb (truthyValue (answer (name q1) a))) ->
  inquirer_prompt [q1; q2; q3] h s = (o, d, s') ->
  p12PromptShape host (name q1) (name q3) o d.
Proof.
  intros T1 W1 T2 N2 V2 F2 W2 T3 V3 F3 W3.
  unfold inquirer_prompt, bind, emit. simpl. rewrite N2, W1, W2, W3.
  unfold always, bind, ret. simpl. rewrite String.eqb_refl.
  intros H.
  destruct (ask q1 _ s) as [[o1 d1] s1] eqn:E1.
  apply ask_rawlist in E1; auto.
  destruct E1 as [[-> Hd]|(b & seg & l & -> & -> & Hs)].
  { inversion H; subst. constructor; auto. }
  simpl in H.
  destruct b; simpl in H.
  { inversion H; subst. rewrite app_nil_r. constructor; auto. }
  destruct (ask q2 _ s1) as [[o2 d2] s2] eqn:E2.
  apply (ask_path w host) in E2; auto.
  destruct E2 as [[-> Hd]|(raw & st & rej & -> & Hst & -> & Hr)].
  { inversion H; subst. rewrite <- app_assoc. simpl.
    apply pp_waitPath; auto. }
  rewrite ask_free in H; auto; [| congruence].
  destruct s2 as [|pw s2].
  { inversion H; subst. rewrite app_nil_r, <- app_assoc. simpl.
    apply pp_waitPassword; auto. }
  inversion H; subst.
  repeat (rewrite <- app_assoc; simpl).
  apply (pp_upload host (name q1) (name q3) seg l rej raw st pw); auto.
Qed.

Lemma cert_prompt_shape h s o d s' :
  inquirer_prompt (certQuestions w host) h s = (o, d, s') ->
  certPrompt host o d.
Proof.
  intros H. apply p12_prompt_shape in H; try reflexivity. exact H.
Qed.

Lemma push_prompt_shape h s o d s' :
  inquirer_prompt (pushCertQuestions w host) h s = (o, d, s') ->
  pushPrompt host o d.
Proof.
  intros H. apply p12_prompt_shape in H; try reflexivity. exact H.
Qed.

End PromptShapes.

(* ================================================================== *)
(** ** The code stays within the shapes *)

Section Soundness.

Variable w : World.
Variable host : Host.

Lemma appleId_answers o dp ans :
  appleIdPromptShape o dp -> o = Ok ans ->
  exists a p t, ans = appleIdAnswers a p t.
Proof. intros H E. destruct H; inversion E; eauto. Qed.

Lemma p12_answers mq pwq o dp ans :
  p12PromptShape host mq pwq o dp -> o = Ok ans ->
  ans = [(mq, VBool true)] \/
  exists p pw, ans = uploadAnswers mq pwq p pw.
Proof. intros H E. destruct H; inversion E; eauto. Qed.

Ltac tidy :=
  simpl; repeat (rewrite <- app_assoc; simpl); rewrite ?app_nil_r; simpl.

Lemma askForAppleId_shape m h s o d s' :
  askForAppleId w host m h s = (o, d, s') ->
  askForAppleIdShape host m o d.
Proof.
  unfold askForAppleId, bind, console_log, emit. simpl.
  destruct (inquirer_prompt _ _ s) as [[oa dp] s1] eqn:EP.
  apply appleId_prompt_shape in EP.
  destruct oa as [ans| |].
  - destruct (appleId_answers _ _ _ EP eq_refl) as (a & p & t & ->).
    unfold tryCatch, bind, validateCredentialsForPlatform,
      updateCredentialsForPlatform, call, throw, ret. simpl.
    match goal with
    | |- context [Credentials_validateCredentialsForPlatform w ?hh ?a1 ?a2 ?a3 ?a4] =>
        destruct (Credentials_validateCredentialsForPlatform w hh a1 a2 a3 a4)
          as [v|e] eqn:Ev
    end; simpl.
    + intros H; inversion H; subst. tidy.
      apply (aa_update host m dp a p t v); auto.
    + destruct (isXDLError host e) eqn:Ex; unfold throw; simpl;
        intros H; inversion H; subst; tidy;
        pose proof (aa_invalid host m dp a p t e EP) as R;
        rewrite Ex in R; exact R.
  - inversion EP.
  - intros H; inversion H; subst. constructor; auto.
Qed.

Lemma askForCerts_shape m h s o d s' :
  askForCerts w host m h s = (o, d, s') ->
  askForCertsShape host m o d.
Proof.
  unfold askForCerts, bind, console_log, emit. simpl.
  destruct (inquirer_prompt _ _ s) as [[oa dp] s1] eqn:EP.
  apply cert_prompt_shape in EP.
  destruct oa as [ans| |].
  - destruct (p12_answers _ _ _ _ _ EP eq_refl) as [->|(p & pw & ->)]; simpl.
    + unfold tryCatch, fetchAppleCertificates, call, throw. simpl.
      match goal with
      | |- context [Credentials_fetchAppleCertificates w ?hh ?a1] =>
          destruct (Credentials_fetchAppleCertificates w hh a1) as [u|e] eqn:Ev
      end; simpl.
      * intros H; inversion H; subst.
        apply (ac_fetch host m dp (Returned u)); auto.
      * destruct (isXDLError host e) eqn:Ex; unfold throw; simpl;
          intros H; inversion H; subst; tidy;
          pose proof (ac_fetch host m dp (Threw e) EP) as R;
          simpl in R; rewrite Ex in R; exact R.
    + unfold tryCatch, bind, readFile, validateCredentialsForPlatform,
        updateCredentialsForPlatform, call, throw, ret. simpl.
      match goal with
      | |- context [fs_readFile w ?hh ?a1] =>
          destruct (fs_readFile w hh a1) as [data|e] eqn:Er
      end; simpl.
      * match goal with
        | |- context [Credentials_validateCredentialsForPlatform w ?hh ?a1 ?a2 ?a3 ?a4] =>
            destruct (Credentials_validateCredentialsForPlatform w hh a1 a2 a3 a4)
              as [v|e] eqn:Ev
        end; simpl.
        -- match goal with
           | |- context [Credentials_updateCredentialsForPlatform w ?hh ?a1 ?a2 ?a3] =>
               destruct (Credentials_updateCredentialsForPlatform w hh a1 a2 a3)
                 as [u|e] eqn:Eu
           end; simpl.
           ++ intros H; inversion H; subst. tidy.
              apply (ac_update host m dp p pw data v (Returned u)); auto.
           ++ destruct (isXDLError host e) eqn:Ex; unfold throw; simpl;
                intros H; inversion H; subst; tidy;
                pose proof (ac_update host m dp p pw data v (Threw e) EP) as R;
                simpl in R; rewrite Ex in R; exact R.
        -- pose proof (ac_invalid host m dp p pw data e EP) as R.
           simpl in R.
           destruct (isXDLError host e) eqn:Ex; unfold throw; simpl; simpl in R.
           ++ destruct (commandErrorIsXDL host) eqn:Ec; unfold throw; simpl;
                intros H; inversion H; subst; tidy; exact R.
           ++ rewrite Ex in R. rewrite Ex. unfold throw; simpl.
              intros H; inversion H; subst; tidy; exact R.
      * destruct (isXDLError host e) eqn:Ex; unfold throw; simpl;
          intros H; inversion H; subst; tidy;
          pose proof (ac_unreadable host m dp p pw e EP) as R;
          simpl in R; rewrite Ex in R; exact R.
  - inversion EP.
  - intros H; inversion H; subst. constructor; auto.
Qed.

Lemma askForPushCerts_shape m h s o d s' :
  askForPushCerts w host m h s = (o, d, s') ->
  askForPushCertsShape host m o d.
Proof.
  unfold askForPushCerts, bind, console_log, emit. simpl.
  destruct (inquirer_prompt _ _ s) as [[oa dp] s1] eqn:EP.
  apply push_prompt_shape in EP.
  destruct oa as [ans| |].
  - destruct (p12_answers _ _ _ _ _ EP eq_refl) as [->|(p & pw & ->)]; simpl.
    + unfold tryCatch, fetchPushCertificates, call, throw, ret. simpl.
      match goal with
      | |- context [Credentials_fetchPushCertificates w ?hh ?a1] =>
          destruct (Credentials_fetchPushCertificates w hh a1) as [v|e] eqn:Ev
      end; simpl.
      * pose proof (ah_fetch host m dp (Returned v) EP) as R.
        destruct v; simpl in *; intros H; inversion H; subst; tidy; exact R.
      * pose proof (ah_fetch host m dp (Threw e) EP) as R. simpl in R.
        destruct (isXDLError host e) eqn:Ex; simpl;
          intros H; inversion H; subst; tidy; exact R.
    + unfold tryCatch, bind, readFile, validateCredentialsForPlatform,
        updateCredentialsForPlatform, call, throw, ret. simpl.
      match goal with
      | |- context [fs_readFile w ?hh ?a1] =>
          destruct (fs_readFile w hh a1) as [data|e] eqn:Er
      end; simpl.
      * match goal with
        | |- context [Credentials_validateCredentialsForPlatform w ?hh ?a1 ?a2 ?a3 ?a4] =>
            destruct (Credentials_validateCredentialsForPlatform w hh a1 a2 a3 a4)
              as [v|e] eqn:Ev
        end; simpl.
        -- match goal with
           | |- context [Credentials_updateCredentialsForPlatform w ?hh ?a1 ?a2 ?a3] =>
               destruct (Credentials_updateCredentialsForPlatform w hh a1 a2 a3)
                 as [u|e] eqn:Eu
           end; simpl.
           ++ pose proof (ah_update host m dp p pw data v (Returned u) EP) as R.
              destruct v; simpl in *; intros H; inversion H; subst; tidy;
                exact R.
           ++ pose proof (ah_update host m dp p pw data v (Threw e) EP) as R.
              simpl in R.
              destruct (isXDLError host e) eqn:Ex; simpl;
                intros H; inversion H; subst; tidy; exact R.
        -- pose proof (ah_invalid host m dp p pw data e EP) as R.
           intros H; inversion H; subst; tidy; exact R.
      * pose proof (ah_unreadable host m dp p pw e EP) as R. simpl in R.
        destruct (isXDLError host e) eqn:Ex; simpl;
          intros H; inversion H; subst; tidy; exact R.
  - inversion EP.
  - intros H; inversion H; subst. constructor; auto.
Qed.

Lemma revalidate_shape kind message m h (s : script) o d s' :
  tryCatch
    (validateCredentialsForPlatform w "ios" kind None m ;;; ret tt)
    (fun _ => throw (XDLError CREDENTIAL_ERROR message)) h s = (o, d, s') ->
  revalidateShape kind message m o d.
Proof.
  unfold tryCatch, bind, validateCredentialsForPlatform, call, throw, ret.
  simpl.
  destruct (Credentials_validateCredentialsForPlatform w h "ios" kind None m)
    as [v|e]; simpl; intros H; inversion H; subst; constructor.
Qed.

Lemma ensureAppId_shape m h (s : script) o d s' :
  tryCatch
    (ensureAppId w m)
    (fun _ => throw (XDLError CREDENTIAL_ERROR (msgAppId (bundleIdentifier m))))
    h s = (o, d, s') ->
  ensureAppIdShape m o d.
Proof.
  unfold tryCatch, ensureAppId, call, throw. simpl.
  destruct (Credentials_ensureAppId w h m) as [[]|e]; simpl;
    intros H; inversion H; subst; constructor.
Qed.

Lemma andThen_sound (m1 m2 : M unit)
  (P Q : outcome unit -> list event -> Prop) :
  (forall h s o d s', m1 h s = (o, d, s') -> P o d) ->
  (forall h s o d s', m2 h s = (o, d, s') -> Q o d) ->
  forall h s o d s', (m1 ;;; m2) h s = (o, d, s') -> andThen P Q o d.
Proof.
  intros H1 H2 h s o d s'. unfold bind.
  destruct (m1 h s) as [[o1 d1] s1] eqn:E1. apply H1 in E1.
  destruct o1 as [[]|e|].
  - destruct (m2 (h ++ d1) s1) as [[o2 d2] s2] eqn:E2. apply H2 in E2.
    intros H; inversion H; subst. constructor; auto.
  - intros H; inversion H; subst. constructor; auto.
  - intros H; inversion H; subst. constructor; auto.
Qed.

Theorem collectAndValidateCredentials_shape this h s o d s' :
  collectAndValidateCredentials w host this h s = (o, d, s') ->
  workflowShape host this o d.
Proof.
  unfold collectAndValidateCredentials.
  unfold bind at 1. unfold getPublishInfoAsync at 1. unfold call at 1.
  destruct (Exp_getPublishInfoAsync w h (projectDir this)) as [args|e];
    simpl; [| intros H; inversion H; subst; constructor].
  destruct (truthy (args_bundleIdentifierIOS args)) eqn:Eb; simpl.
  2:{ unfold throw. intros H; inversion H; subst. simpl.
      constructor; auto. }
  unfold bind at 1. unfold credentialsExistForPlatformAsync at 1.
  unfold call at 1. fold (metadataOf args).
  destruct (Credentials_credentialsExistForPlatformAsync w _ (metadataOf args))
    as [existing|e]; simpl;
    [| intros H; inversion H; subst; constructor; auto].
  match goal with
  | |- context [?m ?hh s] =>
      match m with
      | bind _ _ => destruct (m hh s) as [[o1 d1] s1] eqn:E
      end
  end.
  intros H; inversion H; subst. simpl.
  apply ws_steps; auto. simpl.
  revert E. apply andThen_sound.
  { unfold appleIdStep. intros h1 s2 o2 d2 s2'.
    destruct (hasAppleId _); simpl.
    - apply revalidate_shape.
    - apply askForAppleId_shape. }
  apply andThen_sound.
  { unfold certStep. intros h1 s2 o2 d2 s2'.
    destruct (hasCert _); simpl.
    - apply revalidate_shape.
    - apply askForCerts_shape. }
  apply andThen_sound.
  { intros h1 s2 o2 d2 s2'. apply ensureAppId_shape. }
  unfold pushStep. intros h1 s2 o2 d2 s2'.
  destruct (hasPushCert _); simpl.
  - apply revalidate_shape.
  - apply askForPushCerts_shape.
Qed.

End Soundness.

(* ================================================================== *)
(** ** Reading traces *)

Lemma split_past (P : event -> bool) seg L t1 e t2 :
  forallb P seg = true -> P e = false ->
  seg ++ L = t1 ++ e :: t2 ->
  exists t1', t1 = seg ++ t1' /\ L = t1' ++ e :: t2.
Proof.
  revert t1. induction seg as [|x seg IH]; intros t1 Hs He H; simpl in *.
  - exists t1; auto.
  - apply andb_true_iff in Hs. destruct Hs as [Hx Hs].
    destruct t1 as [|y t1]; simpl in H; inversion H; subst.
    + congruence.
    + destruct (IH t1 Hs He H2) as (t1' & -> & HL). exists t1'; auto.
Qed.

Lemma cons_split (x : event) L t1 e t2 :
  x :: L = t1 ++ e :: t2 ->
  (t1 = [] /\ x = e /\ L = t2) \/
  (exists t1', t1 = x :: t1' /\ L = t1' ++ e :: t2).
Proof.
  destruct t1 as [|y t1]; simpl; intros H; inversion H; subst; eauto.
Qed.

Lemma split_end (P : event -> bool) seg t1 e t2 :
  forallb P seg = true -> P e = false -> seg = t1 ++ e :: t2 -> False.
Proof.
  intros Hs He ->. rewrite forallb_app in Hs. simpl in Hs.
  rewrite He in Hs. simpl in Hs. rewrite andb_false_r in Hs. discriminate.
Qed.

Lemma forallb_weaken (P Q : event -> bool) seg :
  (forall e, P e = true -> Q e = true) ->
  forallb P seg = true -> forallb Q seg = true.
Proof.
  intros HPQ. induction seg as [|x seg IH]; simpl; auto.
  rewrite !andb_true_iff. intros [Hx Hs]. auto.
Qed.

Lemma inputs_quiet seg : forallb isInput seg = true -> forallb quiet seg = true.
Proof.
  apply forallb_weaken. intros []; simpl; congruence.
Qed.

Lemma rejected_quiet host rej :
  rejectedPaths host rej -> forallb quiet rej = true.
Proof. induction 1; simpl; auto. Qed.

Lemma appleId_prompt_coarse o dp :
  appleIdPromptShape o dp ->
  exists seg, dp = EvPrompt ["appleId"; "password"; "teamId"]%string :: seg /\
              forallb quiet seg = true.
Proof.
  destruct 1; eexists; split; try reflexivity; auto using inputs_quiet.
Qed.

Lemma p12_prompt_coarse host mq pwq o dp :
  p12PromptShape host mq pwq o dp ->
  exists seg, dp = EvPrompt [mq; "pathToP12"%string; pwq] :: seg /\
              forallb quiet seg = true.
Proof.
  destruct 1; eexists; split; try reflexivity;
    repeat (rewrite ?forallb_app; simpl);
    rewrite ?andb_true_r;
    repeat (apply andb_true_iff; split);
    try (apply inputs_quiet; assumption);
    try (eapply rejected_quiet; eassumption).
Qed.

Ltac coarse_prompts :=
  repeat match goal with
  | H : appleIdPromptShape _ _ |- _ =>
      apply appleId_prompt_coarse in H;
      let seg := fresh "seg" in let Hq := fresh "Hq" in
      destruct H as (seg & -> & Hq)
  | H : certPrompt _ _ _ |- _ =>
      apply p12_prompt_coarse in H;
      let seg := fresh "seg" in let Hq := fresh "Hq" in
      destruct H as (seg & -> & Hq)
  | H : pushPrompt _ _ _ |- _ =>
      apply p12_prompt_coarse in H;
      let seg := fresh "seg" in let Hq := fresh "Hq" in
      destruct H as (seg & -> & Hq)
  end.

(** Settle how the calls of an unfolded step ended. *)
Ltac settle :=
  repeat match goal with
  | H : context [outcomeOf ?r] |- _ =>
      is_var r; destruct r; simpl in H; try discriminate H
  | H : context [match ?r with Returned _ => _ | Threw _ => _ end] |- _ =>
      is_var r; destruct r; simpl in H; try discriminate H
  | H : context [pushEnd _ (Ok ?v)] |- _ =>
      is_var v; destruct v; simpl in H; try discriminate H
  | H : Ok _ = Ok _ |- _ => clear H
  | H : Throw _ = Throw _ |- _ => inversion H; subst; clear H
  | H : Waiting = Waiting |- _ => clear H
  | H : rewrap _ _ (Throw _) = _ |- _ => simpl in H
  | H : _ = rewrap _ _ (Throw _) |- _ => simpl in H
  | H : pushEnd _ (Throw _) = _ |- _ => simpl in H
  | H : _ = pushEnd _ (Throw _) |- _ => simpl in H
  | u : unit |- _ => destruct u
  end.

(** Unfold one step into its paths. *)
Ltac open_step H :=
  lazymatch type of H with
  | appleIdStep _ ?has _ _ _ =>
      unfold appleIdStep in H; destruct (hasAppleId has) eqn:?;
      inversion H; subst; clear H; coarse_prompts; settle
  | certStep _ ?has _ _ _ =>
      unfold certStep in H; destruct (hasCert has) eqn:?;
      inversion H; subst; clear H; coarse_prompts; settle
  | pushStep _ ?has _ _ _ =>
      unfold pushStep in H; destruct (hasPushCert has) eqn:?;
      inversion H; subst; clear H; coarse_prompts; settle
  | _ => inversion H; subst; clear H; coarse_prompts; settle
  end.

(** Unfold the workflow into its steps, each left folded. *)
Ltac open_workflow :=
  repeat match goal with
  | H : workflowShape _ _ _ _ |- _ => inversion H; subst; clear H
  | H : let _ := _ in _ |- _ => cbv zeta in H
  | H : andThen _ _ _ _ |- _ => inversion H; subst; clear H
  end.

Ltac class_solve :=
  simpl; repeat (rewrite ?forallb_app; simpl); rewrite ?andb_true_r;
  repeat (apply andb_true_iff; split);
  try reflexivity;
  try (eapply forallb_weaken; [| eassumption];
       let e := fresh "e" in
       intros e; destruct e; unfold mayAppleId, mayCert, mayPush; simpl;
       congruence).

Section Classes.

Variable host : Host.

Lemma appleIdStep_may has m o d :
  appleIdStep host has m o d -> forallb mayAppleId d = true.
Proof. intros H. open_step H; class_solve. Qed.

Lemma certStep_may has m o d :
  certStep host has m o d -> forallb mayCert d = true.
Proof. intros H. open_step H; class_solve. Qed.

Lemma pushStep_may has m o d :
  pushStep host has m o d -> forallb mayPush d = true.
Proof. intros H. open_step H; class_solve. Qed.

Lemma ensureAppId_may m o d :
  ensureAppIdShape m o d -> forallb isEnsureAppId d = true.
Proof. intros H. open_step H; class_solve. Qed.

End Classes.

(** Note down, for every folded step, what it can emit. *)
Ltac note_classes :=
  repeat match goal with
  | H : appleIdStep _ _ _ _ ?d |- _ =>
      lazymatch goal with
      | _ : forallb mayAppleId d = true |- _ => fail
      | _ => pose proof (appleIdStep_may _ _ _ _ _ H)
      end
  | H : certStep _ _ _ _ ?d |- _ =>
      lazymatch goal with
      | _ : forallb mayCert d = true |- _ => fail
      | _ => pose proof (certStep_may _ _ _ _ _ H)
      end
  | H : pushStep _ _ _ _ ?d |- _ =>
      lazymatch goal with
      | _ : forallb mayPush d = true |- _ => fail
      | _ => pose proof (pushStep_may _ _ _ _ _ H)
      end
  | H : ensureAppIdShape _ _ ?d |- _ =>
      lazymatch goal with
      | _ : forallb isEnsureAppId d = true |- _ => fail
      | _ => pose proof (ensureAppId_may _ _ _ H)
      end
  end.

Ltac flatten_in H := simpl in H; repeat (rewrite <- app_assoc in H; simpl in H).

Ltac open_step_of seg :=
  match goal with
  | Hs : appleIdStep _ _ _ _ seg |- _ => open_step Hs
  | Hs : certStep _ _ _ _ seg |- _ => open_step Hs
  | Hs : pushStep _ _ _ _ seg |- _ => open_step Hs
  | Hs : ensureAppIdShape _ _ seg |- _ => open_step Hs
  | Hs : askForAppleIdShape _ _ _ seg |- _ => open_step Hs
  | Hs : askForCertsShape _ _ _ seg |- _ => open_step Hs
  | Hs : askForPushCertsShape _ _ _ seg |- _ => open_step Hs
  end.

Ltac reflatten :=
  match goal with
  | H : _ = _ ++ _ :: _ |- _ => flatten_in H
  end.

(** Find where an event sits in a trace.  A step that cannot have emitted
    it is passed over; one that can is unfolded. *)
Ltac locate :=
  lazymatch goal with
  | H : [] = ?t1 ++ _ :: _ |- _ => destruct t1; discriminate H
  | H : ?x :: ?L = ?t1 ++ ?e :: ?t2 |- _ =>
      let t1' := fresh "t" in
      let He := fresh "He" in
      apply cons_split in H;
      destruct H as [(-> & He & <-) | (t1' & -> & H)];
      [ first [ discriminate He | inversion He; subst; clear He ]
      | locate ]
  | H : ?seg ++ ?L = ?t1 ++ ?e :: ?t2 |- _ =>
      first
        [ match goal with
          | Hm : forallb ?P seg = true |- _ =>
              let t1' := fresh "t" in
              apply (split_past P) in H; [| exact Hm | reflexivity];
              destruct H as (t1' & -> & H)
          end; locate
        | open_step_of seg; reflatten; locate ]
  | H : ?seg = ?t1 ++ ?e :: ?t2 |- _ =>
      first
        [ match goal with
          | Hm : forallb ?P seg = true |- _ =>
              exfalso; apply (split_end P seg t1 e t2);
              [ exact Hm | reflexivity | exact H ]
          end
        | open_step_of seg; reflatten; locate ]
  end.

Ltac find_in :=
  lazymatch goal with
  | |- In _ (_ :: _) => simpl; first [ left; reflexivity | right; find_in ]
  | |- In _ (_ ++ _) =>
      first [ apply in_or_app; left; assumption
            | apply in_or_app; right; find_in ]
  | |- _ = _ \/ _ => first [ left; reflexivity | right; find_in ]
  | |- In _ _ => assumption
  end.

(** Turn membership of a call into its place in the trace and find it. *)
Ltac place H :=
  apply in_split in H;
  let t1 := fresh "t" in
  let t2 := fresh "t" in
  destruct H as (t1 & t2 & H); flatten_in H; locate.

Lemma nil_suffix (suf : list event) : suf = [] ++ suf.
Proof. reflexivity. Qed.

Lemma cons_suffix (x : event) L t0 suf :
  L = t0 ++ suf -> x :: L = (x :: t0) ++ suf.
Proof. intros ->. reflexivity. Qed.

Lemma app_suffix (seg L t0 suf : list event) :
  L = t0 ++ suf -> seg ++ L = (seg ++ t0) ++ suf.
Proof. intros ->. apply app_assoc. Qed.

(** Show that an unfolded trace ends with the given events. *)
Ltac ends_with :=
  first [ apply nil_suffix
        | apply cons_suffix; ends_with
        | apply app_suffix; ends_with ].

(* ================================================================== *)
(** ** Publish and build *)

Section RunShape.

Variable w : World.
Variable host : Host.

Theorem run_shape this h s o d s' :
  run w host this h s = (o, d, s') -> runShape host this o d.
Proof.
  unfold run.
  unfold bind at 1. unfold checkPackagerStatus at 1. unfold call at 1.
  destruct (BaseBuilder_checkPackagerStatus w h) as [[]|e]; simpl;
    [| intros H; inversion H; subst; constructor].
  unfold bind at 1. unfold checkStatus at 1. unfold call at 1.
  destruct (BaseBuilder_checkStatus w _) as [[]|e]; simpl;
    [| intros H; inversion H; subst; constructor].
  unfold bind at 1.
  destruct (collectAndValidateCredentials w host this _ s)
    as [[oc dc] sc] eqn:Ec.
  apply collectAndValidateCredentials_shape in Ec.
  destruct oc as [[]|e|].
  - unfold bind, publish, build, call.
    destruct (BaseBuilder_publish w _) as [ids|e]; simpl.
    + match goal with
      | |- context [BaseBuilder_build w ?hh ?a ?b] =>
          destruct (BaseBuilder_build w hh a b) as [u|e] eqn:Eb
      end; simpl; intros H; inversion H; subst.
      * apply (rs_build host this dc ids (Returned u)); auto.
      * apply (rs_build host this dc ids (Threw e)); auto.
    + intros H; inversion H; subst. apply rs_noPublish; auto.
  - intros H; inversion H; subst. apply rs_noCredentials; auto. discriminate.
  - intros H; inversion H; subst. apply rs_noCredentials; auto. discriminate.
Qed.

Lemma workflow_beforePublish this o d :
  workflowShape host this o d -> forallb beforePublish d = true.
Proof.
  intros H. open_workflow; note_classes;
    simpl; repeat (rewrite ?forallb_app; simpl); rewrite ?andb_true_r;
    repeat (apply andb_true_iff; split); try reflexivity;
    (eapply forallb_weaken; [| eassumption]);
    (let e := fresh "e" in
     intros e; destruct e;
     unfold mayAppleId, mayCert, mayPush, beforePublish; simpl; congruence).
Qed.

End RunShape.

Lemma filter_class (P f : event -> bool) seg :
  forallb P seg = true ->
  (forall e, P e = true -> f e = false) ->
  List.filter f seg = [].
Proof.
  intros Hq Hf. induction seg as [|x seg IH]; simpl in *; auto.
  apply andb_true_iff in Hq. destruct Hq as [Hx Hq].
  rewrite (Hf x Hx), IH; auto.
Qed.

(* ================================================================== *)
(** ** Facts about the steps *)

Lemma quiet_raised seg ev :
  forallb quiet seg = true -> In ev seg -> raised ev = None.
Proof.
  intros Hq Hin. rewrite forallb_forall in Hq. apply Hq in Hin.
  destruct ev; simpl in *; try discriminate; reflexivity.
Qed.

(** Go through the events of an unfolded trace one by one; what is left
    are the events from inside a prompt. *)
Ltac scan H :=
  lazymatch type of H with
  | False => destruct H
  | In _ [] => destruct H
  | _ = _ \/ _ => destruct H as [<-|H]; [ | scan H ]
  | In _ (_ :: _) => destruct H as [<-|H]; [ | scan H ]
  | In _ (_ ++ _) => apply in_app_or in H; destruct H as [H|H]; [ | scan H ]
  | In _ _ => idtac
  end.

Lemma existsb_quiet (f : event -> bool) seg :
  forallb quiet seg = true ->
  (forall e, quiet e = true -> f e = false) ->
  existsb f seg = false.
Proof.
  intros Hq Hf. induction seg as [|x seg IH]; simpl in *; auto.
  apply andb_true_iff in Hq. destruct Hq as [Hx Hq].
  rewrite (Hf x Hx), IH; auto.
Qed.

Lemma filter_quiet (f : event -> bool) seg :
  forallb quiet seg = true ->
  (forall e, quiet e = true -> f e = false) ->
  List.filter f seg = [].
Proof.
  intros Hq Hf. induction seg as [|x seg IH]; simpl in *; auto.
  apply andb_true_iff in Hq. destruct Hq as [Hx Hq].
  rewrite (Hf x Hx), IH; auto.
Qed.

Ltac not_quiet :=
  let e := fresh "e" in
  intros e; destruct e; simpl; intros; try discriminate; reflexivity.

(** Evaluate [existsb] and [filter] over an unfolded trace. *)
Ltac calc_in H :=
  simpl in H;
  repeat (rewrite ?existsb_app, ?filter_app in H; simpl in H);
  repeat (rewrite existsb_quiet in H by first [ assumption | not_quiet ];
          simpl in H);
  repeat (rewrite filter_quiet in H by first [ assumption | not_quiet ];
          simpl in H).

Ltac calc :=
  simpl;
  repeat (rewrite ?existsb_app, ?filter_app; simpl);
  repeat (rewrite existsb_quiet by first [ assumption | not_quiet ]; simpl);
  repeat (rewrite filter_quiet by first [ assumption | not_quiet ]; simpl).

Lemma decideHas_clear existing :
  decideHas true existing = mkHas false false false.
Proof. reflexivity. Qed.

Lemma decideHas_none clear :
  decideHas clear None = mkHas false false false.
Proof. destruct clear; reflexivity. Qed.

Lemma decideHas_some b :
  decideHas false (Some b) =
  mkHas (truthy (appleId b)) (truthy (certP12 b)) (truthy (pushP12 b)).
Proof. reflexivity. Qed.

Section StepFlows.

Variable host : Host.

Lemma appleIdStep_flow has m o d :
  appleIdStep host has m o d -> collected AppleId d \/ revalidated AppleId d.
Proof.
  intros H. open_step H;
    first [ left; unfold collected; simpl kindQuestions; find_in
          | right; unfold revalidated; simpl kindName;
            eexists; eexists; find_in ].
Qed.

Lemma certStep_flow has m o d :
  certStep host has m o d -> collected Cert d \/ revalidated Cert d.
Proof.
  intros H. open_step H;
    first [ left; unfold collected; simpl kindQuestions; find_in
          | right; unfold revalidated; simpl kindName;
            eexists; eexists; find_in ].
Qed.

Lemma pushStep_flow has m o d :
  pushStep host has m o d -> collected PushCert d \/ revalidated PushCert d.
Proof.
  intros H. open_step H;
    first [ left; unfold collected; simpl kindQuestions; find_in
          | right; unfold revalidated; simpl kindName;
            eexists; eexists; find_in ].
Qed.

Lemma appleIdStep_done has m o d :
  appleIdStep host has m o d ->
  existsb appleIdStepDone d = true -> o = Ok tt.
Proof.
  intros H Hd. revert Hd. open_step H; intros Hd; calc_in Hd;
    repeat match goal with r : result unit |- _ => destruct r as [[]|] end;
    simpl in *; try discriminate; reflexivity.
Qed.

Lemma certStep_done has m o d :
  certStep host has m o d ->
  existsb certStepDone d = true -> o = Ok tt.
Proof.
  intros H Hd. revert Hd. open_step H; intros Hd; calc_in Hd;
    repeat match goal with r : result unit |- _ => destruct r as [[]|] end;
    simpl in *; try discriminate; reflexivity.
Qed.

End StepFlows.

(** Carry a flow found in one step over to the whole trace. *)
Ltac lift_flow Hf :=
  let m := fresh "m" in
  let r := fresh "r" in
  destruct Hf as [Hf | (m & r & Hf)];
  [ left; unfold collected in *; find_in
  | right; exists m, r; find_in ].

Ltac by_results :=
  repeat match goal with r : result _ |- _ => destruct r end;
  simpl; reflexivity.

Section StepOrder.

Variable host : Host.

Lemma certStep_last has m d :
  certStep host has m (Ok tt) d ->
  exists t0 ev, d = t0 ++ [ev] /\ certStepDone ev = true.
Proof.
  intros H. open_step H; eexists; eexists; (split; [ends_with | reflexivity]).
Qed.

Lemma appleIdStep_noPush has m o d :
  appleIdStep host has m o d -> existsb pushStepEvent d = false.
Proof. intros H. open_step H; calc; by_results. Qed.

Lemma certStep_noPush has m o d :
  certStep host has m o d -> existsb pushStepEvent d = false.
Proof. intros H. open_step H; calc; by_results. Qed.

Lemma pushStep_noCert has m o d :
  pushStep host has m o d -> existsb certStepEvent d = false.
Proof. intros H. open_step H; calc; by_results. Qed.

Lemma appleIdStep_noAppId has m o d :
  appleIdStep host has m o d -> List.filter isEnsureAppId d = [].
Proof. intros H. open_step H; calc; by_results. Qed.

Lemma certStep_noAppId has m o d :
  certStep host has m o d -> List.filter isEnsureAppId d = [].
Proof. intros H. open_step H; calc; by_results. Qed.

Lemma pushStep_noAppId has m o d :
  pushStep host has m o d -> List.filter isEnsureAppId d = [].
Proof. intros H. open_step H; calc; by_results. Qed.

Lemma ensureAppId_once m o d :
  ensureAppIdShape m o d -> length (List.filter isEnsureAppId d) = 1.
Proof. intros H. open_step H; reflexivity. Qed.

Lemma appleIdStep_noCertDone has m o d :
  appleIdStep host has m o d -> existsb certStepDone d = false.
Proof. intros H. open_step H; calc; by_results. Qed.

End StepOrder.

(* ================================================================== *)
(** ** The path question *)

Section PathQuestion.

Variable host : Host.

Lemma checked_none o X : forallb notStat X = true -> pathChecks host o X.
Proof.
  intros HX t1 p r t2 H. exfalso.
  apply (split_end notStat X t1 (EvStat p r) t2); auto.
Qed.

Lemma checked_prefix o pre X :
  forallb notStat pre = true ->
  pathChecks host o X -> pathChecks host o (pre ++ X).
Proof.
  intros Hpre HX t1 p r t2 H.
  apply (split_past notStat) in H; auto.
  destruct H as (t1' & -> & H).
  destruct (HX _ _ _ _ H) as [(t0 & raw & -> & Hp) Hr].
  split; auto. exists (pre ++ t0), raw. rewrite app_assoc. auto.
Qed.

Lemma checked_accepted o raw st more :
  isFile st = true ->
  forallb notStat more = true ->
  pathChecks host o
    (EvInput "pathToP12" raw
     :: EvStat (p12PathFilter host raw) (Returned st) :: more).
Proof.
  intros Hst Hm t1 p r t2 H.
  apply cons_split in H. destruct H as [(_ & He & _)|(t1' & -> & H)];
    [discriminate He |].
  apply cons_split in H. destruct H as [(-> & He & <-)|(t1'' & -> & H)].
  - inversion He; subst. split.
    + exists [], raw. auto.
    + simpl. rewrite Hst. discriminate.
  - exfalso. apply (split_end notStat more t1'' (EvStat p r) t2); auto.
Qed.

Lemma checked_rejected o rej L :
  rejectedPaths host rej ->
  pathChecks host o L -> pathAsked o L ->
  pathChecks host o (rej ++ L) /\ pathAsked o (rej ++ L).
Proof.
  intros Hrej HL HA.
  induction Hrej as [|raw st rest Hst Hrest IH|raw e rest Hrest IH]; simpl.
  - split; assumption.
  - destruct IH as [IHc IHa]. split; [| right; eauto].
    intros t1 p r t2 H.
    apply cons_split in H. destruct H as [(_ & He & _)|(t1' & -> & H)];
      [discriminate He |].
    apply cons_split in H. destruct H as [(-> & He & <-)|(t1'' & -> & H)].
    + inversion He; subst. split.
      * exists [], raw. auto.
      * intros _. exists (rest ++ L). split; auto.
    + destruct (IHc _ _ _ _ H) as [(t0 & raw' & -> & Hp) Hr]. split; auto.
      exists (EvInput "pathToP12" raw
              :: EvStat (p12PathFilter host raw) (Returned st) :: t0), raw'.
      auto.
  - destruct IH as [IHc IHa]. split; [| right; eauto].
    intros t1 p r t2 H.
    apply cons_split in H. destruct H as [(_ & He & _)|(t1' & -> & H)];
      [discriminate He |].
    apply cons_split in H. destruct H as [(-> & He & <-)|(t1'' & -> & H)].
    + inversion He; subst. split.
      * exists [], raw. auto.
      * intros _. exists (rest ++ L). split; auto.
    + apply cons_split in H. destruct H as [(_ & He & _)|(t1' & -> & H)];
        [discriminate He |].
      destruct (IHc _ _ _ _ H) as [(t0 & raw' & -> & Hp) Hr]. split; auto.
      exists (EvInput "pathToP12" raw
              :: EvStat (p12PathFilter host raw) (Threw e)
              :: EvLog msgFileDoesNotExist :: t0), raw'.
      auto.
Qed.

Lemma inputs_notStat seg :
  forallb isInput seg = true -> forallb notStat seg = true.
Proof. apply forallb_weaken. intros []; simpl; congruence. Qed.

Lemma checked_flow o pre rej L :
  forallb notStat pre = true ->
  rejectedPaths host rej ->
  pathChecks host o L -> pathAsked o L ->
  pathChecks host o (pre ++ rej ++ L).
Proof.
  intros Hpre Hrej HL HA. apply checked_prefix; auto.
  apply checked_rejected; auto.
Qed.

Lemma regroup (x y z : event) seg rest :
  x :: y :: seg ++ z :: rest = (x :: y :: seg ++ [z]) ++ rest.
Proof. simpl. rewrite <- app_assoc. reflexivity. Qed.

Lemma askForCerts_checked m o d :
  askForCertsShape host m o d -> pathChecks host o d.
Proof.
  intros H. inversion H; subst; clear H; unfold certPrompt in *;
    match goal with
    | Hp : p12PromptShape _ _ _ _ _ |- _ => inversion Hp; subst; clear Hp
    end;
    simpl; repeat (rewrite <- app_assoc; simpl);
    try (apply checked_none;
         (simpl; repeat (rewrite ?forallb_app; simpl); rewrite ?andb_true_r;
          repeat (apply andb_true_iff; split);
          try reflexivity; try (apply inputs_notStat; assumption));
         fail);
    try match goal with
    | |- pathChecks _ _ (_ :: _ :: _ ++ _ :: ?rej) =>
        is_var rej; replace rej with (rej ++ []) by apply app_nil_r
    end;
    rewrite regroup;
    (apply checked_flow;
     [ (simpl; repeat (rewrite ?forallb_app; simpl); rewrite ?andb_true_r;
          repeat (apply andb_true_iff; split);
          try reflexivity; try (apply inputs_notStat; assumption))
     | assumption
     | first [ apply checked_none; reflexivity
             | apply checked_accepted; [assumption | reflexivity] ]
     | first [ left; split; reflexivity | right; eauto ] ]).
Qed.

End PathQuestion.

Lemma filter_is_tilde_then_absolute host raw :
  p12PathFilter host raw =
  if path_isAbsolute host (untildify host raw)
  then untildify host raw
  else path_resolve host (untildify host raw).
Proof.
  unfold p12PathFilter.
  destruct (path_isAbsolute host (untildify host raw)); reflexivity.
Qed.

Section StepsDone.

Variable host : Host.

Lemma appleIdStep_completed has m d :
  appleIdStep host has m (Ok tt) d -> existsb appleIdStepDone d = true.
Proof.
  intros H. open_step H; calc;
    rewrite ?orb_true_r; try reflexivity; by_results.
Qed.

Lemma certStep_completed has m d :
  certStep host has m (Ok tt) d -> existsb certStepDone d = true.
Proof.
  intros H. destruct (certStep_last host has m d H) as (t0 & ev & -> & Hd).
  rewrite existsb_app. simpl. rewrite Hd. simpl. apply orb_true_r.
Qed.

End StepsDone.

(** The steps that are known to be done or to hold no such event. *)
Ltac phases :=
  simpl; rewrite ?existsb_app; simpl;
  repeat match goal with
  | H : appleIdStep _ _ _ (Ok tt) ?d |- context [existsb appleIdStepDone ?d] =>
      rewrite (appleIdStep_completed _ _ _ _ H)
  | H : certStep _ _ _ (Ok tt) ?d |- context [existsb certStepDone ?d] =>
      rewrite (certStep_completed _ _ _ _ H)
  end;
  simpl; rewrite ?orb_true_r; try reflexivity.

(* ================================================================== *)
(** ** Which flow runs *)

Section Reached.

Variable host : Host.

(** A run that got to the step of a kind ran one of its two flows. *)
Lemma reached_flow this o d k :
  workflowShape host this o d ->
  reached k d -> collected k d \/ revalidated k d.
Proof.
  intros HS. destruct k; unfold reached.
  - intros (m' & b & Hin). revert Hin.
    open_workflow; intros Hin.
    all: try (simpl in Hin; intuition discriminate).
    all: match goal with
         | H : appleIdStep _ _ _ _ _ |- _ =>
             apply appleIdStep_flow in H; lift_flow H
         end.
  - intros Hdone. revert Hdone.
    open_workflow; intros Hdone.
    all: try (simpl in Hdone; discriminate).
    all: try match goal with
         | H : certStep _ _ _ _ _ |- _ =>
             apply certStep_flow in H; lift_flow H
         end.
    all: simpl in Hdone;
      match goal with
      | H : appleIdStep _ _ _ _ _ |- _ =>
          apply appleIdStep_done in H; [discriminate H | exact Hdone]
      end.
  - intros (m' & Hin). revert Hin.
    open_workflow; note_classes; intros Hin.
    all: try match goal with
         | H : pushStep _ _ _ _ _ |- _ =>
             clear Hin; apply pushStep_flow in H; lift_flow H
         end.
    all: place Hin.
Qed.

(** The step of a kind was reached: what came before it is in the
    trace. *)
Ltac got_there :=
  first
    [ solve [eexists; eexists; find_in]
    | solve [phases]
    | solve [ match goal with
              | H : ensureAppIdShape _ (Ok tt) _ |- _ =>
                  inversion H; subst; clear H
              end;
              eexists; find_in ] ].

(** A flow of a kind runs only in a run that got to the step of the
    kind. *)
Lemma flow_reached this o d k :
  workflowShape host this o d ->
  collected k d \/ revalidated k d -> reached k d.
Proof.
  intros HS [Hc | (m' & r' & Hr)].
  - revert Hc. unfold collected, reached.
    destruct k; simpl kindQuestions.
    all: open_workflow; note_classes; intros Hc.
    all: place Hc.
    all: got_there.
  - revert Hr. unfold reached. destruct k; simpl kindName.
    all: open_workflow; note_classes; intros Hr.
    all: place Hr.
    all: got_there.
Qed.

(** With the flag unset, the flow that ran tells the truthiness of the
    kind's field in the bundle that was fetched. *)
Lemma flow_field this o d k m b :
  workflowShape host this o d ->
  clearCredentials (options this) = false ->
  In (EvCredentialsExist m (Returned (Some b))) d ->
  (revalidated k d -> truthy (kindField k b) = true) /\
  (collected k d -> truthy (kindField k b) = false).
Proof.
  intros HS Hcl Hin. split.
  - intros (m' & r' & Hr). revert Hin Hr.
    destruct k; simpl kindName; simpl kindField.
    all: open_workflow; note_classes; intros Hin Hr.
    all: place Hr.
    all: place Hin.
    all: rewrite Hcl, decideHas_some in *; simpl in *; congruence.
  - intros Hc. revert Hin Hc. unfold collected.
    destruct k; simpl kindQuestions; simpl kindField.
    all: open_workflow; note_classes; intros Hin Hc.
    all: place Hc.
    all: place Hin.
    all: rewrite Hcl, decideHas_some in *; simpl in *; congruence.
Qed.

(** With the flag unset, once the step of a kind is reached the field of
    the kind decides which flow runs. *)
Lemma field_flow this o d k m b :
  workflowShape host this o d ->
  clearCredentials (options this) = false ->
  In (EvCredentialsExist m (Returned (Some b))) d ->
  reached k d ->
  (revalidated k d <-> truthy (kindField k b) = true) /\
  (collected k d <-> truthy (kindField k b) = false).
Proof.
  intros HS Hcl Hin Hre.
  destruct (flow_field this o d k m b HS Hcl Hin) as [Hr Hc].
  destruct (reached_flow this o d k HS Hre) as [Hf|Hf].
  - pose proof (Hc Hf) as Hk. split; split.
    + exact Hr.
    + intros Ht. congruence.
    + exact Hc.
    + intros _. exact Hf.
  - pose proof (Hr Hf) as Hk. split; split.
    + exact Hr.
    + intros _. exact Hf.
    + exact Hc.
    + intros Ht. congruence.
Qed.

End Reached.

(* ================================================================== *)
(** ** Properties of the builder *)

(** C1 (as the code has it): for each kind, in every run, never both
    flows; with the clear flag set or no bundle stored, no re-validate
    flow; with the flag unset and the kind's field present, no collection
    flow; as soon as the run gets to the step of the kind, one of the
    two flows runs, so exactly one; and a run that does not get to the
    step of the kind runs neither of its flows. *)
Theorem C1_one_flow_per_kind_once_its_step_is_reached
  (w : World) (host : Host) (this : Builder) (h : history) (s : script)
  (o : outcome unit) (d : list event) (s' : script) :
  collectAndValidateCredentials w host this h s = (o, d, s') ->
  forall k,
    ~ (collected k d /\ revalidated k d) /\
    ((clearCredentials (options this) = true \/
      exists m, In (EvCredentialsExist m (Returned None)) d) ->
     ~ revalidated k d) /\
    (forall m b,
        clearCredentials (options this) = false ->
        In (EvCredentialsExist m (Returned (Some b))) d ->
        truthy (kindField k b) = true ->
        ~ collected k d) /\
    (reached k d -> collected k d \/ revalidated k d) /\
    (~ reached k d -> ~ collected k d /\ ~ revalidated k d).
Proof.
  intros HS k. apply collectAndValidateCredentials_shape in HS.
  split; [| split; [| split; [| split]]].
  - intros [Hc (m' & r' & Hr)]. revert Hc Hr.
    unfold collected. destruct k; simpl kindQuestions; simpl kindName.
    all: open_workflow; note_classes; intros Hc Hr.
    all: place Hc.
    all: place Hr.
  - intros Hab (m' & r' & Hr). revert Hab Hr.
    destruct k; simpl kindName.
    all: open_workflow; note_classes; intros Hab Hr.
    all: place Hr.
    all: destruct Hab as [Hcl|(m0 & Hn)];
      [ rewrite Hcl, decideHas_clear in *; simpl in *; discriminate
      | place Hn; rewrite decideHas_none in *; simpl in *; discriminate ].
  - intros m' b Hcl Hin Hf Hc.
    destruct (flow_field host this o d k m' b HS Hcl Hin) as [_ Hm].
    rewrite (Hm Hc) in Hf. discriminate Hf.
  - exact (reached_flow host this o d k HS).
  - intros Hn. split; intros Hf; apply Hn;
      apply (flow_reached host this o d k HS); [left | right]; exact Hf.
Qed.

Lemma C1_witness :
  (reached Cert (snd (fst freshRun)) /\
   (collected Cert (snd (fst freshRun)) \/
    revalidated Cert (snd (fst freshRun)))) /\
  (~ reached Cert (snd (fst refusedRun)) /\
   ~ collected Cert (snd (fst refusedRun)) /\
   ~ revalidated Cert (snd (fst refusedRun))).
Proof.
  split.
  - split; [reflexivity |].
    refine (proj1 (proj2 (proj2 (proj2
              (C1_one_flow_per_kind_once_its_step_is_reached
                 freshWorld sampleHost (sampleBuilder false) []
                 sampleOperator
                 (fst (fst freshRun)) (snd (fst freshRun)) (snd freshRun)
                 eq_refl Cert)))) eq_refl).
  - refine ((fun Hn => conj Hn
               (proj2 (proj2 (proj2 (proj2
                  (C1_one_flow_per_kind_once_its_step_is_reached
                     refusedWorld sampleHost (sampleBuilder false) []
                     sampleOperator
                     (fst (fst refusedRun)) (snd (fst refusedRun))
                     (snd refusedRun) eq_refl Cert)))) Hn)) _).
    intros H. vm_compute in H. discriminate H.
Defined.

(** C1 does not hold as stated: nothing is stored, yet the service turns
    the typed Apple ID down, the run ends there, and neither flow of the
    certificate kind runs. *)
Lemma C1_counterexample :
  fst (fst refusedRun) = Throw (CommandError CREDENTIAL_ERROR "Invalid Apple ID")
  /\ In (EvCredentialsExist sampleMetadata (Returned None))
        (snd (fst refusedRun))
  /\ ~ collected Cert (snd (fst refusedRun))
  /\ ~ revalidated Cert (snd (fst refusedRun)).
Proof.
  split; [reflexivity |]. split; [simpl; auto |]. split.
  - unfold collected. simpl. intuition discriminate.
  - intros (m & r & H). simpl in H. intuition discriminate.
Qed.

(** C2: in the push-certificate flow, when the fetch of a generated push
    certificate resolves to a falsy validity, or fails with an error that
    does not carry the service's tag, the flow throws the CREDENTIAL_ERROR
    with the generic fetch/upload message; it does not succeed. *)
Theorem C2_falsy_push_validity_is_fatal
  (w : World) (host : Host) (m : CredentialMetadata) (h : history)
  (s : script) (o : outcome unit) (d : list event) (s' : script) :
  askForPushCerts w host m h s = (o, d, s') ->
  forall m' r,
    In (EvFetchPushCertificates m' r) d ->
    (r = Returned false \/
     exists e, r = Threw e /\ isXDLError host e = false) ->
    o = Throw (XDLError CREDENTIAL_ERROR msgFailedCertificates).
Proof.
  intros HS m' r Hin Hr. apply askForPushCerts_shape in HS.
  apply in_split in Hin. destruct Hin as (t1 & t2 & HT). revert HT.
  inversion HS; subst; clear HS; coarse_prompts; intros HT; flatten_in HT.
  all: locate.
  destruct Hr as [->|(e & -> & He)]; simpl; [reflexivity |].
  rewrite He. reflexivity.
Qed.

Lemma C2_witness :
  askForPushCerts
    invalidPushWorld
    sampleHost sampleMetadata [] ["1"%string]
  = (Throw (XDLError CREDENTIAL_ERROR msgFailedCertificates),
     [EvLog EmptyString;
      EvPrompt ["managePushCertificates"; "pathToP12"; "pushPassword"]%string;
      EvInput "managePushCertificates" "1";
      EvFetchPushCertificates sampleMetadata (Returned false)],
     []) /\
  @Throw unit (XDLError CREDENTIAL_ERROR msgFailedCertificates)
  = Throw (XDLError CREDENTIAL_ERROR msgFailedCertificates).
Proof.
  split; [reflexivity |].
  refine (C2_falsy_push_validity_is_fatal
            invalidPushWorld
            sampleHost sampleMetadata [] ["1"%string] _ _ _ eq_refl
            sampleMetadata (Returned false) _ (or_introl eq_refl)).
  simpl. auto.
Defined.

(** C3 (as the code has it): in the certificate flow an error without the
    service's tag, raised by the certificate fetch, the file read, the
    validation or the update, leaves the flow as it was raised; the
    generic fetch/upload message is what a tagged error of the fetch, the
    file read or the update is rewritten to. *)
Theorem C3_unclassified_errors_leave_the_certificate_flow_unchanged
  (w : World) (host : Host) (m : CredentialMetadata) (h : history)
  (s : script) (o : outcome unit) (d : list event) (s' : script) :
  askForCerts w host m h s = (o, d, s') ->
  forall ev e,
    In ev d -> raised ev = Some e ->
    (isXDLError host e = false -> o = Throw e) /\
    (isXDLError host e = true -> isValidate ev = false ->
     o = Throw (CommandError (code_of e) msgFailedCertificates)).
Proof.
  intros HS ev e Hin Hr. apply askForCerts_shape in HS. revert Hin.
  inversion HS; subst; clear HS; coarse_prompts; intros Hin; flatten_in Hin.
  all: scan Hin.
  all: try (rewrite (quiet_raised _ _ Hq Hin) in Hr; discriminate).
  all: simpl in Hr; try discriminate.
  all: try (destruct r; simpl in Hr; try discriminate).
  all: inversion Hr; subst; clear Hr; simpl.
  all: split; [ intros He; rewrite ?He; simpl; rewrite ?He; reflexivity
              | intros He Hv; try discriminate; rewrite ?He; reflexivity ].
Qed.

Lemma C3_witness :
  askForCerts
    offlineWorld
    sampleHost sampleMetadata [] ["1"%string]
  = (Throw (Unclassified "ECONNRESET"),
     [EvLog EmptyString;
      EvPrompt ["manageCertificates"; "pathToP12"; "certPassword"]%string;
      EvInput "manageCertificates" "1";
      EvFetchAppleCertificates sampleMetadata
        (Threw (Unclassified "ECONNRESET"))],
     []) /\
  @Throw unit (Unclassified "ECONNRESET") = Throw (Unclassified "ECONNRESET").
Proof.
  split; [reflexivity |].
  refine (proj1
            (C3_unclassified_errors_leave_the_certificate_flow_unchanged
               offlineWorld
               sampleHost sampleMetadata [] ["1"%string] _ _ _ eq_refl
               (EvFetchAppleCertificates sampleMetadata
                  (Threw (Unclassified "ECONNRESET")))
               (Unclassified "ECONNRESET") _ eq_refl)
            eq_refl).
  simpl. auto.
Defined.

(** C3 does not hold as stated: the certificate fetch fails with a network
    error, which carries no tag; the flow throws that very error, and the
    generic message is nowhere in it. *)
Lemma C3_counterexample :
  askForCerts
    offlineWorld
    sampleHost sampleMetadata [] ["1"%string]
  = (Throw (Unclassified "ECONNRESET"),
     [EvLog EmptyString;
      EvPrompt ["manageCertificates"; "pathToP12"; "certPassword"]%string;
      EvInput "manageCertificates" "1";
      EvFetchAppleCertificates sampleMetadata
        (Threw (Unclassified "ECONNRESET"))],
     []) /\
  isXDLError sampleHost (Unclassified "ECONNRESET") = false /\
  ~ genericFailure (Throw (Unclassified "ECONNRESET")).
Proof.
  split; [reflexivity |]. split; [reflexivity |].
  intros [code [H|H]]; discriminate H.
Qed.



(** C5: when the re-validation of the stored Apple ID fails, the workflow
    ends there with the error that tells the operator to rerun with -c:
    the failed call is the last event, so no certificate, app-id or
    push-certificate logic runs after it. *)
Theorem C5_failed_revalidation_of_apple_id_stops_the_run
  (w : World) (host : Host) (this : Builder) (h : history) (s : script)
  (o : outcome unit) (d : list event) (s' : script) :
  collectAndValidateCredentials w host this h s = (o, d, s') ->
  forall t1 m e t2,
    d = t1 ++ EvValidate "ios" "appleId" None m (Threw e) :: t2 ->
    o = Throw (XDLError CREDENTIAL_ERROR msgStoredCredentialsInvalid) /\
    t2 = [].
Proof.
  intros HS. apply collectAndValidateCredentials_shape in HS.
  open_workflow; note_classes; intros t1 m' e' t2 HT; flatten_in HT.
  all: locate.
  all: auto.
Qed.

Lemma C5_witness :
  collectAndValidateCredentials
    staleWorld
    sampleHost (sampleBuilder false) [] sampleOperator
  = (Throw (XDLError CREDENTIAL_ERROR msgStoredCredentialsInvalid),
     [EvGetPublishInfo "."
        (Returned sampleArgs);
      EvCredentialsExist sampleMetadata (Returned (Some storedBundle));
      EvValidate "ios" "appleId" None sampleMetadata
        (Threw (XDLError CREDENTIAL_ERROR "Invalid Apple ID"))],
     sampleOperator) /\
  (@Throw unit (XDLError CREDENTIAL_ERROR msgStoredCredentialsInvalid)
   = Throw (XDLError CREDENTIAL_ERROR msgStoredCredentialsInvalid) /\
   @nil event = []).
Proof.
  split; [reflexivity |].
  refine (C5_failed_revalidation_of_apple_id_stops_the_run
            staleWorld
            sampleHost (sampleBuilder false) [] sampleOperator
            _ _ _ eq_refl
            [EvGetPublishInfo "."
               (Returned sampleArgs);
             EvCredentialsExist sampleMetadata (Returned (Some storedBundle))]
            sampleMetadata (XDLError CREDENTIAL_ERROR "Invalid Apple ID") []
            eq_refl).
Defined.

(** C6 (as the code has it): the workflow registers the app id at most
    once in a run, and exactly once in every run whose certificate step
    completes.  The registration comes right after the event that
    completes the certificate step, before any call of the
    push-certificate step and after every call of the certificate step.
    When it fails, the run ends there with the error that tells the
    operator to change the bundle identifier. *)
Theorem C6_app_id_registered_once_between_certificate_and_push
  (w : World) (host : Host) (this : Builder) (h : history) (s : script)
  (o : outcome unit) (d : list event) (s' : script) :
  collectAndValidateCredentials w host this h s = (o, d, s') ->
  length (List.filter isEnsureAppId d) <= 1 /\
  (existsb certStepDone d = true ->
   length (List.filter isEnsureAppId d) = 1) /\
  (forall t1 m r t2,
      d = t1 ++ EvEnsureAppId m r :: t2 ->
      (exists t0 ev, t1 = t0 ++ [ev] /\ certStepDone ev = true) /\
      existsb pushStepEvent t1 = false /\
      existsb certStepEvent t2 = false /\
      (forall e, r = Threw e ->
                 o = Throw (XDLError CREDENTIAL_ERROR
                              (msgAppId (bundleIdentifier m))) /\
                 t2 = [])).
Proof.
  intros HS. apply collectAndValidateCredentials_shape in HS.
  split; [| split].
  - open_workflow;
    simpl; repeat (rewrite ?filter_app, ?length_app; simpl);
    repeat match goal with
    | H : appleIdStep _ _ _ _ ?d |- context [List.filter isEnsureAppId ?d] =>
        rewrite (appleIdStep_noAppId _ _ _ _ _ H)
    | H : certStep _ _ _ _ ?d |- context [List.filter isEnsureAppId ?d] =>
        rewrite (certStep_noAppId _ _ _ _ _ H)
    | H : pushStep _ _ _ _ ?d |- context [List.filter isEnsureAppId ?d] =>
        rewrite (pushStep_noAppId _ _ _ _ _ H)
    | H : ensureAppIdShape _ _ ?d |- context [List.filter isEnsureAppId ?d] =>
        rewrite (ensureAppId_once _ _ _ H)
    end;
    simpl; lia.
  - open_workflow; intros Hd;
    simpl; repeat (rewrite ?filter_app, ?length_app; simpl);
    repeat match goal with
    | H : appleIdStep _ _ _ _ ?d |- context [List.filter isEnsureAppId ?d] =>
        rewrite (appleIdStep_noAppId _ _ _ _ _ H)
    | H : certStep _ _ _ _ ?d |- context [List.filter isEnsureAppId ?d] =>
        rewrite (certStep_noAppId _ _ _ _ _ H)
    | H : pushStep _ _ _ _ ?d |- context [List.filter isEnsureAppId ?d] =>
        rewrite (pushStep_noAppId _ _ _ _ _ H)
    | H : ensureAppIdShape _ _ ?d |- context [List.filter isEnsureAppId ?d] =>
        rewrite (ensureAppId_once _ _ _ H)
    end;
    simpl; try reflexivity.
    all: exfalso; revert Hd; simpl; rewrite ?existsb_app.
    all: repeat match goal with
         | H : appleIdStep _ _ _ _ ?d |- context [existsb certStepDone ?d] =>
             rewrite (appleIdStep_noCertDone _ _ _ _ _ H)
         end; simpl.
    all: try discriminate.
    all: intros Hd;
      match goal with
      | H : certStep _ _ _ _ _ |- _ =>
          apply certStep_done in H; [discriminate H | exact Hd]
      end.
  - open_workflow; note_classes; intros t1 m' r' t2 HT; flatten_in HT.
    all: locate.
    all: split; [| split; [| split]].
    all: try (intros e' He'; discriminate He').
    all: try (intros e' He'; split; reflexivity).
    all: try match goal with
         | H : certStep _ _ _ (Ok tt) _ |- exists _ _, _ =>
             let t0 := fresh "t" in
             let ev := fresh "ev" in
             let Hev := fresh "Hev" in
             destruct (certStep_last _ _ _ _ H) as (t0 & ev & -> & Hev);
             eexists; exists ev; split; [| exact Hev];
             rewrite ?app_nil_r; ends_with
         end.
    all: try match goal with
         | |- existsb pushStepEvent _ = false =>
             simpl; rewrite ?existsb_app; simpl;
             repeat match goal with
             | H : appleIdStep _ _ _ _ ?d
               |- context [existsb pushStepEvent ?d] =>
                 rewrite (appleIdStep_noPush _ _ _ _ _ H)
             | H : certStep _ _ _ _ ?d
               |- context [existsb pushStepEvent ?d] =>
                 rewrite (certStep_noPush _ _ _ _ _ H)
             end; reflexivity
         end.
    all: try match goal with
         | H : pushStep _ _ _ _ ?d |- existsb certStepEvent ?d = false =>
             exact (pushStep_noCert _ _ _ _ _ H)
         end.
    all: try reflexivity.
Qed.

Lemma C6_witness :
  existsb certStepDone (snd (fst freshRun)) = true /\
  length (List.filter isEnsureAppId (snd (fst freshRun))) = 1.
Proof.
  split; [reflexivity |].
  refine (proj1 (proj2
            (C6_app_id_registered_once_between_certificate_and_push
               freshWorld sampleHost (sampleBuilder false) [] sampleOperator
               (fst (fst freshRun)) (snd (fst freshRun)) (snd freshRun)
               eq_refl)) eq_refl).
Defined.

(** C6 does not hold as stated: in the run that ends with the refused
    Apple ID the app id is never registered. *)
Lemma C6_counterexample :
  fst (fst refusedRun) = Throw (CommandError CREDENTIAL_ERROR "Invalid Apple ID")
  /\ length (List.filter isEnsureAppId (snd (fst refusedRun))) = 0
  /\ forall m r, ~ In (EvEnsureAppId m r) (snd (fst refusedRun)).
Proof.
  split; [reflexivity |]. split; [reflexivity |].
  intros m r H. simpl in H. intuition discriminate.
Qed.

(** C7: in the certificate flow, every file read is of the path that the
    last path line was turned into by tilde expansion and, unless already
    absolute, resolution, and comes after the check of that very path
    found a regular file; every check is of the path made from the line
    typed just before it, and a check that fails is followed by the
    question again; and the only calls of the service after a path was
    asked carry the contents of the file that was read.  The path is
    absolute whenever [path.resolve] returns absolute paths. *)
Theorem C7_supplied_path_is_checked_before_any_use
  (w : World) (host : Host) (m : CredentialMetadata) (h : history)
  (s : script) (o : outcome unit) (d : list event) (s' : script) :
  askForCerts w host m h s = (o, d, s') ->
  (forall t1 p r t2,
      d = t1 ++ EvReadFile p r :: t2 ->
      exists t0 raw st pw,
        t1 = t0 ++ [EvInput "pathToP12" raw; EvStat p (Returned st);
                    EvInput "certPassword" pw] /\
        isFile st = true /\
        p = (if path_isAbsolute host (untildify host raw)
             then untildify host raw
             else path_resolve host (untildify host raw)) /\
        ((forall q, path_isAbsolute host (path_resolve host q) = true) ->
         path_isAbsolute host p = true)) /\
  (forall t1 p r t2,
      d = t1 ++ EvStat p r :: t2 ->
      (exists t0 raw,
          t1 = t0 ++ [EvInput "pathToP12" raw] /\
          p = p12PathFilter host raw) /\
      (statFailed r = true -> reprompted r o t2)) /\
  (forall t1 plat kind c m' r t2,
      d = t1 ++ EvValidate plat kind c m' r :: t2 ->
      exists t0 p data pw,
        t1 = t0 ++ [EvReadFile p (Returned data)] /\
        c = Some (certCredentials host data pw)) /\
  (forall t1 plat c m' r t2,
      d = t1 ++ EvUpdate plat c m' r :: t2 ->
      exists t0 p data pw v,
        t1 = t0 ++ [EvReadFile p (Returned data);
                    EvValidate plat "cert" (Some c) m' (Returned v)] /\
        c = certCredentials host data pw).
Proof.
  intros HS. apply askForCerts_shape in HS.
  split; [| split; [| split]].
  - inversion HS; subst; clear HS; unfold certPrompt in *;
      match goal with
      | Hp : p12PromptShape _ _ _ _ _ |- _ => inversion Hp; subst; clear Hp
      end;
      repeat match goal with
      | Hi : forallb isInput _ = true |- _ => apply inputs_quiet in Hi
      | Hr : rejectedPaths _ _ |- _ => apply rejected_quiet in Hr
      end;
      intros t1 p' r' t2 HT; flatten_in HT; locate.
    all: eexists; eexists; eexists; eexists;
      (split; [ends_with | split; [assumption | split]]).
    all: try apply filter_is_tilde_then_absolute.
    all: intros Habs; rewrite filter_is_tilde_then_absolute;
      destruct (path_isAbsolute host (untildify host raw)) eqn:E; auto.
  - exact (askForCerts_checked host m o d HS).
  - inversion HS; subst; clear HS; coarse_prompts;
      intros t1 plat kind c m' r' t2 HT; flatten_in HT; locate.
    all: eexists; eexists; eexists; eexists; (split; [ends_with | reflexivity]).
  - inversion HS; subst; clear HS; coarse_prompts;
      intros t1 plat c m' r' t2 HT; flatten_in HT; locate.
    all: eexists; eexists; eexists; eexists; eexists;
      (split; [ends_with | reflexivity]).
Qed.

Lemma C7_witness :
  exists t0 raw st pw,
    firstn 14 (snd (fst uploadRun)) =
    t0 ++ [EvInput "pathToP12" raw; EvStat "/work/dist.p12" (Returned st);
           EvInput "certPassword" pw] /\
    isFile st = true /\
    "/work/dist.p12"%string =
    (if path_isAbsolute sampleHost (untildify sampleHost raw)
     then untildify sampleHost raw
     else path_resolve sampleHost (untildify sampleHost raw)) /\
    ((forall q, path_isAbsolute sampleHost (path_resolve sampleHost q) = true)
     -> path_isAbsolute sampleHost "/work/dist.p12" = true).
Proof.
  refine (proj1
            (C7_supplied_path_is_checked_before_any_use
               freshWorld sampleHost sampleMetadata []
               ["2"; "missing.p12"; "/work"; "~/dist.p12"; "dist.p12";
                "secret"]%string
               (fst (fst uploadRun)) (snd (fst uploadRun)) (snd uploadRun)
               eq_refl)
            (firstn 14 (snd (fst uploadRun))) "/work/dist.p12"%string
            (Returned []) (skipn 15 (snd (fst uploadRun))) eq_refl).
Defined.

(** C8: when the project has no bundle identifier the workflow throws the
    INVALID_OPTIONS error at once: reading the project's publish info is
    the only thing it has done, so no call of the credential store was
    made and no prompt was shown. *)
Theorem C8_missing_bundle_identifier_fails_before_anything_else
  (w : World) (host : Host) (this : Builder) (h : history) (s : script)
  (o : outcome unit) (d : list event) (s' : script) :
  collectAndValidateCredentials w host this h s = (o, d, s') ->
  forall dir args,
    In (EvGetPublishInfo dir (Returned args)) d ->
    truthy (args_bundleIdentifierIOS args) = false ->
    o = Throw (XDLError INVALID_OPTIONS msgNoBundleIdentifier) /\
    d = [EvGetPublishInfo (projectDir this) (Returned args)].
Proof.
  intros HS dir args Hin Hb. apply collectAndValidateCredentials_shape in HS.
  apply in_split in Hin. destruct Hin as (t1 & t2 & HT). revert HT Hb.
  open_workflow; note_classes; intros HT Hb; flatten_in HT.
  all: locate.
  all: try congruence.
  all: auto.
Qed.

Lemma C8_witness :
  collectAndValidateCredentials unconfiguredWorld sampleHost
    (sampleBuilder false) [] sampleOperator
  = (Throw (XDLError INVALID_OPTIONS msgNoBundleIdentifier),
     [EvGetPublishInfo "." (Returned (mkPublishArgs "dev" "@dev/app" None))],
     sampleOperator) /\
  (@Throw unit (XDLError INVALID_OPTIONS msgNoBundleIdentifier)
   = Throw (XDLError INVALID_OPTIONS msgNoBundleIdentifier) /\
   [EvGetPublishInfo "." (Returned (mkPublishArgs "dev" "@dev/app" None))]
   = [EvGetPublishInfo (projectDir (sampleBuilder false))
        (Returned (mkPublishArgs "dev" "@dev/app" None))]).
Proof.
  split; [reflexivity |].
  refine (C8_missing_bundle_identifier_fails_before_anything_else
            unconfiguredWorld sampleHost (sampleBuilder false) []
            sampleOperator _ _ _ eq_refl "."%string
            (mkPublishArgs "dev" "@dev/app" None) (or_introl eq_refl)
            eq_refl).
Defined.

(** C9: in every run, a build is submitted only directly after a publish
    that returned, with exactly the identifiers that publish returned and
    for the platform ios; each of the two is attempted at most once; and
    when either fails, the run ends there and throws the error the step
    threw. *)
Theorem C9_publish_then_build_single_attempts
  (w : World) (host : Host) (this : Builder) (h : history) (s : script)
  (o : outcome unit) (d : list event) (s' : script) :
  run w host this h s = (o, d, s') ->
  length (List.filter isPublish d) <= 1 /\
  length (List.filter isBuild d) <= 1 /\
  (forall t1 ids plat r t2,
      d = t1 ++ EvBuild ids plat r :: t2 ->
      (exists t0, t1 = t0 ++ [EvPublish (Returned ids)]) /\
      plat = "ios"%string /\ t2 = [] /\ o = outcomeOf r) /\
  (forall t1 e t2,
      d = t1 ++ EvPublish (Threw e) :: t2 -> o = Throw e /\ t2 = []).
Proof.
  intros HS. apply run_shape in HS.
  assert (Hp : forall dc, forallb beforePublish dc = true ->
                          List.filter isPublish dc = []).
  { intros dc Hc. apply (filter_class beforePublish); auto.
    intros []; unfold beforePublish; simpl; congruence. }
  assert (Hb : forall dc, forallb beforePublish dc = true ->
                          List.filter isBuild dc = []).
  { intros dc Hc. apply (filter_class beforePublish); auto.
    intros []; unfold beforePublish; simpl; congruence. }
  inversion HS; subst; clear HS;
    try match goal with
    | H : workflowShape _ _ _ _ |- _ => apply workflow_beforePublish in H
    end.
  all: split; [| split; [| split]].
  all: try (simpl; rewrite ?filter_app, ?Hp, ?Hb by assumption; simpl; lia).
  - intros t1 ids plat r' t2 HT; flatten_in HT; locate.
  - intros t1 e' t2 HT; flatten_in HT; locate.
  - intros t1 ids plat r' t2 HT; flatten_in HT; locate.
  - intros t1 e' t2 HT; flatten_in HT; locate.
  - intros t1 ids plat r' t2 HT; flatten_in HT; locate.
  - intros t1 e' t2 HT; flatten_in HT; locate.
  - intros t1 ids plat r' t2 HT; flatten_in HT; locate.
  - intros t1 e' t2 HT; flatten_in HT; locate. split; reflexivity.
  - intros t1 ids' plat r' t2 HT; flatten_in HT; locate.
    split; [eexists; ends_with | repeat split; reflexivity].
  - intros t1 e' t2 HT; flatten_in HT; locate.
Qed.

Lemma C9_witness :
  (exists t0,
      firstn 32 (snd (fst freshFullRun))
      = t0 ++ [EvPublish (Returned ["exp-1"%string])]) /\
  "ios"%string = "ios"%string /\
  skipn 33 (snd (fst freshFullRun)) = [] /\
  fst (fst freshFullRun) = outcomeOf (Returned tt).
Proof.
  refine (proj1 (proj2 (proj2
            (C9_publish_then_build_single_attempts
               freshWorld sampleHost (sampleBuilder false) [] sampleOperator
               (fst (fst freshFullRun)) (snd (fst freshFullRun))
               (snd freshFullRun) eq_refl)))
            (firstn 32 (snd (fst freshFullRun))) ["exp-1"%string]
            "ios"%string (Returned tt) (skipn 33 (snd (fst freshFullRun)))
            eq_refl).
Defined.

(** C10: with the clear flag unset and a stored bundle fetched, the one
    field of a kind decides its flow: appleId for the Apple ID, certP12
    for the certificate, pushP12 for the push certificate.  A kind is
    re-validated only if its field is truthy and collected only if it is
    falsy; once the run gets to the step of the kind, a truthy field
    makes it re-validate and a falsy one makes it collect.  Nothing else
    of the bundle is read: bundles that agree on the truthiness of the
    three fields are decided alike, and two runs, in whatever worlds,
    whose bundles agree on the truthiness of the field of a kind run the
    same flow for it once both get to its step. *)
Theorem C10_presence_is_decided_by_one_field_per_kind
  (w : World) (host : Host) (this : Builder) (h : history) (s : script)
  (o : outcome unit) (d : list event) (s' : script) :
  collectAndValidateCredentials w host this h s = (o, d, s') ->
  clearCredentials (options this) = false ->
  forall m b,
    In (EvCredentialsExist m (Returned (Some b))) d ->
    (forall k,
        (revalidated k d -> truthy (kindField k b) = true) /\
        (collected k d -> truthy (kindField k b) = false)) /\
    (forall b',
        (forall k, truthy (kindField k b') = truthy (kindField k b)) ->
        decideHas false (Some b') = decideHas false (Some b)) /\
    (forall k,
        reached k d ->
        (truthy (kindField k b) = true -> revalidated k d) /\
        (truthy (kindField k b) = false -> collected k d)) /\
    (forall w2 host2 this2 h2 s2 o2 d2 s2' m2 b2,
        collectAndValidateCredentials w2 host2 this2 h2 s2 = (o2, d2, s2') ->
        clearCredentials (options this2) = false ->
        In (EvCredentialsExist m2 (Returned (Some b2))) d2 ->
        forall k,
          truthy (kindField k b2) = truthy (kindField k b) ->
          reached k d -> reached k d2 ->
          (revalidated k d <-> revalidated k d2) /\
          (collected k d <-> collected k d2)).
Proof.
  intros HS Hcl m b Hin. apply collectAndValidateCredentials_shape in HS.
  split; [| split; [| split]].
  - intros k. exact (flow_field host this o d k m b HS Hcl Hin).
  - intros b' Hk. rewrite !decideHas_some.
    pose proof (Hk AppleId) as HA. pose proof (Hk Cert) as HC.
    pose proof (Hk PushCert) as HP. simpl in HA, HC, HP.
    rewrite HA, HC, HP. reflexivity.
  - intros k Hre.
    destruct (field_flow host this o d k m b HS Hcl Hin Hre) as [Hr Hc].
    split; [apply Hr | apply Hc].
  - intros w2 host2 this2 h2 s2 o2 d2 s2' m2 b2 HS2 Hcl2 Hin2 k Hk Hre Hre2.
    apply collectAndValidateCredentials_shape in HS2.
    destruct (field_flow host this o d k m b HS Hcl Hin Hre) as [Hr Hc].
    destruct (field_flow host2 this2 o2 d2 k m2 b2 HS2 Hcl2 Hin2 Hre2)
      as [Hr2 Hc2].
    rewrite Hk in Hr2, Hc2. split.
    + rewrite Hr, Hr2. reflexivity.
    + rewrite Hc, Hc2. reflexivity.
Qed.

Lemma C10_witness :
  (forall k,
      (revalidated k (snd (fst appleIdOnlyRun)) ->
       truthy (kindField k appleIdOnlyBundle) = true) /\
      (collected k (snd (fst appleIdOnlyRun)) ->
       truthy (kindField k appleIdOnlyBundle) = false)) /\
  (forall b',
      (forall k,
          truthy (kindField k b') = truthy (kindField k appleIdOnlyBundle)) ->
      decideHas false (Some b') = decideHas false (Some appleIdOnlyBundle)) /\
  (forall k,
      reached k (snd (fst appleIdOnlyRun)) ->
      (truthy (kindField k appleIdOnlyBundle) = true ->
       revalidated k (snd (fst appleIdOnlyRun))) /\
      (truthy (kindField k appleIdOnlyBundle) = false ->
       collected k (snd (fst appleIdOnlyRun)))) /\
  ((revalidated Cert (snd (fst appleIdOnlyRun)) <->
    revalidated Cert (snd (fst bareAppleIdRun))) /\
   (collected Cert (snd (fst appleIdOnlyRun)) <->
    collected Cert (snd (fst bareAppleIdRun)))).
Proof.
  refine (let H :=
            C10_presence_is_decided_by_one_field_per_kind
              appleIdOnlyWorld sampleHost (sampleBuilder false) []
              ["1"; "1"]%string
              (fst (fst appleIdOnlyRun)) (snd (fst appleIdOnlyRun))
              (snd appleIdOnlyRun) eq_refl eq_refl
              sampleMetadata appleIdOnlyBundle
              (or_intror (or_introl eq_refl)) in
          conj (proj1 H)
            (conj (proj1 (proj2 H))
               (conj (proj1 (proj2 (proj2 H)))
                  (proj2 (proj2 (proj2 H))
                     bareAppleIdWorld sampleHost (sampleBuilder false) []
                     ["2"; "dist.p12"; "secret"; "1"]%string
                     (fst (fst bareAppleIdRun)) (snd (fst bareAppleIdRun))
                     (snd bareAppleIdRun)
                     sampleMetadata bareAppleIdBundle eq_refl eq_refl
                     (or_intror (or_introl eq_refl))
                     Cert eq_refl eq_refl eq_refl)))).
Defined.

(* ================================================================== *)
(** ** The operator's lines *)

Lemma typed_app d1 d2 : typed (d1 ++ d2) = typed d1 ++ typed d2.
Proof. apply flat_map_app. Qed.

Lemma ret_orderly {A} (a : A) : orderly (ret a).
Proof. intros h s o d s' H. inversion H; subst. split; [reflexivity | discriminate]. Qed.

Lemma throw_orderly {A} (e : exn) : orderly (@throw script A e).
Proof. intros h s o d s' H. inversion H; subst. split; [reflexivity | discriminate]. Qed.

Lemma call_orderly {A} (f : history -> result A) (ev : result A -> event) :
  (forall r, typed [ev r] = []) -> orderly (call f ev).
Proof.
  intros Hev h s o d s' H. unfold call in H. inversion H; subst.
  rewrite Hev. split; [reflexivity |]. destruct (f h); discriminate.
Qed.

Lemma emit_orderly (e : event) : typed [e] = [] -> orderly (emit e).
Proof.
  intros He h s o d s' H. inversion H; subst. rewrite He.
  split; [reflexivity | discriminate].
Qed.

Lemma bind_orderly {A B} (m : M A) (k : A -> M B) :
  orderly m -> (forall a, orderly (k a)) -> orderly (bind m k).
Proof.
  intros Hm Hk h s o d s'. unfold bind.
  destruct (m h s) as [[o1 d1] s1] eqn:E1. destruct (Hm _ _ _ _ _ E1) as [H1 W1].
  destruct o1 as [a|e|].
  - destruct (k a (h ++ d1) s1) as [[o2 d2] s2] eqn:E2.
    destruct (Hk a _ _ _ _ _ E2) as [H2 W2].
    intros H; inversion H; subst. rewrite typed_app, <- app_assoc.
    split; [reflexivity | exact W2].
  - intros H; inversion H; subst. split; [reflexivity | discriminate].
  - intros H; inversion H; subst. split; auto.
Qed.

Lemma tryCatch_orderly {A} (m : M A) (handler : exn -> M A) :
  orderly m -> (forall e, orderly (handler e)) -> orderly (tryCatch m handler).
Proof.
  intros Hm Hk h s o d s'. unfold tryCatch.
  destruct (m h s) as [[o1 d1] s1] eqn:E1. destruct (Hm _ _ _ _ _ E1) as [H1 W1].
  destruct o1 as [a|e|].
  - intros H; inversion H; subst. split; [reflexivity | discriminate].
  - destruct (handler e (h ++ d1) s1) as [[o2 d2] s2] eqn:E2.
    destruct (Hk e _ _ _ _ _ E2) as [H2 W2].
    intros H; inversion H; subst. rewrite typed_app, <- app_assoc.
    split; [reflexivity | exact W2].
  - intros H; inversion H; subst. split; auto.
Qed.

Lemma ask_orderly q :
  (forall v, inputFree (validate q v)) -> orderly (ask q).
Proof.
  intros Hv h s. revert h.
  induction s as [|line s IH]; intros h o d s' H; simpl in H.
  - inversion H; subst. split; reflexivity.
  - destruct (qtype_of q).
    3:{ destruct (choose (choices q) line).
        - inversion H; subst. split; [reflexivity | discriminate].
        - destruct (ask q (h ++ [EvInput (name q) line]) s)
            as [[o1 d1] s1] eqn:E.
          destruct (IH _ _ _ _ E) as [H1 W1].
          inversion H; subst. simpl. split; auto. }
    all: destruct (validate q (filter q line) (h ++ [EvInput (name q) line]) tt)
        as [[ov dv] uv] eqn:Ev;
      destruct (Hv _ _ _ _ _ _ Ev) as [Hd Hw];
      destruct ov as [[|]|e|]; try congruence.
    all: try (inversion H; subst; simpl; rewrite Hd;
              split; [reflexivity | discriminate]).
    all: match type of H with
         | context [ask ?qq ?hh ?ss] =>
             destruct (ask qq hh ss) as [[o1 d1] s1] eqn:E
         end;
      destruct (IH _ _ _ _ E) as [H1 W1];
      inversion H; subst; simpl; rewrite typed_app, Hd; simpl;
      split; auto.
Qed.

Lemma promptFrom_orderly qs :
  (forall q v, In q qs -> inputFree (validate q v)) ->
  forall answers, orderly (promptFrom qs answers).
Proof.
  induction qs as [|q qs IH]; intros Hv answers; simpl.
  - apply ret_orderly.
  - destruct (when q answers).
    + apply bind_orderly.
      * apply ask_orderly. intros v. apply Hv. left; reflexivity.
      * intros a. apply IH. intros q' v Hin. apply Hv. right; exact Hin.
    + apply IH. intros q' v Hin. apply Hv. right; exact Hin.
Qed.

Lemma inquirer_prompt_orderly qs :
  (forall q v, In q qs -> inputFree (validate q v)) ->
  orderly (inquirer_prompt qs).
Proof.
  intros Hv. unfold inquirer_prompt. apply bind_orderly.
  - apply emit_orderly. reflexivity.
  - intros _. apply promptFrom_orderly. exact Hv.
Qed.

Lemma nonEmpty_inputFree v : inputFree (nonEmpty v).
Proof.
  intros h u o d u' H. inversion H; subst. split; [reflexivity | discriminate].
Qed.

Lemma noValidate_inputFree v : inputFree (noValidate v).
Proof.
  intros h u o d u' H. inversion H; subst. split; [reflexivity | discriminate].
Qed.

Lemma p12PathValidate_inputFree w v : inputFree (p12PathValidate w v).
Proof.
  intros h u o d u'.
  unfold p12PathValidate, tryCatch, bind, stat, call, console_log, emit, ret.
  destruct (fs_stat w h v); simpl; intros H; inversion H; subst;
    (split; [reflexivity | discriminate]).
Qed.

Ltac orderly_step :=
  first
    [ apply ret_orderly
    | apply throw_orderly
    | apply emit_orderly; reflexivity
    | apply call_orderly; intros; reflexivity
    | apply bind_orderly; [| intros ?]
    | apply tryCatch_orderly; [| intros ?]
    | match goal with
      | |- orderly (if ?b then _ else _) => destruct b
      | |- orderly (match ?x with Some _ => _ | None => _ end) => destruct x
      end ].

Lemma askForAppleId_orderly w host m : orderly (askForAppleId w host m).
Proof.
  unfold askForAppleId, console_log, validateCredentialsForPlatform,
    updateCredentialsForPlatform.
  repeat first
    [ apply inquirer_prompt_orderly;
      intros q v Hin; simpl in Hin;
      destruct Hin as [<-|[<-|[<-|[]]]]; apply nonEmpty_inputFree
    | orderly_step ].
Qed.

Lemma askForCerts_orderly w host m : orderly (askForCerts w host m).
Proof.
  unfold askForCerts, console_log, validateCredentialsForPlatform,
    updateCredentialsForPlatform, fetchAppleCertificates, readFile.
  apply bind_orderly; [orderly_step |]. intros _.
  apply bind_orderly.
  - apply inquirer_prompt_orderly. intros q v Hin. simpl in Hin.
    destruct Hin as [<-|[<-|[<-|[]]]]; simpl;
      auto using noValidate_inputFree, p12PathValidate_inputFree.
  - intros answers. repeat orderly_step.
Qed.

Lemma askForPushCerts_orderly w host m : orderly (askForPushCerts w host m).
Proof.
  unfold askForPushCerts, console_log, validateCredentialsForPlatform,
    updateCredentialsForPlatform, fetchPushCertificates, readFile.
  apply bind_orderly; [orderly_step |]. intros _.
  apply bind_orderly.
  - apply inquirer_prompt_orderly. intros q v Hin. simpl in Hin.
    destruct Hin as [<-|[<-|[<-|[]]]]; simpl;
      auto using noValidate_inputFree, p12PathValidate_inputFree.
  - intros answers. repeat orderly_step.
Qed.

Lemma collectAndValidateCredentials_orderly w host this :
  orderly (collectAndValidateCredentials w host this).
Proof.
  unfold collectAndValidateCredentials, getPublishInfoAsync,
    credentialsExistForPlatformAsync, validateCredentialsForPlatform,
    ensureAppId.
  repeat first
    [ apply askForAppleId_orderly
    | apply askForCerts_orderly
    | apply askForPushCerts_orderly
    | orderly_step ].
Qed.

Lemma silent_typed d : forallb silent d = true -> typed d = [].
Proof.
  induction d as [|e d IH]; simpl; auto.
  rewrite andb_true_iff. intros [He Hd]. unfold typed in *. simpl.
  rewrite (IH Hd). destruct e; simpl in *; try discriminate; reflexivity.
Qed.

(* ================================================================== *)
(** ** Further properties of the flows *)

(** Unfold a flow into its paths, with the prompt left as a stretch of
    prompt events. *)
Ltac open_flow HS :=
  inversion HS; subst; clear HS; coarse_prompts.

(** Settle the tests an outcome that is known still depends on. *)
Ltac decide_ifs :=
  repeat match goal with
  | H : (if ?b then _ else _) = _ |- _ =>
      destruct b eqn:?; try discriminate H
  | H : _ = (if ?b then _ else _) |- _ =>
      destruct b eqn:?; try discriminate H
  end.

(** X1: in the Apple ID flow a validation that throws ends the flow at
    once, with no update: an error that carries the service's tag is
    rethrown as a CommandError with the same code and message, any other
    error as it is.  An update that throws ends the flow with that very
    error. *)
Theorem X1_apple_id_failures
  (w : World) (host : Host) (m : CredentialMetadata) (h : history)
  (s : script) (o : outcome unit) (d : list event) (s' : script) :
  askForAppleId w host m h s = (o, d, s') ->
  (forall t1 plat kind c m' e t2,
      d = t1 ++ EvValidate plat kind c m' (Threw e) :: t2 ->
      t2 = [] /\
      o = Throw (if isXDLError host e
                 then CommandError (code_of e) (message_of e) else e)) /\
  (forall t1 plat c m' e t2,
      d = t1 ++ EvUpdate plat c m' (Threw e) :: t2 ->
      t2 = [] /\ o = Throw e).
Proof.
  intros HS. apply askForAppleId_shape in HS. split.
  - open_flow HS; intros t1 plat kind c m' e' t2 HT; flatten_in HT; locate.
    split; reflexivity.
  - open_flow HS; intros t1 plat c m' e' t2 HT; flatten_in HT; locate.
    split; reflexivity.
Qed.

Lemma X1_witness :
  skipn 7 (snd (fst refusedAppleIdRun)) = [] /\
  fst (fst refusedAppleIdRun)
  = Throw (CommandError CREDENTIAL_ERROR "Invalid Apple ID").
Proof.
  refine (proj1
            (X1_apple_id_failures
               refusedWorld sampleHost sampleMetadata [] typedAppleId
               (fst (fst refusedAppleIdRun)) (snd (fst refusedAppleIdRun))
               (snd refusedAppleIdRun) eq_refl)
            (firstn 6 (snd (fst refusedAppleIdRun)))
            "ios"%string "appleId"%string
            (Some (appleIdCredentials "dev@example.com" "hunter2"
                     "TEAM123456"))
            sampleMetadata (XDLError CREDENTIAL_ERROR "Invalid Apple ID")
            (skipn 7 (snd (fst refusedAppleIdRun))) eq_refl).
Defined.

(** X2: whatever the Apple ID flow sends to the service was typed in full:
    the credentials it validates, and then stores, have a non-empty Apple
    ID, password and team id and nothing else, and go to the platform ios
    under the kind appleId with the metadata the flow was given. *)
Theorem X2_apple_id_credentials_are_complete
  (w : World) (host : Host) (m : CredentialMetadata) (h : history)
  (s : script) (o : outcome unit) (d : list event) (s' : script) :
  askForAppleId w host m h s = (o, d, s') ->
  forall t1 plat kind c m' r t2,
    d = t1 ++ EvValidate plat kind c m' r :: t2 ->
    exists a p t,
      c = Some (appleIdCredentials a p t) /\
      a <> EmptyString /\ p <> EmptyString /\ t <> EmptyString /\
      plat = "ios" /\ kind = "appleId" /\ m' = m /\
      (t2 = [] \/
       exists r', t2 = [EvUpdate "ios" (appleIdCredentials a p t) m r']).
Proof.
  intros HS. apply askForAppleId_shape in HS.
  inversion HS; subst; clear HS;
    match goal with
    | Hp : appleIdPromptShape _ _ |- _ => inversion Hp; subst; clear Hp
    end;
    match goal with
    | Hi : forallb isInput _ = true |- _ => apply inputs_quiet in Hi
    end;
    intros t1 plat kind c m' r' t2 HT; flatten_in HT; locate.
  - exists a, p, t. repeat split; auto.
  - exists a, p, t. repeat split; auto. right. eauto.
Qed.

Lemma X2_witness :
  exists a p t,
    Some (appleIdCredentials "dev@example.com" "hunter2" "TEAM123456")
    = Some (appleIdCredentials a p t) /\
    a <> EmptyString /\ p <> EmptyString /\ t <> EmptyString /\
    "ios"%string = "ios"%string /\ "appleId"%string = "appleId"%string /\
    sampleMetadata = sampleMetadata /\
    (skipn 7 (snd (fst freshAppleIdRun)) = [] \/
     exists r',
       skipn 7 (snd (fst freshAppleIdRun))
       = [EvUpdate "ios" (appleIdCredentials a p t) sampleMetadata r']).
Proof.
  refine (X2_apple_id_credentials_are_complete
            freshWorld sampleHost sampleMetadata [] typedAppleId
            (fst (fst freshAppleIdRun)) (snd (fst freshAppleIdRun))
            (snd freshAppleIdRun) eq_refl
            (firstn 6 (snd (fst freshAppleIdRun)))
            "ios"%string "appleId"%string
            (Some (appleIdCredentials "dev@example.com" "hunter2"
                     "TEAM123456"))
            sampleMetadata (Returned true)
            (skipn 7 (snd (fst freshAppleIdRun))) eq_refl).
Defined.

(** X3: in the push-certificate flow every failure of the validation of an
    uploaded certificate, tagged or not, ends the flow at once, with no
    update, in the CREDENTIAL_ERROR that asks for a different
    certificate. *)
Theorem X3_push_validation_failure
  (w : World) (host : Host) (m : CredentialMetadata) (h : history)
  (s : script) (o : outcome unit) (d : list event) (s' : script) :
  askForPushCerts w host m h s = (o, d, s') ->
  forall t1 plat kind c m' e t2,
    d = t1 ++ EvValidate plat kind c m' (Threw e) :: t2 ->
    t2 = [] /\
    o = Throw (XDLError CREDENTIAL_ERROR msgPushCertNotInPortal).
Proof.
  intros HS. apply askForPushCerts_shape in HS.
  open_flow HS; intros t1 plat kind c m' e' t2 HT; flatten_in HT; locate.
  split; reflexivity.
Qed.

Lemma X3_witness :
  skipn 11 (snd (fst pushRefusedRun)) = [] /\
  fst (fst pushRefusedRun)
  = Throw (XDLError CREDENTIAL_ERROR msgPushCertNotInPortal).
Proof.
  refine (X3_push_validation_failure
            pushRefusedWorld sampleHost sampleMetadata [] uploadLines
            (fst (fst pushRefusedRun)) (snd (fst pushRefusedRun))
            (snd pushRefusedRun) eq_refl
            (firstn 10 (snd (fst pushRefusedRun)))
            "ios"%string "push"%string
            (Some (pushCredentials sampleHost [] "secret"))
            sampleMetadata (Unclassified "ETIMEDOUT")
            (skipn 11 (snd (fst pushRefusedRun))) eq_refl).
Defined.

(** X4: in the push-certificate flow an error of the fetch, the file read
    or the update that carries the service's tag leaves the flow as it
    was raised; one that does not is replaced by the CREDENTIAL_ERROR
    with the generic fetch/upload message. *)
Theorem X4_push_errors
  (w : World) (host : Host) (m : CredentialMetadata) (h : history)
  (s : script) (o : outcome unit) (d : list event) (s' : script) :
  askForPushCerts w host m h s = (o, d, s') ->
  forall ev e,
    In ev d -> raised ev = Some e -> isValidate ev = false ->
    o = Throw (if isXDLError host e
               then e
               else XDLError CREDENTIAL_ERROR msgFailedCertificates).
Proof.
  intros HS ev e Hin Hr Hv. apply askForPushCerts_shape in HS. revert Hin.
  open_flow HS; intros Hin; flatten_in Hin.
  all: scan Hin.
  all: try (rewrite (quiet_raised _ _ Hq Hin) in Hr; discriminate).
  all: simpl in Hr, Hv; try discriminate.
  all: try (destruct r; simpl in Hr; try discriminate).
  all: inversion Hr; subst; clear Hr; simpl.
  all: destruct (isXDLError host e); reflexivity.
Qed.

Lemma X4_witness :
  fst (fst pushOfflineRun)
  = Throw (XDLError CREDENTIAL_ERROR msgFailedCertificates).
Proof.
  refine (X4_push_errors
            pushOfflineWorld sampleHost sampleMetadata [] ["1"%string]
            (fst (fst pushOfflineRun)) (snd (fst pushOfflineRun))
            (snd pushOfflineRun) eq_refl
            (EvFetchPushCertificates sampleMetadata
               (Threw (Unclassified "ECONNRESET")))
            (Unclassified "ECONNRESET")
            (or_intror (or_intror (or_intror (or_introl eq_refl))))
            eq_refl eq_refl).
Defined.

(** X5: the push-certificate flow succeeds in two ways only: the fetch of
    a generated certificate resolved to a truthy validity, or the
    validation of the uploaded certificate resolved to a truthy value and
    the update of that certificate returned. *)
Theorem X5_push_success
  (w : World) (host : Host) (m : CredentialMetadata) (h : history)
  (s : script) (o : outcome unit) (d : list event) (s' : script) :
  askForPushCerts w host m h s = (o, d, s') ->
  (o = Ok tt <->
   In (EvFetchPushCertificates m (Returned true)) d \/
   (exists c,
       In (EvValidate "ios" "push" (Some c) m (Returned true)) d /\
       In (EvUpdate "ios" c m (Returned tt)) d)).
Proof.
  intros HS. apply askForPushCerts_shape in HS. split.
  - intros ->. inversion HS; subst; clear HS; coarse_prompts; settle;
      decide_ifs.
    + left. find_in.
    + right. eexists. split; find_in.
  - intros [Hin|(c & Hv & Hu)].
    + revert Hin. open_flow HS; intros Hin; place Hin. reflexivity.
    + revert Hv Hu. open_flow HS; intros Hv Hu; place Hv; place Hu.
      reflexivity.
Qed.

Lemma X5_witness :
  fst (fst generatedPushRun) = Ok tt <->
  In (EvFetchPushCertificates sampleMetadata (Returned true))
    (snd (fst generatedPushRun)) \/
  (exists c,
      In (EvValidate "ios" "push" (Some c) sampleMetadata (Returned true))
        (snd (fst generatedPushRun)) /\
      In (EvUpdate "ios" c sampleMetadata (Returned tt))
        (snd (fst generatedPushRun))).
Proof.
  refine (X5_push_success
            freshWorld sampleHost sampleMetadata [] ["1"%string]
            (fst (fst generatedPushRun)) (snd (fst generatedPushRun))
            (snd generatedPushRun) eq_refl).
Defined.

(** X16: the certificate flow succeeds in two ways only: the fetch of a
    generated certificate returned, or the update of the uploaded
    certificate returned, which the code reaches only after its
    validation returned. *)
Theorem X16_cert_success
  (w : World) (host : Host) (m : CredentialMetadata) (h : history)
  (s : script) (o : outcome unit) (d : list event) (s' : script) :
  askForCerts w host m h s = (o, d, s') ->
  (o = Ok tt <->
   In (EvFetchAppleCertificates m (Returned tt)) d \/
   (exists c v,
       In (EvValidate "ios" "cert" (Some c) m (Returned v)) d /\
       In (EvUpdate "ios" c m (Returned tt)) d)).
Proof.
  intros HS. apply askForCerts_shape in HS. split.
  - intros ->. inversion HS; subst; clear HS; coarse_prompts; settle;
      decide_ifs.
    + left. find_in.
    + right. eexists; eexists. split; find_in.
  - intros [Hin|(c & v & Hv & Hu)].
    + revert Hin. open_flow HS; intros Hin; place Hin. reflexivity.
    + revert Hv Hu. open_flow HS; intros Hv Hu; place Hv; place Hu.
      reflexivity.
Qed.

Lemma X16_witness :
  fst (fst generatedCertRun) = Ok tt <->
  In (EvFetchAppleCertificates sampleMetadata (Returned tt))
    (snd (fst generatedCertRun)) \/
  (exists c v,
      In (EvValidate "ios" "cert" (Some c) sampleMetadata (Returned v))
        (snd (fst generatedCertRun)) /\
      In (EvUpdate "ios" c sampleMetadata (Returned tt))
        (snd (fst generatedCertRun))).
Proof.
  refine (X16_cert_success
            freshWorld sampleHost sampleMetadata [] ["1"%string]
            (fst (fst generatedCertRun)) (snd (fst generatedCertRun))
            (snd generatedCertRun) eq_refl).
Defined.

Lemma askForPushCerts_checked host m o d :
  askForPushCertsShape host m o d -> pathChecks host o d.
Proof.
  intros H. inversion H; subst; clear H; unfold pushPrompt in *;
    match goal with
    | Hp : p12PromptShape _ _ _ _ _ |- _ => inversion Hp; subst; clear Hp
    end;
    simpl; repeat (rewrite <- app_assoc; simpl);
    try (apply checked_none;
         (simpl; repeat (rewrite ?forallb_app; simpl); rewrite ?andb_true_r;
          repeat (apply andb_true_iff; split);
          try reflexivity; try (apply inputs_notStat; assumption));
         fail);
    try match goal with
    | |- pathChecks _ _ (_ :: _ :: _ ++ _ :: ?rej) =>
        is_var rej; replace rej with (rej ++ []) by apply app_nil_r
    end;
    rewrite regroup;
    (apply checked_flow;
     [ (simpl; repeat (rewrite ?forallb_app; simpl); rewrite ?andb_true_r;
        repeat (apply andb_true_iff; split);
        try reflexivity; try (apply inputs_notStat; assumption))
     | assumption
     | first [ apply checked_none; reflexivity
             | apply checked_accepted; [assumption | reflexivity] ]
     | first [ left; split; reflexivity | right; eauto ] ]).
Qed.

(** X6: the push-certificate flow treats a supplied path as the
    certificate flow does: every file read is of the path that the last
    path line was turned into, after the check of that very path found a
    regular file; every check is of the path made from the line typed
    just before it, and a check that fails is followed by the question
    again; what is validated is the contents of the file that was read,
    with the password typed after the path. *)
Theorem X6_push_path_is_checked_before_any_use
  (w : World) (host : Host) (m : CredentialMetadata) (h : history)
  (s : script) (o : outcome unit) (d : list event) (s' : script) :
  askForPushCerts w host m h s = (o, d, s') ->
  (forall t1 p r t2,
      d = t1 ++ EvReadFile p r :: t2 ->
      exists t0 raw st pw,
        t1 = t0 ++ [EvInput "pathToP12" raw; EvStat p (Returned st);
                    EvInput "pushPassword" pw] /\
        isFile st = true /\ p = p12PathFilter host raw /\
        forall plat kind c m' r' t3,
          t2 = EvValidate plat kind c m' r' :: t3 ->
          exists data,
            r = Returned data /\ c = Some (pushCredentials host data pw)) /\
  (forall t1 p r t2,
      d = t1 ++ EvStat p r :: t2 ->
      (exists t0 raw,
          t1 = t0 ++ [EvInput "pathToP12" raw] /\
          p = p12PathFilter host raw) /\
      (statFailed r = true -> reprompted r o t2)) /\
  (forall t1 plat kind c m' r t2,
      d = t1 ++ EvValidate plat kind c m' r :: t2 ->
      exists t0 p data, t1 = t0 ++ [EvReadFile p (Returned data)]).
Proof.
  intros HS. apply askForPushCerts_shape in HS.
  split; [| split].
  - inversion HS; subst; clear HS; unfold pushPrompt in *;
      match goal with
      | Hp : p12PromptShape _ _ _ _ _ |- _ => inversion Hp; subst; clear Hp
      end;
      repeat match goal with
      | Hi : forallb isInput _ = true |- _ => apply inputs_quiet in Hi
      | Hr : rejectedPaths _ _ |- _ => apply rejected_quiet in Hr
      end;
      intros t1 p' r' t2 HT; flatten_in HT; locate.
    all: eexists; eexists; eexists; eexists;
      (split; [ends_with | split; [assumption | split; [reflexivity |]]]).
    all: intros plat kind c m' r'' t3 Ht; inversion Ht; subst.
    all: eexists; split; reflexivity.
  - exact (askForPushCerts_checked host m o d HS).
  - open_flow HS; intros t1 plat kind c m' r' t2 HT; flatten_in HT; locate.
    all: eexists; eexists; eexists; ends_with.
Qed.

Lemma X6_witness :
  exists t0 raw st pw,
    firstn 9 (snd (fst pushUploadRun))
    = t0 ++ [EvInput "pathToP12" raw;
             EvStat "/work/dist.p12" (Returned st);
             EvInput "pushPassword" pw] /\
    isFile st = true /\
    "/work/dist.p12"%string = p12PathFilter sampleHost raw /\
    forall plat kind c m' r' t3,
      skipn 10 (snd (fst pushUploadRun))
      = EvValidate plat kind c m' r' :: t3 ->
      exists data,
        Returned [] = Returned data /\
        c = Some (pushCredentials sampleHost data pw).
Proof.
  refine (proj1
            (X6_push_path_is_checked_before_any_use
               freshWorld sampleHost sampleMetadata [] uploadLines
               (fst (fst pushUploadRun)) (snd (fst pushUploadRun))
               (snd pushUploadRun) eq_refl)
            (firstn 9 (snd (fst pushUploadRun)))
            "/work/dist.p12"%string (Returned [])
            (skipn 10 (snd (fst pushUploadRun))) eq_refl).
Defined.

Lemma inputs_untouched seg :
  forallb isInput seg = true ->
  forallb (fun e => negb (touchesFile e || isValidate e || isUpdate e)) seg
  = true.
Proof. apply forallb_weaken. intros []; simpl; congruence. Qed.

(** X14: when the operator lets the service make the certificate, the
    flow touches no file and neither validates nor updates anything: no
    stat, no file read, no validation and no update is in its trace.  The
    same holds for the push certificate. *)
Theorem X14_generated_certificates_touch_no_file
  (w : World) (host : Host) (m : CredentialMetadata) (h : history)
  (s : script) (oc op : outcome unit) (dc dp : list event)
  (sc sp : script) :
  askForCerts w host m h s = (oc, dc, sc) ->
  askForPushCerts w host m h s = (op, dp, sp) ->
  (forall m' r,
      In (EvFetchAppleCertificates m' r) dc ->
      forallb (fun e => negb (touchesFile e || isValidate e || isUpdate e))
        dc = true) /\
  (forall m' r,
      In (EvFetchPushCertificates m' r) dp ->
      forallb (fun e => negb (touchesFile e || isValidate e || isUpdate e))
        dp = true).
Proof.
  intros HC HP.
  apply askForCerts_shape in HC. apply askForPushCerts_shape in HP.
  split.
  - clear HP. intros m' r Hin. revert Hin.
    inversion HC; subst; clear HC; intros Hin;
      try (exfalso; coarse_prompts; place Hin; fail).
    unfold certPrompt in *.
    match goal with
    | Hp : p12PromptShape _ _ _ _ _ |- _ => inversion Hp; subst; clear Hp
    end.
    simpl. rewrite !forallb_app. simpl.
    rewrite inputs_untouched by assumption. reflexivity.
  - clear HC. intros m' r Hin. revert Hin.
    inversion HP; subst; clear HP; intros Hin;
      try (exfalso; coarse_prompts; place Hin; fail).
    unfold pushPrompt in *.
    match goal with
    | Hp : p12PromptShape _ _ _ _ _ |- _ => inversion Hp; subst; clear Hp
    end.
    simpl. rewrite !forallb_app. simpl.
    rewrite inputs_untouched by assumption. reflexivity.
Qed.

Lemma X14_witness :
  (forall m' r,
      In (EvFetchAppleCertificates m' r) (snd (fst generatedCertRun)) ->
      forallb (fun e => negb (touchesFile e || isValidate e || isUpdate e))
        (snd (fst generatedCertRun)) = true) /\
  (forall m' r,
      In (EvFetchPushCertificates m' r) (snd (fst generatedPushRun)) ->
      forallb (fun e => negb (touchesFile e || isValidate e || isUpdate e))
        (snd (fst generatedPushRun)) = true).
Proof.
  refine (X14_generated_certificates_touch_no_file
            freshWorld sampleHost sampleMetadata [] ["1"%string]
            (fst (fst generatedCertRun)) (fst (fst generatedPushRun))
            (snd (fst generatedCertRun)) (snd (fst generatedPushRun))
            (snd generatedCertRun) (snd generatedPushRun)
            eq_refl eq_refl).
Defined.

(* ================================================================== *)
(** ** Further properties of the workflow *)

Lemma existsb_class (P f : event -> bool) seg :
  forallb P seg = true ->
  (forall e, P e = true -> f e = false) ->
  existsb f seg = false.
Proof.
  intros Hq Hf. induction seg as [|x seg IH]; simpl in *; auto.
  apply andb_true_iff in Hq. destruct Hq as [Hx Hq].
  rewrite (Hf x Hx), IH; auto.
Qed.

Ltac outside_class :=
  let e := fresh "e" in
  intros e; destruct e; unfold mayAppleId, mayCert, mayPush; simpl;
  intros; try discriminate; reflexivity.

(** Evaluate [existsb] over the folded steps a call cannot come from. *)
Ltac calc_class :=
  simpl; repeat (rewrite ?existsb_app; simpl);
  repeat match goal with
  | Hm : forallb ?P ?seg = true |- context [existsb ?f ?seg] =>
      rewrite (existsb_class P f seg Hm) by outside_class
  end;
  simpl.

(** X7: when the re-validation of the stored certificate fails the
    workflow ends there, before the app id is registered, with the error
    that tells the operator to rerun with -c and reupload or regenerate;
    when that of the stored push certificate fails it ends there, after
    the app id was registered, with the like error for the push
    certificate. *)
Theorem X7_failed_revalidation_of_stored_certificates
  (w : World) (host : Host) (this : Builder) (h : history) (s : script)
  (o : outcome unit) (d : list event) (s' : script) :
  collectAndValidateCredentials w host this h s = (o, d, s') ->
  (forall t1 m e t2,
      d = t1 ++ EvValidate "ios" "cert" None m (Threw e) :: t2 ->
      o = Throw (XDLError CREDENTIAL_ERROR msgStoredCertificateInvalid) /\
      t2 = [] /\ existsb isEnsureAppId t1 = false) /\
  (forall t1 m e t2,
      d = t1 ++ EvValidate "ios" "push" None m (Threw e) :: t2 ->
      o = Throw (XDLError CREDENTIAL_ERROR msgStoredPushCertificateInvalid) /\
      t2 = [] /\ In (EvEnsureAppId m (Returned tt)) t1).
Proof.
  intros HS. apply collectAndValidateCredentials_shape in HS. split.
  - open_workflow; note_classes; intros t1 m' e' t2 HT; flatten_in HT.
    all: locate.
    all: repeat split; try reflexivity.
    all: calc_class; reflexivity.
  - open_workflow; note_classes; intros t1 m' e' t2 HT; flatten_in HT.
    all: locate.
    all: repeat split; try reflexivity.
    all: match goal with
         | H : ensureAppIdShape _ (Ok tt) _ |- _ => inversion H; subst
         end; find_in.
Qed.

Lemma X7_witness :
  fst (fst stalePushRun)
  = Throw (XDLError CREDENTIAL_ERROR msgStoredPushCertificateInvalid) /\
  skipn 6 (snd (fst stalePushRun)) = [] /\
  In (EvEnsureAppId sampleMetadata (Returned tt))
    (firstn 5 (snd (fst stalePushRun))).
Proof.
  refine (proj2
            (X7_failed_revalidation_of_stored_certificates
               stalePushWorld sampleHost (sampleBuilder false) []
               sampleOperator
               (fst (fst stalePushRun)) (snd (fst stalePushRun))
               (snd stalePushRun) eq_refl)
            (firstn 5 (snd (fst stalePushRun)))
            sampleMetadata (Unclassified "ETIMEDOUT")
            (skipn 6 (snd (fst stalePushRun))) eq_refl).
Defined.

Lemma Forall_quiet (P : event -> Prop) seg :
  forallb quiet seg = true ->
  (forall e, quiet e = true -> P e) ->
  Forall P seg.
Proof.
  intros Hq HP. apply Forall_forall. intros e Hin.
  rewrite forallb_forall in Hq. auto.
Qed.

(** Split a property of every event over an unfolded trace. *)
Ltac each_event :=
  repeat first
    [ apply Forall_nil
    | apply Forall_cons
    | apply Forall_app; split
    | eapply Forall_quiet; [eassumption |] ].

Ltac addressed :=
  first
    [ let e := fresh "e" in
      intros e; destruct e; simpl; intros; try discriminate;
      split; intros ? Hx; simpl in Hx; discriminate Hx
    | split; intros ? Hx; simpl in Hx; inversion Hx; reflexivity ].

Ltac one_kind :=
  first
    [ let e := fresh "e" in
      intros e; destruct e; simpl; intros; try discriminate;
      intros ? Hx; simpl in Hx; discriminate Hx
    | let c := fresh "c" in
      let Hx := fresh "Hx" in
      intros c Hx; simpl in Hx; try discriminate Hx;
      inversion Hx; subst;
      first [ exists AppleId; reflexivity
            | exists Cert; reflexivity
            | exists PushCert; reflexivity ] ].

Section StepCalls.

Variable host : Host.

Lemma appleIdStep_addressed has m o d :
  appleIdStep host has m o d -> Forall (addressedTo m) d.
Proof. intros H. open_step H; each_event; addressed. Qed.

Lemma certStep_addressed has m o d :
  certStep host has m o d -> Forall (addressedTo m) d.
Proof. intros H. open_step H; each_event; addressed. Qed.

Lemma pushStep_addressed has m o d :
  pushStep host has m o d -> Forall (addressedTo m) d.
Proof. intros H. open_step H; each_event; addressed. Qed.

Lemma ensureAppId_addressed m o d :
  ensureAppIdShape m o d -> Forall (addressedTo m) d.
Proof. intros H. open_step H; each_event; addressed. Qed.

Lemma appleIdStep_oneKind has m o d :
  appleIdStep host has m o d -> Forall sendsOneKind d.
Proof. intros H. open_step H; each_event; one_kind. Qed.

Lemma certStep_oneKind has m o d :
  certStep host has m o d -> Forall sendsOneKind d.
Proof. intros H. open_step H; each_event; one_kind. Qed.

Lemma pushStep_oneKind has m o d :
  pushStep host has m o d -> Forall sendsOneKind d.
Proof. intros H. open_step H; each_event; one_kind. Qed.

Lemma ensureAppId_oneKind m o d :
  ensureAppIdShape m o d -> Forall sendsOneKind d.
Proof. intros H. open_step H; each_event; one_kind. Qed.

End StepCalls.

(** Split a property of every event over the folded steps. *)
Ltac each_step lemmaA lemmaC lemmaP lemmaI :=
  repeat first
    [ apply Forall_nil
    | apply Forall_cons
    | apply Forall_app; split
    | match goal with
      | H : appleIdStep _ _ _ _ ?d |- Forall _ ?d => exact (lemmaA _ _ _ _ _ H)
      | H : certStep _ _ _ _ ?d |- Forall _ ?d => exact (lemmaC _ _ _ _ _ H)
      | H : pushStep _ _ _ _ ?d |- Forall _ ?d => exact (lemmaP _ _ _ _ _ H)
      | H : ensureAppIdShape _ _ ?d |- Forall _ ?d => exact (lemmaI _ _ _ H)
      end ].

(** X10: every call of the credential store in a run is made for one and
    the same metadata, the one built from the publish info of the project
    (its username, its full package name, its bundle identifier, the
    platform ios), and every validation and update is for the platform
    ios. *)
Theorem X10_every_call_is_for_the_project_metadata
  (w : World) (host : Host) (this : Builder) (h : history) (s : script)
  (o : outcome unit) (d : list event) (s' : script) :
  collectAndValidateCredentials w host this h s = (o, d, s') ->
  forall dir args,
    In (EvGetPublishInfo dir (Returned args)) d ->
    Forall (addressedTo
              {| username := args_username args;
                 experienceName := args_remoteFullPackageName args;
                 bundleIdentifier := stringOf (args_bundleIdentifierIOS args);
                 platform := "ios" |}) d.
Proof.
  intros HS dir args Hin. apply collectAndValidateCredentials_shape in HS.
  fold (metadataOf args). revert Hin.
  open_workflow; note_classes; intros Hin.
  all: place Hin.
  all: each_step appleIdStep_addressed certStep_addressed
         pushStep_addressed ensureAppId_addressed.
  all: addressed.
Qed.

Lemma X10_witness :
  Forall (addressedTo sampleMetadata) (snd (fst freshRun)).
Proof.
  refine (X10_every_call_is_for_the_project_metadata
            freshWorld sampleHost (sampleBuilder false) [] sampleOperator
            (fst (fst freshRun)) (snd (fst freshRun)) (snd freshRun)
            eq_refl "."%string sampleArgs (or_introl eq_refl)).
Defined.

(** X15: the credentials of every validation and update in a run are of
    one kind only: an Apple ID with its password and team id and no
    certificate, or a certificate with its password and nothing else, or
    a push certificate with its password and nothing else. *)
Theorem X15_credentials_are_of_one_kind
  (w : World) (host : Host) (this : Builder) (h : history) (s : script)
  (o : outcome unit) (d : list event) (s' : script) :
  collectAndValidateCredentials w host this h s = (o, d, s') ->
  Forall sendsOneKind d.
Proof.
  intros HS. apply collectAndValidateCredentials_shape in HS.
  open_workflow.
  all: each_step appleIdStep_oneKind certStep_oneKind
         pushStep_oneKind ensureAppId_oneKind.
  all: one_kind.
Qed.

Lemma X15_witness :
  Forall sendsOneKind (snd (fst freshRun)).
Proof.
  refine (X15_credentials_are_of_one_kind
            freshWorld sampleHost (sampleBuilder false) [] sampleOperator
            (fst (fst freshRun)) (snd (fst freshRun)) (snd freshRun)
            eq_refl).
Defined.

(* ================================================================== *)
(** ** Nothing is tried twice *)

Ltac bounded :=
  repeat match goal with r : result _ |- _ => destruct r end;
  simpl; repeat split; lia.

Section StepCounts.

Variable host : Host.

Lemma appleIdStep_counts has m o d k :
  appleIdStep host has m o d ->
  length (List.filter (isValidateOf k) d) <= share AppleId k /\
  length (List.filter (isUpdateOf k) d) <= share AppleId k /\
  length (List.filter (isPromptOf k) d) <= share AppleId k.
Proof. intros H. open_step H; destruct k; calc; bounded. Qed.

Lemma certStep_counts has m o d k :
  certStep host has m o d ->
  length (List.filter (isValidateOf k) d) <= share Cert k /\
  length (List.filter (isUpdateOf k) d) <= share Cert k /\
  length (List.filter (isPromptOf k) d) <= share Cert k.
Proof. intros H. open_step H; destruct k; calc; bounded. Qed.

Lemma pushStep_counts has m o d k :
  pushStep host has m o d ->
  length (List.filter (isValidateOf k) d) <= share PushCert k /\
  length (List.filter (isUpdateOf k) d) <= share PushCert k /\
  length (List.filter (isPromptOf k) d) <= share PushCert k.
Proof. intros H. open_step H; destruct k; calc; bounded. Qed.

Lemma ensureAppId_counts m o d k :
  ensureAppIdShape m o d ->
  List.filter (isValidateOf k) d = [] /\
  List.filter (isUpdateOf k) d = [] /\
  List.filter (isPromptOf k) d = [].
Proof. intros H. open_step H; repeat split; reflexivity. Qed.

End StepCounts.

(** X13: nothing is tried twice in a run of the workflow: for each kind
    of credential there is at most one call of the validation, at most
    one call of the update and at most one call of the prompt. *)
Theorem X13_one_attempt_per_kind
  (w : World) (host : Host) (this : Builder) (h : history) (s : script)
  (o : outcome unit) (d : list event) (s' : script) :
  collectAndValidateCredentials w host this h s = (o, d, s') ->
  forall k,
    length (List.filter (isValidateOf k) d) <= 1 /\
    length (List.filter (isUpdateOf k) d) <= 1 /\
    length (List.filter (isPromptOf k) d) <= 1.
Proof.
  intros HS k. apply collectAndValidateCredentials_shape in HS.
  open_workflow.
  all: repeat match goal with
       | H : appleIdStep _ _ _ _ _ |- _ =>
           apply (appleIdStep_counts _ _ _ _ _ k) in H;
           destruct H as (? & ? & ?)
       | H : certStep _ _ _ _ _ |- _ =>
           apply (certStep_counts _ _ _ _ _ k) in H;
           destruct H as (? & ? & ?)
       | H : pushStep _ _ _ _ _ |- _ =>
           apply (pushStep_counts _ _ _ _ _ k) in H;
           destruct H as (? & ? & ?)
       | H : ensureAppIdShape _ _ _ |- _ =>
           apply (ensureAppId_counts _ _ _ k) in H;
           destruct H as (? & ? & ?)
       end.
  all: simpl; rewrite ?filter_app, ?length_app.
  all: repeat match goal with
       | H : List.filter _ _ = [] |- _ => rewrite H; clear H
       end.
  all: destruct k; simpl in *; repeat split; lia.
Qed.

Lemma X13_witness :
  length (List.filter (isValidateOf Cert) (snd (fst freshRun))) <= 1 /\
  length (List.filter (isUpdateOf Cert) (snd (fst freshRun))) <= 1 /\
  length (List.filter (isPromptOf Cert) (snd (fst freshRun))) <= 1.
Proof.
  refine (X13_one_attempt_per_kind
            freshWorld sampleHost (sampleBuilder false) [] sampleOperator
            (fst (fst freshRun)) (snd (fst freshRun)) (snd freshRun)
            eq_refl Cert).
Defined.

(* ================================================================== *)
(** ** A run on stored credentials *)

(** X11: with the flag unset and a stored bundle that holds an Apple ID,
    a certificate and a push certificate, the workflow shows nothing to
    the operator, reads no line and no file, updates nothing, and is not
    left waiting for input: it consists of calls of the service alone. *)
Theorem X11_stored_credentials_need_no_operator
  (w : World) (host : Host) (this : Builder) (h : history) (s : script)
  (o : outcome unit) (d : list event) (s' : script) :
  collectAndValidateCredentials w host this h s = (o, d, s') ->
  clearCredentials (options this) = false ->
  forall m b,
    In (EvCredentialsExist m (Returned (Some b))) d ->
    truthy (appleId b) = true ->
    truthy (certP12 b) = true ->
    truthy (pushP12 b) = true ->
    forallb silent d = true /\ s' = s /\
    existsb isUpdate d = false /\ o <> Waiting.
Proof.
  intros HS Hcl m b Hin HA HC HP.
  destruct (collectAndValidateCredentials_orderly w host this h s o d s' HS)
    as [Hty _].
  apply collectAndValidateCredentials_shape in HS.
  revert Hin Hty.
  open_workflow; note_classes; intros Hin Hty.
  all: place Hin.
  all: rewrite Hcl, decideHas_some, HA, HC, HP in *.
  all: repeat match goal with
       | H : appleIdStep _ _ _ _ _ |- _ =>
           unfold appleIdStep in H; simpl in H; inversion H; subst; clear H
       | H : certStep _ _ _ _ _ |- _ =>
           unfold certStep in H; simpl in H; inversion H; subst; clear H
       | H : pushStep _ _ _ _ _ |- _ =>
           unfold pushStep in H; simpl in H; inversion H; subst; clear H
       | H : ensureAppIdShape _ _ _ |- _ => inversion H; subst; clear H
       end.
  all: unfold typed in *; simpl in *.
  all: repeat split; try reflexivity; try (symmetry; assumption);
       discriminate.
Qed.

Lemma X11_witness :
  forallb silent (snd (fst storedRun)) = true /\
  snd storedRun = sampleOperator /\
  existsb isUpdate (snd (fst storedRun)) = false /\
  fst (fst storedRun) <> Waiting.
Proof.
  refine (X11_stored_credentials_need_no_operator
            storedWorld sampleHost (sampleBuilder false) [] sampleOperator
            (fst (fst storedRun)) (snd (fst storedRun)) (snd storedRun)
            eq_refl eq_refl sampleMetadata storedBundle
            (or_intror (or_introl eq_refl)) eq_refl eq_refl eq_refl).
Defined.

(* ================================================================== *)
(** ** The steps come one after another *)

Lemma existsb_after (f : event -> bool) L t1 e t2 :
  L = t1 ++ e :: t2 -> existsb f L = false -> existsb f t2 = false.
Proof.
  intros -> H. rewrite existsb_app in H. simpl in H.
  apply orb_false_iff in H. destruct H as [_ H].
  apply orb_false_iff in H. tauto.
Qed.

Lemma split_past_none (f : event -> bool) seg L t1 e t2 :
  existsb f seg = false ->
  f e = true ->
  seg ++ L = t1 ++ e :: t2 ->
  exists t1', t1 = seg ++ t1' /\ L = t1' ++ e :: t2.
Proof.
  revert t1. induction seg as [|x seg IH]; intros t1 Hn He H; simpl in *.
  - exists t1. auto.
  - apply orb_false_iff in Hn. destruct Hn as [Hx Hn].
    destruct t1 as [|y t1]; simpl in H.
    + inversion H; subst. congruence.
    + inversion H; subst.
      destruct (IH t1 Hn He H2) as (t1' & -> & HL).
      exists t1'. auto.
Qed.

Lemma end_none (f : event -> bool) seg t1 e t2 :
  existsb f seg = false -> f e = true -> seg = t1 ++ e :: t2 -> False.
Proof.
  intros Hn He ->. rewrite existsb_app in Hn. simpl in Hn.
  rewrite He in Hn. rewrite orb_true_r in Hn. discriminate.
Qed.

Section StepPhases.

Variable host : Host.

Lemma certStep_noAppleId has m o d :
  certStep host has m o d -> existsb appleIdStepEvent d = false.
Proof. intros H. open_step H; calc; by_results. Qed.

Lemma pushStep_noAppleId has m o d :
  pushStep host has m o d -> existsb appleIdStepEvent d = false.
Proof. intros H. open_step H; calc; by_results. Qed.

Lemma appleIdStep_noCert has m o d :
  appleIdStep host has m o d -> existsb certStepEvent d = false.
Proof. intros H. open_step H; calc; by_results. Qed.

Lemma ensureAppId_apart m o d :
  ensureAppIdShape m o d ->
  existsb appleIdStepEvent d = false /\
  existsb certStepEvent d = false /\
  existsb pushStepEvent d = false.
Proof. intros H. open_step H; repeat split; reflexivity. Qed.

End StepPhases.

(** What each step cannot contain. *)
Ltac note_phases :=
  repeat match goal with
  | H : appleIdStep _ _ _ _ ?d |- _ =>
      lazymatch goal with
      | _ : existsb certStepEvent d = false |- _ => fail
      | _ => pose proof (appleIdStep_noCert _ _ _ _ _ H);
             pose proof (appleIdStep_noPush _ _ _ _ _ H)
      end
  | H : certStep _ _ _ _ ?d |- _ =>
      lazymatch goal with
      | _ : existsb appleIdStepEvent d = false |- _ => fail
      | _ => pose proof (certStep_noAppleId _ _ _ _ _ H);
             pose proof (certStep_noPush _ _ _ _ _ H)
      end
  | H : pushStep _ _ _ _ ?d |- _ =>
      lazymatch goal with
      | _ : existsb appleIdStepEvent d = false |- _ => fail
      | _ => pose proof (pushStep_noAppleId _ _ _ _ _ H);
             pose proof (pushStep_noCert _ _ _ _ _ H)
      end
  | H : ensureAppIdShape _ _ ?d |- _ =>
      lazymatch goal with
      | _ : existsb appleIdStepEvent d = false |- _ => fail
      | _ => destruct (ensureAppId_apart _ _ _ H) as (? & ? & ?)
      end
  end.

(** Pass over the steps that hold no event of the kind [Hf] speaks of. *)
Ltac pass_over Hf :=
  repeat match goal with
  | H : [] = ?t1 ++ _ :: _ |- _ => destruct t1; discriminate H
  | H : ?x :: ?L = ?t1 ++ ?e :: ?t2 |- _ =>
      let t1' := fresh "t" in
      let He := fresh "He" in
      apply cons_split in H;
      destruct H as [(-> & He & <-) | (t1' & -> & H)];
      [ rewrite <- He in Hf; simpl in Hf; discriminate Hf | ]
  | H : ?seg ++ ?L = ?t1 ++ ?e :: ?t2, Hn : existsb ?f ?seg = false,
    Hf' : ?f ?e = true |- _ =>
      let t1' := fresh "t" in
      apply (split_past_none f seg L t1 e t2 Hn Hf') in H;
      destruct H as (t1' & -> & H)
  | H : ?seg = ?t1 ++ ?e :: ?t2, Hn : existsb ?f ?seg = false,
    Hf' : ?f ?e = true |- _ =>
      exfalso; exact (end_none f seg t1 e t2 Hn Hf' H)
  end.

Ltac none_after f :=
  match goal with
  | H : ?L = ?t1 ++ ?e :: ?t2 |- existsb f ?t2 = false =>
      apply (existsb_after f L t1 e t2 H);
      simpl; rewrite ?existsb_app; simpl;
      repeat match goal with
      | Hn : existsb f ?seg = false |- _ => rewrite Hn; clear Hn
      end;
      reflexivity
  end.

(** X12: the steps of the workflow come one after another and do not
    interleave.  A call of the certificate step is made only after the
    Apple ID step was completed, and no call of the Apple ID step follows
    it; a call of the push-certificate step is made only after the Apple
    ID step and the certificate step were completed, and no call of
    either follows it. *)
Theorem X12_steps_do_not_interleave
  (w : World) (host : Host) (this : Builder) (h : history) (s : script)
  (o : outcome unit) (d : list event) (s' : script) :
  collectAndValidateCredentials w host this h s = (o, d, s') ->
  forall t1 e t2,
    d = t1 ++ e :: t2 ->
    (certStepEvent e = true ->
     existsb appleIdStepDone t1 = true /\
     existsb appleIdStepEvent t2 = false) /\
    (pushStepEvent e = true ->
     existsb appleIdStepDone t1 = true /\
     existsb certStepDone t1 = true /\
     existsb appleIdStepEvent t2 = false /\
     existsb certStepEvent t2 = false).
Proof.
  intros HS. apply collectAndValidateCredentials_shape in HS.
  open_workflow; note_phases; intros t1 e' t2 HT; flatten_in HT.
  all: split; intros Hf; pass_over Hf.
  all: repeat split; first [ solve [phases] | none_after appleIdStepEvent
                           | none_after certStepEvent ].
Qed.

Lemma X12_witness :
  existsb appleIdStepDone (firstn 22 (snd (fst freshRun))) = true /\
  existsb appleIdStepEvent (skipn 23 (snd (fst freshRun))) = false.
Proof.
  refine (proj1
            (X12_steps_do_not_interleave
               freshWorld sampleHost (sampleBuilder false) [] sampleOperator
               (fst (fst freshRun)) (snd (fst freshRun)) (snd freshRun)
               eq_refl
               (firstn 22 (snd (fst freshRun)))
               (EvValidate "ios" "cert"
                  (Some (certCredentials sampleHost [] "secret"))
                  sampleMetadata (Returned true))
               (skipn 23 (snd (fst freshRun))) eq_refl)
            eq_refl).
Defined.

(* ================================================================== *)
(** ** The whole run *)

Lemma workflow_noCheck host this o d :
  workflowShape host this o d -> existsb isCheck d = false.
Proof.
  intros H. open_workflow; note_classes; calc_class; reflexivity.
Qed.

Lemma workflow_starts host this o d :
  workflowShape host this o d ->
  exists r rest, d = EvGetPublishInfo (projectDir this) r :: rest.
Proof. intros H. inversion H; subst; eexists; eexists; reflexivity. Qed.

(** X8: a run starts with the check of the packager and then the check of
    the project, each made once; when either fails the run ends there
    with the error of the check and nothing else is called; when both
    pass, the next call fetches the publish info of the project. *)
Theorem X8_run_starts_with_the_two_checks
  (w : World) (host : Host) (this : Builder) (h : history) (s : script)
  (o : outcome unit) (d : list event) (s' : script) :
  run w host this h s = (o, d, s') ->
  exists r rest,
    d = EvCheckPackagerStatus r :: rest /\
    (forall e, r = Threw e -> rest = [] /\ o = Throw e) /\
    (r = Returned tt ->
     exists r2 rest2,
       rest = EvCheckStatus r2 :: rest2 /\
       existsb isCheck rest2 = false /\
       (forall e, r2 = Threw e -> rest2 = [] /\ o = Throw e) /\
       (r2 = Returned tt ->
        exists r3 rest3,
          rest2 = EvGetPublishInfo (projectDir this) r3 :: rest3)).
Proof.
  intros HS. apply run_shape in HS.
  inversion HS; subst; clear HS.
  all: eexists; eexists; split; [reflexivity |].
  all: split; [ intros e' He'; inversion He'; subst; auto |].
  all: intros Hr; try discriminate Hr.
  all: eexists; eexists; split; [reflexivity |].
  all: try match goal with
       | H : workflowShape _ _ _ _ |- _ =>
           pose proof (workflow_noCheck _ _ _ _ H);
           destruct (workflow_starts _ _ _ _ H) as (r3 & rest3 & ->)
       end.
  all: split; [ simpl in *; rewrite ?existsb_app; simpl in *;
                 try match goal with
                 | Hn : existsb isCheck _ = false |- _ => rewrite Hn
                 end; reflexivity |].
  all: split; [ intros e' He'; inversion He'; subst; auto |].
  all: intros Hr2; try discriminate Hr2.
  all: eexists; eexists; simpl; reflexivity.
Qed.

Lemma X8_witness :
  exists r rest,
    snd (fst freshFullRun) = EvCheckPackagerStatus r :: rest /\
    (forall e, r = Threw e -> rest = [] /\ fst (fst freshFullRun) = Throw e) /\
    (r = Returned tt ->
     exists r2 rest2,
       rest = EvCheckStatus r2 :: rest2 /\
       existsb isCheck rest2 = false /\
       (forall e, r2 = Threw e ->
                  rest2 = [] /\ fst (fst freshFullRun) = Throw e) /\
       (r2 = Returned tt ->
        exists r3 rest3,
          rest2 = EvGetPublishInfo "." r3 :: rest3)).
Proof.
  refine (X8_run_starts_with_the_two_checks
            freshWorld sampleHost (sampleBuilder false) [] sampleOperator
            (fst (fst freshFullRun)) (snd (fst freshFullRun))
            (snd freshFullRun) eq_refl).
Defined.

(** X9: publish is called only after the credential workflow, run on the
    operator's lines after the two checks, has succeeded; publish and
    build read none of the operator's lines; and the run succeeds only
    when publish returned and the build that followed it returned. *)
Theorem X9_publish_only_after_the_credentials
  (w : World) (host : Host) (this : Builder) (h : history) (s : script)
  (o : outcome unit) (d : list event) (s' : script) :
  run w host this h s = (o, d, s') ->
  (forall t1 r t2,
      d = t1 ++ EvPublish r :: t2 ->
      exists dc,
        collectAndValidateCredentials w host this
          ((h ++ [EvCheckPackagerStatus (Returned tt)])
             ++ [EvCheckStatus (Returned tt)]) s = (Ok tt, dc, s') /\
        t1 = EvCheckPackagerStatus (Returned tt)
             :: EvCheckStatus (Returned tt) :: dc) /\
  (o = Ok tt ->
   exists t0 ids,
     d = t0 ++ [EvPublish (Returned ids); EvBuild ids "ios" (Returned tt)]).
Proof.
  unfold run.
  unfold bind at 1. unfold checkPackagerStatus at 1. unfold call at 1.
  destruct (BaseBuilder_checkPackagerStatus w h) as [[]|e]; simpl.
  2: { intros H; inversion H; subst. split; [| discriminate].
       intros t1 r t2 HT. locate. }
  unfold bind at 1. unfold checkStatus at 1. unfold call at 1.
  destruct (BaseBuilder_checkStatus w _) as [[]|e]; simpl.
  2: { intros H; inversion H; subst. split; [| discriminate].
       intros t1 r t2 HT. locate. }
  unfold bind at 1.
  destruct (collectAndValidateCredentials w host this _ s)
    as [[oc dc] sc] eqn:Ec.
  pose proof (collectAndValidateCredentials_shape _ _ _ _ _ _ _ _ Ec) as Hw.
  apply workflow_beforePublish in Hw.
  destruct oc as [[]|e|].
  - unfold bind, publish, build, call.
    destruct (BaseBuilder_publish w _) as [ids|e]; simpl.
    + match goal with
      | |- context [BaseBuilder_build w ?hh ?a ?b] =>
          destruct (BaseBuilder_build w hh a b) as [[]|e] eqn:Eb
      end; simpl; intros H; inversion H; subst.
      * split.
        -- intros t1 r t2 HT. flatten_in HT. locate.
           exists dc. rewrite app_nil_r. auto.
        -- intros _. exists (EvCheckPackagerStatus (Returned tt)
                             :: EvCheckStatus (Returned tt) :: dc), ids.
           reflexivity.
      * split; [| discriminate].
        intros t1 r t2 HT. flatten_in HT. locate.
        exists dc. rewrite app_nil_r. auto.
    + intros H; inversion H; subst. split; [| discriminate].
      intros t1 r t2 HT. flatten_in HT. locate.
      exists dc. rewrite app_nil_r. auto.
  - intros H; inversion H; subst. split; [| discriminate].
    intros t1 r t2 HT. flatten_in HT. locate.
  - intros H; inversion H; subst. split; [| discriminate].
    intros t1 r t2 HT. flatten_in HT. locate.
Qed.

Lemma X9_witness :
  exists dc,
    collectAndValidateCredentials freshWorld sampleHost (sampleBuilder false)
      [EvCheckPackagerStatus (Returned tt); EvCheckStatus (Returned tt)]
      sampleOperator
    = (Ok tt, dc, snd freshFullRun) /\
    firstn 31 (snd (fst freshFullRun))
    = EvCheckPackagerStatus (Returned tt)
      :: EvCheckStatus (Returned tt) :: dc.
Proof.
  refine (proj1
            (X9_publish_only_after_the_credentials
               freshWorld sampleHost (sampleBuilder false) [] sampleOperator
               (fst (fst freshFullRun)) (snd (fst freshFullRun))
               (snd freshFullRun) eq_refl)
            (firstn 31 (snd (fst freshFullRun)))
            (Returned ["exp-1"%string])
            (skipn 32 (snd (fst freshFullRun))) eq_refl).
Defined.

(* ================================================================== *)
(** ** The status command *)

(** X17: with --all the status command reads no project status and logs
    nothing: it resolves pm2 and, when that succeeds, spawns the pm2
    binary next to the resolved module with the one argument list and
    inherited stdio.  Without --all it spawns nothing: it reads the
    status of the project directory and logs it exactly when it is
    truthy; an error of the read or of the log is the error of the
    command. *)
Theorem X17_status_command_modes
  (w : Status.World) (path_resolve : list string -> string)
  (projectDir : string) (options : Status.Options)
  (h : list Status.event) (o : outcome unit) (d : list Status.event) :
  Status.action w path_resolve projectDir options h = (o, d) ->
  (Status.all options = true ->
   existsb Status.readsProject d = false /\
   (forall cmd args stdio r,
       In (Status.EvSpawn cmd args stdio r) d ->
       exists resolved,
         d = [Status.EvRequireResolve "pm2" (Returned resolved);
              Status.EvSpawn cmd args stdio r] /\
         cmd = path_resolve [resolved; ".."; "bin"; "pm2"] /\
         args = ["list"] /\ stdio = "inherit" /\ o = outcomeOf r) /\
   (existsb Status.isSpawn d = false ->
    exists e, d = [Status.EvRequireResolve "pm2" (Threw e)] /\ o = Throw e)) /\
  (Status.all options = false ->
   existsb Status.isSpawn d = false /\
   (exists r rest, d = Status.EvProjectStatus projectDir r :: rest /\
      (forall e, r = Threw e -> rest = [] /\ o = Throw e) /\
      (forall st, r = Returned st -> truthy st = false ->
                  rest = [] /\ o = Ok tt) /\
      (forall st, r = Returned st -> truthy st = true ->
                  exists line r',
                    st = Some line /\ rest = [Status.EvLog line r'] /\
                    o = outcomeOf r'))).
Proof.
  unfold Status.action, Status.bind, Status.call, Status.ret.
  intros HS. split; intros Ha; rewrite Ha in HS.
  - destruct (Status.require_resolve w h "pm2") as [resolved|e];
      simpl in HS; inversion HS; subst; clear HS.
    + split; [reflexivity |]. split.
      * intros cmd args stdio r [Hx|[Hx|[]]]; [discriminate Hx |].
        inversion Hx; subst. exists resolved.
        repeat split; reflexivity.
      * simpl. discriminate.
    + split; [reflexivity |]. split.
      * intros cmd args stdio r [Hx|[]]. discriminate Hx.
      * intros _. exists e. split; reflexivity.
  - destruct (Status.config_projectStatusAsync w h projectDir) as [st|e];
      simpl in HS.
    + destruct (truthy st) eqn:Et; simpl in HS;
        inversion HS; subst; clear HS.
      * split; [reflexivity |]. eexists; eexists. split; [reflexivity |].
        split; [intros e He; discriminate He |].
        split; intros st' Hst Ht; inversion Hst; subst; [congruence |].
        destruct st' as [line|]; [| discriminate Ht].
        exists line. eexists. repeat split; reflexivity.
      * split; [reflexivity |]. eexists; eexists. split; [reflexivity |].
        split; [intros e He; discriminate He |].
        split; intros st' Hst Ht; inversion Hst; subst; [auto | congruence].
    + inversion HS; subst; clear HS.
      split; [reflexivity |]. eexists; eexists. split; [reflexivity |].
      split; [intros e' He; inversion He; subst; auto |].
      split; intros st' Hst; discriminate Hst.
Qed.

Lemma X17_witness :
  existsb Status.isSpawn (snd Status.sampleRun) = false /\
  (exists r rest,
      snd Status.sampleRun = Status.EvProjectStatus "." r :: rest /\
      (forall e, r = Threw e -> rest = [] /\ fst Status.sampleRun = Throw e) /\
      (forall st, r = Returned st -> truthy st = false ->
                  rest = [] /\ fst Status.sampleRun = Ok tt) /\
      (forall st, r = Returned st -> truthy st = true ->
                  exists line r',
                    st = Some line /\ rest = [Status.EvLog line r'] /\
                    fst Status.sampleRun = outcomeOf r')).
Proof.
  refine (proj2
            (X17_status_command_modes
               (Status.sampleWorld (Some "running"%string)) Status.joinPath
               "."%string (Status.mkOptions false) []
               (fst Status.sampleRun) (snd Status.sampleRun) eq_refl)
            eq_refl).
Defined.

(** X19: in the certificate flow a failure of the validation of an
    uploaded certificate ends the flow at once, with no update.  When the
    error carries the service's tag it is rethrown as a CommandError with
    the same code; its message asks for a different certificate, unless a
    CommandError carries the tag itself, in which case the outer handler
    replaces it by the generic fetch/upload message. *)
Theorem X19_cert_validation_failure
  (w : World) (host : Host) (m : CredentialMetadata) (h : history)
  (s : script) (o : outcome unit) (d : list event) (s' : script) :
  askForCerts w host m h s = (o, d, s') ->
  forall t1 plat kind c m' e t2,
    d = t1 ++ EvValidate plat kind c m' (Threw e) :: t2 ->
    t2 = [] /\
    (isXDLError host e = true ->
     o = Throw (CommandError (code_of e)
                  (if commandErrorIsXDL host
                   then msgFailedCertificates else msgCertNotInPortal))).
Proof.
  intros HS. apply askForCerts_shape in HS.
  open_flow HS; intros t1 plat kind c m' e' t2 HT; flatten_in HT; locate.
  split; [reflexivity |].
  intros He. simpl. rewrite He. simpl.
  destruct (commandErrorIsXDL host); reflexivity.
Qed.

Lemma X19_witness :
  skipn 11 (snd (fst certRefusedRun)) = [] /\
  fst (fst certRefusedRun)
  = Throw (CommandError CREDENTIAL_ERROR msgCertNotInPortal).
Proof.
  refine ((fun H => conj (proj1 H) (proj2 H eq_refl))
          (X19_cert_validation_failure
            certRefusedWorld sampleHost sampleMetadata [] uploadLines
            (fst (fst certRefusedRun)) (snd (fst certRefusedRun))
            (snd certRefusedRun) eq_refl
            (firstn 10 (snd (fst certRefusedRun)))
            "ios"%string "cert"%string
            (Some (certCredentials sampleHost [] "secret"))
            sampleMetadata
            (XDLError CREDENTIAL_ERROR "Certificate not found")
            (skipn 11 (snd (fst certRefusedRun))) eq_refl)).
Defined.

(* ================================================================== *)
(** ** A workflow that succeeds *)

Lemma pushStep_last host has m d :
  pushStep host has m (Ok tt) d ->
  exists t0 ev, d = t0 ++ [ev] /\ pushStepDone ev = true.
Proof.
  intros H. open_step H; decide_ifs;
    eexists; eexists; (split; [ends_with | reflexivity]).
Qed.

(** X20: a workflow that succeeds went through every step: the project
    has a bundle identifier, the Apple ID step and the certificate step
    were completed, the app id was registered, and the last call of the
    run is the one that completes the push-certificate step. *)
Theorem X20_success_goes_through_every_step
  (w : World) (host : Host) (this : Builder) (h : history) (s : script)
  (d : list event) (s' : script) :
  collectAndValidateCredentials w host this h s = (Ok tt, d, s') ->
  (exists args rest,
      d = EvGetPublishInfo (projectDir this) (Returned args) :: rest /\
      truthy (args_bundleIdentifierIOS args) = true) /\
  existsb appleIdStepDone d = true /\
  existsb certStepDone d = true /\
  (exists m, In (EvEnsureAppId m (Returned tt)) d) /\
  (exists t0 ev, d = t0 ++ [ev] /\ pushStepDone ev = true).
Proof.
  intros HS. apply collectAndValidateCredentials_shape in HS.
  open_workflow.
  match goal with
  | H : ensureAppIdShape _ (Ok tt) _ |- _ => inversion H; subst; clear H
  end.
  match goal with
  | H : pushStep _ _ _ (Ok tt) _ |- _ =>
      destruct (pushStep_last _ _ _ _ H) as (t0 & ev & -> & Hd)
  end.
  split; [eexists; eexists; split; [reflexivity | assumption] |].
  split; [phases |]. split; [phases |].
  split; [eexists; find_in |].
  eexists; exists ev. split; [ends_with | assumption].
Qed.

Lemma X20_witness :
  (exists args rest,
      snd (fst freshRun) = EvGetPublishInfo "." (Returned args) :: rest /\
      truthy (args_bundleIdentifierIOS args) = true) /\
  existsb appleIdStepDone (snd (fst freshRun)) = true /\
  existsb certStepDone (snd (fst freshRun)) = true /\
  (exists m, In (EvEnsureAppId m (Returned tt)) (snd (fst freshRun))) /\
  (exists t0 ev, snd (fst freshRun) = t0 ++ [ev] /\ pushStepDone ev = true).
Proof.
  refine (X20_success_goes_through_every_step
            freshWorld sampleHost (sampleBuilder false) [] sampleOperator
            (snd (fst freshRun)) (snd freshRun) eq_refl).
Defined.
